(** * Website file extractor: the extraction pipeline and its result store

    A shallow embedding of the asset-discovery and retrieval pipeline of the
    repository: the TypeScript service ([routes.ts] with [storage.ts] and
    [schema.ts]) and the standalone JavaScript server that duplicates it.

    Conventions of the embedding.
    - A JavaScript string is represented by the bytes of its UTF-8 encoding
      (a [string] of Rocq), so [Buffer.byteLength(s, 'utf8')] is
      [String.length s]; [utf16_length] recovers the [.length] of the
      JavaScript string.  [trim] knows the white space and the line
      terminators of JavaScript in their UTF-8 form; the class [\s] of the
      regular expressions and letter case are recognised on the ASCII range.
    - A [Buffer] is a [list byte].
    - Sizes and counters are natural numbers.
    - The collaborators that are not code of the repository (the WHATWG
      [URL] class, [cheerio], [axios] and the network behind it,
      [crypto.randomUUID], [JSON.stringify], the UTF-8 decoder of [Buffer],
      the clock, the order in which the requests of one batch complete) are
      the fields of the class [Runtime]. *)

From Stdlib Require Import Strings.String Strings.Ascii Strings.Byte List Bool Arith NArith ZArith Lia ZifyNat Permutation.
From stdpp Require Import base option list strings gmap.

Open Scope string_scope.
Open Scope list_scope.
Open Scope nat_scope.

(** ** JavaScript strings *)

Module Js.

Definition lower (c : ascii) : ascii :=
  let n := nat_of_ascii c in
  if (65 <=? n) && (n <=? 90) then ascii_of_nat (n + 32) else c.

(** [s.toLowerCase()] *)
Fixpoint toLowerCase (s : string) : string :=
  match s with
  | EmptyString => EmptyString
  | String c r => String (lower c) (toLowerCase r)
  end.

(** [s.startsWith(p)] *)
Definition startsWith (p s : string) : bool := String.prefix p s.

(** [s.includes(p)] *)
Fixpoint includes (p s : string) : bool :=
  String.prefix p s ||
  match s with
  | EmptyString => false
  | String _ r => includes p r
  end.

(** [s.split(sep).pop()]: what follows the last separator, the whole of
    [s] when there is none. *)
Fixpoint split_pop (sep : ascii) (s : string) : string :=
  match s with
  | EmptyString => EmptyString
  | String c r =>
      if Ascii.eqb c sep then split_pop sep r
      else if includes (String sep EmptyString) r then split_pop sep r
      else s
  end.

(** [s.split(sep)[0]]: what precedes the first separator. *)
Fixpoint split_head (sep : ascii) (s : string) : string :=
  match s with
  | EmptyString => EmptyString
  | String c r => if Ascii.eqb c sep then EmptyString else String c (split_head sep r)
  end.

(** [s.substring(0, n)] *)
Definition substring0 (n : nat) (s : string) : string := String.substring 0 n s.

Definition is_space (c : ascii) : bool :=
  let n := nat_of_ascii c in
  ((9 <=? n) && (n <=? 13)) || (n =? 32).

(** The characters that [trim] removes and that take two or three bytes:
    U+00A0; U+1680, U+2000 to U+200A, U+2028, U+2029, U+202F, U+205F,
    U+3000 and U+FEFF. *)
Definition is_space2 (c d : ascii) : bool :=
  (nat_of_ascii c =? 194) && (nat_of_ascii d =? 160).

Definition is_space3 (c d e : ascii) : bool :=
  let c := nat_of_ascii c in
  let d := nat_of_ascii d in
  let e := nat_of_ascii e in
  ((c =? 225) && (d =? 154) && (e =? 128))
  || ((c =? 226) && (d =? 128)
      && (((128 <=? e) && (e <=? 138)) || (e =? 168) || (e =? 169) || (e =? 175)))
  || ((c =? 226) && (d =? 129) && (e =? 159))
  || ((c =? 227) && (d =? 128) && (e =? 128))
  || ((c =? 239) && (d =? 187) && (e =? 191)).

(** [s] is made of white space and line terminators only *)
Fixpoint all_space (s : string) : bool :=
  match s with
  | EmptyString => true
  | String c r =>
      if is_space c then all_space r
      else
        match r with
        | String d r1 =>
            if is_space2 c d then all_space r1
            else
              match r1 with
              | String e r2 => if is_space3 c d e then all_space r2 else false
              | EmptyString => false
              end
        | EmptyString => false
        end
  end.

(** [s.trim()] is a non-empty string *)
Definition trim_truthy (s : string) : bool := negb (all_space s).

(** the number of UTF-16 code units of the string whose UTF-8 bytes are
    [s]: one for each byte that starts a character, one more for each
    character outside the basic plane *)
Fixpoint utf16_length (s : string) : nat :=
  match s with
  | EmptyString => 0
  | String c r =>
      let n := nat_of_ascii c in
      (if (128 <=? n) && (n <? 192) then 0 else if 240 <=? n then 2 else 1)
      + utf16_length r
  end.

(** [Buffer.byteLength(s, 'utf8')] *)
Definition byteLength (s : string) : nat := String.length s.

(** a JavaScript value used as a condition: a string is truthy when it is
    not empty, [undefined] and [null] are falsy *)
Definition truthy (o : option string) : bool :=
  match o with
  | Some s => negb (String.eqb s EmptyString)
  | None => false
  end.

(** [a || b] on strings *)
Definition or_else (o : option string) (d : string) : string :=
  match o with
  | Some s => if String.eqb s EmptyString then d else s
  | None => d
  end.

End Js.

(** ** The data model ([schema.ts]) *)

Inductive FileType := html | css | js | image | payload | other.

Inductive Status := pending | processing | completed | failed.

Record ExtractedFile := {
  file_id : string;
  file_name : string;
  file_path : string;
  file_type : FileType;
  file_size : nat;
  file_content : string;
  file_mimeType : string
}.

Record ExtractionResult := {
  res_id : string;
  res_url : string;
  res_status : Status;
  res_files : list ExtractedFile;
  res_totalSize : nat;
  res_totalFiles : nat;
  res_extractedAt : string;
  res_error : option string
}.

(** [Partial<ExtractionResult>]: [None] is a key that the object does not
    have. *)
Record Updates := {
  u_id : option string;
  u_url : option string;
  u_status : option Status;
  u_files : option (list ExtractedFile);
  u_totalSize : option nat;
  u_totalFiles : option nat;
  u_extractedAt : option string;
  u_error : option (option string)
}.

(** [{ status: s }] *)
Definition status_update (s : Status) : Updates :=
  {| u_id := None; u_url := None; u_status := Some s; u_files := None;
     u_totalSize := None; u_totalFiles := None; u_extractedAt := None;
     u_error := None |}.

(** [{ status: "failed", error: msg }] *)
Definition failed_update (msg : string) : Updates :=
  {| u_id := None; u_url := None; u_status := Some failed; u_files := None;
     u_totalSize := None; u_totalFiles := None; u_extractedAt := None;
     u_error := Some (Some msg) |}.

(** [{ ...existing, ...updates }] *)
Definition spread (existing : ExtractionResult) (updates : Updates) : ExtractionResult :=
  {| res_id := default (res_id existing) (u_id updates);
     res_url := default (res_url existing) (u_url updates);
     res_status := default (res_status existing) (u_status updates);
     res_files := default (res_files existing) (u_files updates);
     res_totalSize := default (res_totalSize existing) (u_totalSize updates);
     res_totalFiles := default (res_totalFiles existing) (u_totalFiles updates);
     res_extractedAt := default (res_extractedAt existing) (u_extractedAt updates);
     res_error := default (res_error existing) (u_error updates) |}.

(** [files.reduce((sum, f) => sum + f.size, 0)] *)
Definition sum_sizes (files : list ExtractedFile) : nat :=
  fold_left (fun sum f => sum + file_size f) files 0.

(** The totals of a record are those of its files. *)
Definition totals_ok (r : ExtractionResult) : Prop :=
  res_totalFiles r = length (res_files r) /\
  res_totalSize r = list_sum (map file_size (res_files r)).

(** ** Thrown values and the state of the process *)

(** What a [catch] clause receives: an [Error] with its message, or a value
    that is not an [Error]. *)
Inductive JsValue := JsError (message : string) | JsOther.

(** [error instanceof Error ? error.message : 'Unknown error'] *)
Definition error_message (e : JsValue) : string :=
  match e with
  | JsError m => m
  | JsOther => "Unknown error"
  end.

Inductive Res (A : Type) := Val (a : A) | Throw (e : JsValue).
Arguments Val {A} a.
Arguments Throw {A} e.

(** The state that the code reads and writes, for a store of records of
    type [R]: the map of extractions, the number of calls of [randomUUID] so
    far, the URLs given to [axios.get] in the order of the calls, and the
    lines written to the console, each with the value printed after it.
    [history] is a ghost: the successive values of the map, one for each
    write. *)
Record World (R : Type) := {
  extractions : gmap string R;
  uuids : nat;
  requests : list string;
  console : list (string * option JsValue);
  history : list (gmap string R)
}.
Arguments extractions {R} w.
Arguments uuids {R} w.
Arguments requests {R} w.
Arguments console {R} w.
Arguments history {R} w.

Section Monad.
Context {R : Type}.

Definition M (A : Type) : Type := World R -> Res A * World R.

Definition ret {A} (a : A) : M A := fun w => (Val a, w).

Definition bind {A B} (m : M A) (k : A -> M B) : M B :=
  fun w => match m w with
           | (Val a, w') => k a w'
           | (Throw e, w') => (Throw e, w')
           end.

Definition throw {A} (e : JsValue) : M A := fun w => (Throw e, w).

(** [try { m } catch (e) { h e }] *)
Definition try_catch {A} (m : M A) (h : JsValue -> M A) : M A :=
  fun w => match m w with
           | (Val a, w') => (Val a, w')
           | (Throw e, w') => h e w'
           end.

(** the outcome of a call that does not touch the state *)
Definition lift {A} (r : Res A) : M A := fun w => (r, w).

(** A call of an [async] function whose promise nobody awaits: its
    effects happen, its rejection is lost. *)
Definition not_awaited {A} (m : M A) : M unit :=
  fun w => (Val tt, snd (m w)).

Definition get_store : M (gmap string R) :=
  fun w => (Val (extractions w), w).

Definition set_store (m : gmap string R) : M unit :=
  fun w => (Val tt, {| extractions := m; uuids := uuids w; requests := requests w;
                       console := console w; history := history w ++ [m] |}).

Definition console_log (line : string) : M unit :=
  fun w => (Val tt, {| extractions := extractions w; uuids := uuids w;
                       requests := requests w;
                       console := console w ++ [(line, None)];
                       history := history w |}).

Definition console_error (line : string) (e : JsValue) : M unit :=
  fun w => (Val tt, {| extractions := extractions w; uuids := uuids w;
                       requests := requests w;
                       console := console w ++ [(line, Some e)];
                       history := history w |}).

(** the call of [axios.get(url, ...)]: the request leaves, the caller
    waits *)
Definition note_request (url : string) : M unit :=
  fun w => (Val tt, {| extractions := extractions w; uuids := uuids w;
                       requests := requests w ++ [url];
                       console := console w;
                       history := history w |}).

(** the number of the next call of [randomUUID] *)
Definition next_uuid : M nat :=
  fun w => (Val (uuids w), {| extractions := extractions w; uuids := S (uuids w);
                              requests := requests w; console := console w;
                              history := history w |}).
End Monad.

Declare Scope js_scope.
Delimit Scope js_scope with js.
Notation "x <- m ;; k" := (bind m (fun x => k))
  (at level 100, m at next level, right associativity) : js_scope.
Notation "m ;;; k" := (bind m (fun _ => k))
  (at level 100, right associativity) : js_scope.
Open Scope js_scope.

(** [for (const x of l) { body x }] *)
Fixpoint for_each {R A} (l : list A) (body : A -> M (R := R) unit) : M (R := R) unit :=
  match l with
  | [] => ret tt
  | x :: r => body x ;;; for_each r body
  end.

(** a loop whose body updates a local variable *)
Fixpoint fold_each {R A S} (l : list A) (s : S) (body : S -> A -> M (R := R) S) : M (R := R) S :=
  match l with
  | [] => ret s
  | x :: r => s' <- body s x ;; fold_each r s' body
  end.

(** ** Regular expressions

    The fragment of JavaScript's regular expressions that the literals of
    the source use, with the engine's backtracking order: alternatives from
    left to right, greedy quantifiers that give back one character at a
    time.  Quantifiers range over one character class, as they do in every
    literal of the source. *)

Module Regex.

Inductive t :=
| Lit (s : string)
| Cls (p : ascii -> bool)
| Star (p : ascii -> bool)
| Seq (a b : t)
| Alt (a b : t)
| Opt (a : t)
| Group (n : nat) (a : t).

Definition Plus (p : ascii -> bool) : t := Seq (Cls p) (Star p).

Definition Caps := list (nat * string).

Definition cap (n : nat) (c : Caps) : string :=
  match find (fun e => fst e =? n) c with
  | Some e => snd e
  | None => EmptyString
  end.

Definition or_try {A} (a b : option A) : option A :=
  match a with Some x => Some x | None => b end.

(** the text that was read between [s] and its suffix [s'] *)
Definition consumed (s s' : string) : string :=
  String.substring 0 (String.length s - String.length s') s.

Fixpoint drop_prefix (p s : string) : option string :=
  match p, s with
  | EmptyString, _ => Some s
  | String a p', String b s' => if Ascii.eqb a b then drop_prefix p' s' else None
  | String _ _, EmptyString => None
  end.

Section Run.
Context {R : Type}.

Fixpoint star (p : ascii -> bool) (s : string) (k : string -> option R) : option R :=
  match s with
  | String c r => if p c then or_try (star p r k) (k s) else k s
  | EmptyString => k s
  end.

Fixpoint run (r : t) (s : string) (c : Caps) (k : string -> Caps -> option R) : option R :=
  match r with
  | Lit l => match drop_prefix l s with Some s' => k s' c | None => None end
  | Cls p => match s with
             | String x s' => if p x then k s' c else None
             | EmptyString => None
             end
  | Star p => star p s (fun s' => k s' c)
  | Seq a b => run a s c (fun s' c' => run b s' c' k)
  | Alt a b => or_try (run a s c k) (run b s c k)
  | Opt a => or_try (run a s c k) (k s c)
  | Group n a => run a s c (fun s' c' => k s' ((n, consumed s s') :: c'))
  end.
End Run.

(** one attempt at the start of [s]: the matched text, the groups and
    what follows the match *)
Definition exec (r : t) (s : string) : option (string * Caps * string) :=
  run r s [] (fun s' c => Some (consumed s s', c, s')).

(** [s.match(/r/g)], the empty list standing for [null] *)
Fixpoint match_all (r : t) (s : string) (skip : nat) : list string :=
  match s with
  | EmptyString =>
      match skip, exec r s with
      | 0, Some (m, _, _) => [m]
      | _, _ => []
      end
  | String _ rest =>
      match skip with
      | S n => match_all r rest n
      | 0 => match exec r s with
             | Some (m, _, _) => m :: match_all r rest (String.length m - 1)
             | None => match_all r rest 0
             end
      end
  end.

(** [s.replace(/r/, template)] for a template made of group references *)
Fixpoint replace (r : t) (template : Caps -> string) (s : string) : string :=
  match exec r s with
  | Some (_, c, rest) => template c +:+ rest
  | None => match s with
            | EmptyString => EmptyString
            | String x s' => String x (replace r template s')
            end
  end.

Definition one_of (l : string) (c : ascii) : bool := Js.includes (String c EmptyString) l.
Definition none_of (l : string) (c : ascii) : bool := negb (one_of l c).
(** ['] and the double quote *)
Definition quote : ascii -> bool := one_of (String "'" (String "034" EmptyString)).
Definition digit (c : ascii) : bool :=
  let n := nat_of_ascii c in (48 <=? n) && (n <=? 57).
(** [.] *)
Definition dot : ascii -> bool := none_of (String "010" (String "013" EmptyString)).

End Regex.

(** ** The result store ([storage.ts], class [MemStorage])

    The map holds references to objects.  [updateExtractionResult] stores a
    fresh object that shares the [files] array of the one it replaces;
    [addFileToExtraction] writes to the object that the map holds.  No
    caller keeps an object that the map has dropped, so the record that the
    map holds is given here by value. *)

Definition getExtractionResult (id : string) : M (option ExtractionResult) :=
  store <- get_store ;; ret (store !! id).

Definition updateExtractionResult (id : string) (updates : Updates) : M ExtractionResult :=
  store <- get_store ;;
  match store !! id with
  | None => throw (JsError "Extraction not found")
  | Some existing =>
      let updated := spread existing updates in
      set_store (<[id := updated]> store) ;;;
      ret updated
  end.

Definition addFileToExtraction (extractionId : string) (file : ExtractedFile) : M unit :=
  store <- get_store ;;
  match store !! extractionId with
  | None => throw (JsError "Extraction not found")
  | Some extraction =>
      let files := res_files extraction ++ [file] in
      set_store (<[extractionId :=
                   {| res_id := res_id extraction;
                      res_url := res_url extraction;
                      res_status := res_status extraction;
                      res_files := files;
                      res_totalSize := sum_sizes files;
                      res_totalFiles := length files;
                      res_extractedAt := res_extractedAt extraction;
                      res_error := res_error extraction |}]> store)
  end.

(** ** Classification ([routes.ts]) *)

(** [switch (ext) { case l1: case l2: ... }] *)
Definition case_of (ext : string) (labels : list string) : bool :=
  existsb (String.eqb ext) labels.

(** [fileName.split('.').pop()?.toLowerCase()] *)
Definition extension (fileName : string) : string :=
  Js.toLowerCase (Js.split_pop "." fileName).

Definition getFileType (fileName : string) : FileType :=
  let ext := extension fileName in
  if case_of ext ["css"] then css
  else if case_of ext ["js"; "mjs"; "ts"; "jsx"; "tsx"] then js
  else if case_of ext ["html"; "htm"] then html
  else if case_of ext ["png"; "jpg"; "jpeg"; "gif"; "svg"; "webp"; "ico"; "bmp"; "tiff"] then image
  else if case_of ext ["json"; "xml"] then payload
  else if case_of ext ["woff"; "woff2"; "ttf"; "eot"; "otf"] then other
  else if case_of ext ["mp4"; "webm"; "ogg"; "avi"; "mov"] then other
  else if case_of ext ["mp3"; "wav"; "flac"; "aac"] then other
  else if case_of ext ["pdf"; "doc"; "docx"; "txt"] then other
  else other.

Definition getFolderPath (type : FileType) : string :=
  match type with
  | css => "css"
  | js => "js"
  | image => "images"
  | payload => "payloads"
  | _ => "assets"
  end.

Definition getMimeType (fileName : string) : string :=
  let ext := extension fileName in
  if case_of ext ["css"] then "text/css"
  else if case_of ext ["js"] then "application/javascript"
  else if case_of ext ["html"; "htm"] then "text/html"
  else if case_of ext ["json"] then "application/json"
  else if case_of ext ["png"] then "image/png"
  else if case_of ext ["jpg"; "jpeg"] then "image/jpeg"
  else if case_of ext ["gif"] then "image/gif"
  else if case_of ext ["svg"] then "image/svg+xml"
  else "text/plain".

(** the extensions whose response is read as raw bytes *)
Definition binary_extensions : list string :=
  ["png"; "jpg"; "jpeg"; "gif"; "webp"; "ico"; "bmp"; "tiff"; "woff"; "woff2";
   "ttf"; "eot"; "otf"; "mp4"; "webm"; "ogg"; "mp3"; "wav"; "pdf"].

(** [[...].includes(fileName.split('.').pop()?.toLowerCase() || '')] *)
Definition isBinary (fileName : string) : bool :=
  case_of (extension fileName) binary_extensions.

(** ** Base64 ([Buffer.toString('base64')] and its inverse, RFC 4648) *)

Module Base64.

Definition alphabet : string :=
  "ABCDEFGHIJKLMNOPQRSTUVWXYZabcdefghijklmnopqrstuvwxyz0123456789+/".

Definition pad : ascii := "="%char.

(** the character of a group of six bits *)
Definition digit (n : nat) : ascii :=
  match String.get n alphabet with
  | Some c => c
  | None => pad
  end.

Fixpoint index_of (c : ascii) (s : string) : option nat :=
  match s with
  | EmptyString => None
  | String x r => if Ascii.eqb x c then Some 0 else S <$> index_of c r
  end.

(** the six bits of a character of the alphabet *)
Definition value (c : ascii) : option nat := index_of c alphabet.

Fixpoint encode (bs : list byte) : string :=
  match bs with
  | [] => EmptyString
  | [a] =>
      let x := Byte.to_nat a in
      String (digit (x / 4)) (String (digit (x mod 4 * 16))
        (String pad (String pad EmptyString)))
  | [a; b] =>
      let x := Byte.to_nat a in
      let y := Byte.to_nat b in
      String (digit (x / 4)) (String (digit (x mod 4 * 16 + y / 16))
        (String (digit (y mod 16 * 4)) (String pad EmptyString)))
  | a :: b :: c :: r =>
      let x := Byte.to_nat a in
      let y := Byte.to_nat b in
      let z := Byte.to_nat c in
      String (digit (x / 4)) (String (digit (x mod 4 * 16 + y / 16))
        (String (digit (y mod 16 * 4 + z / 64)) (String (digit (z mod 64))
          (encode r))))
  end.

Definition is_pad (c : ascii) : bool := Ascii.eqb c pad.

Fixpoint decode (s : string) : option (list byte) :=
  match s with
  | EmptyString => Some []
  | String c0 (String c1 (String c2 (String c3 r))) =>
      s0 ← value c0; s1 ← value c1;
      b0 ← Byte.of_nat (s0 * 4 + s1 / 16);
      if is_pad c3 then
        match r with
        | EmptyString =>
            if is_pad c2 then Some [b0]
            else s2 ← value c2;
                 b1 ← Byte.of_nat (s1 mod 16 * 16 + s2 / 4);
                 Some [b0; b1]
        | _ => None
        end
      else
        s2 ← value c2; s3 ← value c3;
        b1 ← Byte.of_nat (s1 mod 16 * 16 + s2 / 4);
        b2 ← Byte.of_nat (s2 mod 4 * 64 + s3);
        rest ← decode r;
        Some (b0 :: b1 :: b2 :: rest)
  | _ => None
  end.

End Base64.

(** ** What the collaborators hand to the code *)

(** An element of the document that [cheerio.load] returns: its tag, its
    attributes and what [$(el).html()] gives. *)
Record Element := {
  el_tag : string;
  el_attrs : list (string * string);
  el_html : option string
}.

(** [$(el).attr(name)] *)
Definition attr (name : string) (el : Element) : option string :=
  snd <$> find (fun a => String.eqb (fst a) name) (el_attrs el).

Definition is_tag (t : string) (el : Element) : bool := String.eqb (el_tag el) t.

(** the selector [[name]] *)
Definition has_attr (name : string) (el : Element) : bool :=
  match attr name el with Some _ => true | None => false end.

(** the selector [[name="v"]] *)
Definition attr_is (name v : string) (el : Element) : bool :=
  match attr name el with Some x => String.eqb x v | None => false end.

(** the selector [[name="v"]] for an attribute whose values HTML compares
    without regard to case, as the selector engine of [cheerio] does for
    [rel] *)
Definition attr_is_nocase (name v : string) (el : Element) : bool :=
  match attr name el with
  | Some x => String.eqb (Js.toLowerCase x) (Js.toLowerCase v)
  | None => false
  end.

(** The fields of a [URL] object that the code reads. *)
Record URLRecord := { href : string; pathname : string }.

(** A response of [axios] with data of type [D]. *)
Record Response (D : Type) := {
  status : nat;
  headers : list (string * string);
  data : D
}.
Arguments status {D} r.
Arguments headers {D} r.
Arguments data {D} r.

(** [response.headers[name]] *)
Definition header {D} (name : string) (r : Response D) : option string :=
  snd <$> find (fun h => String.eqb (fst h) name) (headers r).

(** The promise of [axios.get] settles: it resolves with a response, or it
    rejects (network error, timeout, status outside 2xx, response over the
    size limit). *)
Inductive Outcome (D : Type) := Resolved (r : Response D) | Rejected (e : JsValue).
Arguments Resolved {D} r.
Arguments Rejected {D} e.

(** the data of a response read with [responseType: 'text'] *)
Inductive TextData := DString (s : string) | DBuffer (b : list byte).

(** JSON values; numbers are integers here. *)
#[local] Unset Elimination Schemes.
Inductive Json :=
| JNull
| JBool (b : bool)
| JNum (n : Z)
| JStr (s : string)
| JArr (l : list Json)
| JObj (l : list (string * Json)).
#[local] Set Elimination Schemes.

(** [typeof j === 'string'] *)
Definition is_text (j : Json) : bool :=
  match j with JStr _ => true | _ => false end.

(** a JSON value used as a condition *)
Definition json_truthy (j : Json) : bool :=
  match j with
  | JNull => false
  | JBool b => b
  | JNum n => negb (n =? 0)%Z
  | JStr s => negb (String.eqb s EmptyString)
  | _ => true
  end.

(** An asset whose request has left: what the code has computed from its
    URL before it waits for the response. *)
Record Pending := {
  p_url : string;
  p_fileName : string;
  p_fileType : FileType;
  p_isBinary : bool
}.

(** the decimal digits of a number, as a template literal prints it *)
Fixpoint show_nat_aux (fuel n : nat) (acc : string) : string :=
  match fuel with
  | 0 => acc
  | S f =>
      let acc' := String (ascii_of_nat (48 + n mod 10)) acc in
      if n <? 10 then acc' else show_nat_aux f (n / 10) acc'
  end.

Definition show_nat (n : nat) : string := show_nat_aux (S n) n EmptyString.

(** [assets.add(u)] on a [Set], which keeps the order of insertion *)
Definition set_add (u : string) (assets : list string) : list string :=
  if existsb (String.eqb u) assets then assets else assets ++ [u].

(** [array.slice(0, n)], [array.slice(n)] and the batches of the loop
    [for (i = 0; i < array.length; i += n) array.slice(i, i + n)] *)
Fixpoint slices {A} (fuel n : nat) (l : list A) : list (list A) :=
  match fuel with
  | 0 => []
  | S f =>
      match l with
      | [] => []
      | _ => take n l :: slices f n (drop n l)
      end
  end.

Definition batches {A} (n : nat) (l : list A) : list (list A) := slices (length l) n l.

(** ** The regular expressions of [routes.ts]

    In the comments [Q] stands for the class of the two quote characters,
    the single and the double one, and [~Q] for its complement. *)

Module Re.
Import Regex.

Definition not_quote_paren : ascii -> bool := none_of (String "'" (String "034" (String ")" EmptyString))).
Definition not_quote : ascii -> bool := none_of (String "'" (String "034" EmptyString)).

(** [Q?([^Q)]+)Q?\)] with the group numbered [n] *)
Definition url_tail (n : nat) : t :=
  Seq (Opt (Cls quote)) (Seq (Group n (Plus not_quote_paren)) (Seq (Opt (Cls quote)) (Lit ")"))).

(** [Q(~Q+)Q] with the group numbered [n] *)
Definition quoted (n : nat) : t :=
  Seq (Cls quote) (Seq (Group n (Plus not_quote)) (Cls quote)).

(** [/url\(Q?([^Q)]+)Q?\)/] *)
Definition css_url : t := Seq (Lit "url(") (url_tail 1).

(** [/@import\s+url\(Q?([^Q)]+)Q?\)|@import\s+Q(~Q+)Q/] *)
Definition css_import : t :=
  Alt (Seq (Lit "@import") (Seq (Plus Js.is_space) (Seq (Lit "url(") (url_tail 1))))
      (Seq (Lit "@import") (Seq (Plus Js.is_space) (quoted 2))).

(** [/@import\s+(?:url\(Q?([^Q)]+)Q?\)|Q(~Q+)Q)/] *)
Definition css_import_path : t :=
  Seq (Lit "@import") (Seq (Plus Js.is_space)
    (Alt (Seq (Lit "url(") (url_tail 1)) (quoted 2))).

(** the alternatives [import\(Q(~Q+)Q], [require\(Q(~Q+)Q] and
    [__webpack_require__\.e\(\d+\)\.then\(] followed by any run without
    a closing parenthesis, then
    [__webpack_require__\.bind\([^,]+,\s*Q(~Q+)Q] *)
Definition dynamic_import : t :=
  Alt (Seq (Lit "import(") (quoted 1))
    (Alt (Seq (Lit "require(") (quoted 2))
      (Seq (Lit "__webpack_require__.e(") (Seq (Plus digit) (Seq (Lit ").then(")
        (Seq (Star (none_of ")")) (Seq (Lit "__webpack_require__.bind(")
          (Seq (Plus (none_of ",")) (Seq (Lit ",") (Seq (Star Js.is_space) (quoted 3)))))))))).

(** [/.*Q(~Q+)Q.*/] *)
Definition last_quoted : t := Seq (Star dot) (Seq (quoted 1) (Star dot)).

(** [Q(G)Q] where [G] is one of [\/api\/] then a run of [~Q], [https?:\/\/]
    then a run of [~Q], [\/api\/] and a run of [~Q], [\/graphql], and
    [\/v\d+\/] then a run of [~Q] *)
Definition api_literal : t :=
  Seq (Cls quote)
    (Seq (Group 1
      (Alt (Seq (Lit "/api/") (Star not_quote))
        (Alt (Seq (Lit "http") (Seq (Opt (Lit "s")) (Seq (Lit "://")
               (Seq (Star not_quote) (Seq (Lit "/api/") (Star not_quote))))))
          (Alt (Lit "/graphql")
               (Seq (Lit "/v") (Seq (Plus digit) (Seq (Lit "/") (Star not_quote))))))))
      (Cls quote)).

(** [s.replace(/Q/g, '')] *)
Fixpoint strip_quotes (s : string) : string :=
  match s with
  | EmptyString => EmptyString
  | String c r => if quote c then strip_quotes r else String c (strip_quotes r)
  end.

(** the template ['$1$2'] *)
Definition groups12 (c : Caps) : string := cap 1 c +:+ cap 2 c.

End Re.

(** ** The collaborators

    Everything that the pipeline calls and that is not code of the
    repository.  [URL_new input base] is [new URL(input, base)], [None] when
    the constructor throws.  The four [axios_get] give the outcome of a GET
    of a URL for the four requests of the code: the root page and the probe
    of an API, which are read without a [responseType], so that [axios]
    gives the body as a string unless the body parses as JSON, and the
    parsed value then; the binary assets, and every asset of the
    standalone server, with [responseType: 'arraybuffer']; and the other
    assets with [responseType: 'text'].
    [cheerio_load s] is the document that [cheerio.load] makes of a string,
    and [cheerio_load_value j] what it does with data [j] that is not a
    string: it returns a document, or it throws, at once or at the first
    selection, before which the code does nothing else.
    [byteLength_error j] is what [Buffer.byteLength(j, 'utf8')] throws for
    such data.  [randomUUID n] is the result of the [n]th call.
    [Date_now] is [new Date().toISOString()].  [schedule] gives the order
    in which the requests of one batch settle.  [JSON_stringify v indent] is
    [JSON.stringify(v, null, indent)], and [utf8_decode b] is
    [b.toString('utf8')] for a [Buffer] [b]. *)

Class Runtime := {
  URL_new : string -> option string -> option URLRecord;
  cheerio_load : string -> list Element;
  cheerio_load_value : Json -> Res (list Element);
  byteLength_error : Json -> JsValue;
  axios_get_page : string -> Outcome Json;
  axios_get_arraybuffer : string -> Outcome (list byte);
  axios_get_text : string -> Outcome TextData;
  axios_get_json : string -> Outcome Json;
  randomUUID : nat -> string;
  Date_now : string;
  schedule : list Pending -> list Pending;
  JSON_stringify : Json -> nat -> string;
  utf8_decode : list byte -> string
}.

(** [cheerio.load(content)] for the data of the root response *)
Definition load `{Runtime} (content : Json) : Res (list Element) :=
  match content with
  | JStr s => Val (cheerio_load s)
  | _ => cheerio_load_value content
  end.

(** The data of the root response can be read: [cheerio.load] makes the
    document [doc] of it, and it is a string when the source page is
    stored, as [Buffer.byteLength] asks. *)
Definition readable `{Runtime} (includeSourcePage : bool) (content : Json)
    (doc : list Element) : Prop :=
  load content = Val doc /\ (includeSourcePage = true -> is_text content = true).

(** ** The pipeline of [routes.ts] *)

Section Routes.
Context `{Runtime}.

#[local] Abbreviation M := (@M ExtractionResult).

Definition createExtractionResult (url : string) : M ExtractionResult :=
  n <- next_uuid ;;
  let id := randomUUID n in
  let result :=
    {| res_id := id; res_url := url; res_status := pending; res_files := [];
       res_totalSize := 0; res_totalFiles := 0; res_extractedAt := Date_now;
       res_error := None |} in
  store <- get_store ;;
  set_store (<[id := result]> store) ;;;
  ret result.

(** [randomUUID()] *)
Definition fresh_uuid : M string := n <- next_uuid ;; ret (randomUUID n).

Definition resolveUrl (base relative : string) : string :=
  match URL_new relative (Some base) with
  | Some u => href u
  | None => relative
  end.

(** [$(selector).each(...)] with a body of the shape
    [const v = pick(el); if (v) assets.add(resolveUrl(url, v))] *)
Definition collect (url : string) (selector : Element -> bool)
    (pick : Element -> option string) (doc : list Element)
    (assets : list string) : list string :=
  fold_left
    (fun assets el =>
       match pick el with
       | Some v => if Js.truthy (Some v) then set_add (resolveUrl url v) assets else assets
       | None => assets
       end)
    (filter (fun el => selector el = true) doc) assets.

(** the condition on [rel] and [href] of the links that are kept *)
Definition wanted_link (el : Element) : option string :=
  match attr "href" el with
  | Some h =>
      if Js.truthy (Some h) &&
         (existsb (fun r => attr_is "rel" r el)
            ["icon"; "shortcut icon"; "apple-touch-icon"; "manifest"; "preload"; "prefetch"]
          || Js.includes ".woff" h || Js.includes ".ttf" h || Js.includes ".eot" h)
      then Some h else None
  | None => None
  end.

(** [$(el).attr('src') || $(el).attr('data')] *)
Definition src_or_data (el : Element) : option string :=
  if Js.truthy (attr "src" el) then attr "src" el else attr "data" el.

Definition media_selector (el : Element) : bool :=
  (is_tag "source" el && has_attr "src" el) || (is_tag "video" el && has_attr "src" el)
  || (is_tag "audio" el && has_attr "src" el) || (is_tag "embed" el && has_attr "src" el)
  || (is_tag "object" el && has_attr "data" el) || (is_tag "iframe" el && has_attr "src" el).

Definition inlineScriptFile (fileName id scriptContent : string) : ExtractedFile :=
  {| file_id := id; file_name := fileName; file_path := "js/" +:+ fileName;
     file_type := js; file_size := Js.byteLength scriptContent;
     file_content := scriptContent; file_mimeType := "application/javascript" |}.

Definition inlineStyleFile (fileName id styleContent : string) : ExtractedFile :=
  {| file_id := id; file_name := fileName; file_path := "css/" +:+ fileName;
     file_type := css; file_size := Js.byteLength styleContent;
     file_content := styleContent; file_mimeType := "text/css" |}.

Definition sourcePageFile (id content : string) : ExtractedFile :=
  {| file_id := id; file_name := "index.html"; file_path := "index.html";
     file_type := html; file_size := Js.byteLength content;
     file_content := content; file_mimeType := "text/html" |}.

(** the targets of the dynamic imports of an inline script *)
Definition dynamic_imports (url scriptContent : string) (assets : list string) : list string :=
  fold_left
    (fun assets m =>
       let importPath := Regex.replace Re.last_quoted (Regex.cap 1) m in
       if Js.truthy (Some importPath) && negb (Js.startsWith "data:" importPath)
       then set_add (resolveUrl url importPath) assets else assets)
    (Regex.match_all Re.dynamic_import scriptContent 0) assets.

(** the body of [$('script:not([src])').each] *)
Definition inline_script (extractionId url : string) (assets : list string)
    (el : Element) : M (list string) :=
  match el_html el with
  | Some scriptContent =>
      if Js.truthy (Some scriptContent) && Js.trim_truthy scriptContent then
        u <- fresh_uuid ;;
        let fileName := "inline-script-" +:+ Js.substring0 8 u +:+ ".js" in
        id <- fresh_uuid ;;
        not_awaited (addFileToExtraction extractionId (inlineScriptFile fileName id scriptContent)) ;;;
        ret (dynamic_imports url scriptContent assets)
      else ret assets
  | None => ret assets
  end.

(** the body of [$('style').each] *)
Definition inline_style (extractionId : string) (el : Element) : M unit :=
  match el_html el with
  | Some styleContent =>
      if Js.truthy (Some styleContent) && Js.trim_truthy styleContent then
        u <- fresh_uuid ;;
        let fileName := "inline-style-" +:+ Js.substring0 8 u +:+ ".css" in
        id <- fresh_uuid ;;
        not_awaited (addFileToExtraction extractionId (inlineStyleFile fileName id styleContent))
      else ret tt
  | None => ret tt
  end.

(** the [url(...)] references of the [style] attributes *)
Definition style_urls (url : string) (doc : list Element) (assets : list string) : list string :=
  fold_left
    (fun assets el =>
       match attr "style" el with
       | Some style =>
           if Js.truthy (Some style) then
             fold_left
               (fun assets m => set_add (resolveUrl url (Regex.replace Re.css_url (Regex.cap 1) m)) assets)
               (Regex.match_all Re.css_url style 0) assets
           else assets
       | None => assets
       end)
    doc assets.

(** the stored form of a response read as raw bytes *)
Definition binary_content (fileName : string) (response : Response (list byte)) : string :=
  "data:" +:+ Js.or_else (header "content-type" response) (getMimeType fileName)
  +:+ ";base64," +:+ Base64.encode (data response).

(** [typeof data === 'string' ? data : Buffer.from(data).toString('utf8')] *)
Definition text_content (d : TextData) : string :=
  match d with
  | DString s => s
  | DBuffer b => utf8_decode b
  end.

Definition assetFile (p : Pending) (id content : string) (size : nat)
    (contentType : option string) : ExtractedFile :=
  {| file_id := id; file_name := p_fileName p;
     file_path := getFolderPath (p_fileType p) +:+ "/" +:+ p_fileName p;
     file_type := p_fileType p; file_size := size; file_content := content;
     file_mimeType := Js.or_else contentType (getMimeType (p_fileName p)) |}.

(** The request of a pending asset settles: the content to store, its
    [size] and the declared content type, or the rejection. *)
Definition settle (p : Pending) : Res (string * nat * option string) :=
  if p_isBinary p then
    match axios_get_arraybuffer (p_url p) with
    | Resolved response =>
        Val (binary_content (p_fileName p) response, length (data response),
             header "content-type" response)
    | Rejected e => Throw e
    end
  else
    match axios_get_text (p_url p) with
    | Resolved response =>
        let content := text_content (data response) in
        Val (content, Js.byteLength content, header "content-type" response)
    | Rejected e => Throw e
    end.

(** the [@import] targets and the [url(...)] references of a stylesheet,
    added to the set *)
Definition css_references (assetUrl cssContent : string) (assets : list string) : list string :=
  let keep (path : string) (assets : list string) :=
    if Js.truthy (Some path) && negb (Js.startsWith "data:" path)
    then set_add (resolveUrl assetUrl path) assets else assets in
  let assets :=
    fold_left (fun assets m => keep (Regex.replace Re.css_import_path Re.groups12 m) assets)
      (Regex.match_all Re.css_import cssContent 0) assets in
  fold_left (fun assets m => keep (Regex.replace Re.css_url (Regex.cap 1) m) assets)
    (Regex.match_all Re.css_url cssContent 0) assets.

Definition is_css (t : FileType) : bool := match t with css => true | _ => false end.

Definition failed_to_download (assetUrl : string) : string :=
  "Failed to download asset " +:+ assetUrl +:+ ":".

(** The callback of [batch.map] up to its [await axios.get]: the guards,
    the name of the file, and the request. *)
Definition prepare (assetUrl : string) : M (option Pending) :=
  try_catch
    (if negb (Js.truthy (Some assetUrl)) || (2000 <? Js.utf16_length assetUrl) then ret None
     else
       match URL_new assetUrl None with
       | None => throw (JsError "Invalid URL")
       | Some urlObj =>
           let fileName := Js.or_else (Some (Js.split_pop "/" (pathname urlObj))) "file" in
           let cleanFileName := Js.split_head "?" fileName in
           fileName <- (if String.eqb cleanFileName EmptyString
                        then u <- fresh_uuid ;; ret ("asset-" +:+ Js.substring0 8 u)
                        else ret cleanFileName) ;;
           if Js.startsWith "data:" assetUrl || (1000 <? Js.utf16_length assetUrl) then ret None
           else
             note_request assetUrl ;;;
             ret (Some {| p_url := assetUrl; p_fileName := fileName;
                          p_fileType := getFileType fileName;
                          p_isBinary := isBinary fileName |})
       end)
    (fun error => console_error (failed_to_download assetUrl) error ;;; ret None).

(** The callback of [batch.map] from the moment its request settles: the
    file, and the references of a stylesheet, which go to the set. *)
Definition complete (extractionId : string) (assets : list string) (p : Pending)
    : M (list string) :=
  try_catch
    (match settle p with
     | Throw e => throw e
     | Val (content, size, contentType) =>
         id <- fresh_uuid ;;
         addFileToExtraction extractionId (assetFile p id content size contentType) ;;;
         if is_css (p_fileType p) && negb (p_isBinary p) && negb (Js.startsWith "data:" content)
         then ret (css_references (p_url p) content assets)
         else ret assets
     end)
    (fun error => console_error (failed_to_download (p_url p)) error ;;; ret assets).

(** [await Promise.allSettled(batch.map(async (assetUrl) => ...))]: every
    callback runs to its request in the order of the batch, then the
    callbacks resume in the order in which the requests settle. *)
Definition run_batch (extractionId : string) (assets : list string) (batch : list string)
    : M (list string) :=
  pendings <- fold_each batch []
                (fun acc assetUrl => p <- prepare assetUrl ;; ret (acc ++ option_list p)) ;;
  fold_each (schedule pendings) assets (complete extractionId).

(** The loop over the batches.  [assetArray] is [Array.from(assets)],
    taken before the loop; the loop returns the set as the stylesheets
    have extended it. *)
Definition process_assets (extractionId : string) (assets : list string) : M (list string) :=
  let assetArray := assets in
  let batchSize := 10 in
  fold_each (batches batchSize assetArray) assets (run_batch extractionId).

(** the URLs that the probe tries: the API-looking literals of the
    scripts, then four common endpoints *)
Definition potentialApiUrls (url : string) (doc : list Element) : list string :=
  let found :=
    fold_left
      (fun acc el =>
         let scriptContent := Js.or_else (el_html el) EmptyString in
         fold_left (fun acc m => set_add (resolveUrl url (Re.strip_quotes m)) acc)
           (Regex.match_all Re.api_literal scriptContent 0) acc)
      (filter (fun el => is_tag "script" el = true) doc) [] in
  let commonEndpoints := ["/api/status"; "/api/health"; "/api/version"; "/graphql"] in
  fold_left (fun acc endpoint => set_add (resolveUrl url endpoint) acc) commonEndpoints found.

Definition headers_json (h : list (string * string)) : Json :=
  JObj (map (fun e => (fst e, JStr (snd e))) h).

Definition payloadFile (fileName id apiUrl : string) (apiResponse : Response Json)
    : ExtractedFile :=
  {| file_id := id; file_name := fileName; file_path := "payloads/" +:+ fileName;
     file_type := payload;
     file_size := Js.byteLength (JSON_stringify (data apiResponse) 0);
     file_content :=
       JSON_stringify
         (JObj [("url", JStr apiUrl);
                ("status", JNum (Z.of_nat (status apiResponse)));
                ("headers", headers_json (headers apiResponse));
                ("data", data apiResponse)]) 2;
     file_mimeType := "application/json" |}.

Definition could_not_fetch (apiUrl : string) : string :=
  "Could not fetch API endpoint " +:+ apiUrl.

(** One turn of the loop of the probe; it returns [payloadCount].  The
    count is incremented before the call that stores the file, so a throw
    of that call leaves it incremented. *)
Definition probe (extractionId : string) (payloadCount : nat) (apiUrl : string) : M nat :=
  note_request apiUrl ;;;
  match axios_get_json apiUrl with
  | Rejected _ => console_log (could_not_fetch apiUrl) ;;; ret payloadCount
  | Resolved apiResponse =>
      if json_truthy (data apiResponse) &&
         match header "content-type" apiResponse with
         | Some ct => Js.includes "json" ct
         | None => false
         end
      then
        let payloadCount := S payloadCount in
        let fileName := "api-response-" +:+ show_nat payloadCount +:+ ".json" in
        try_catch
          (id <- fresh_uuid ;;
           addFileToExtraction extractionId (payloadFile fileName id apiUrl apiResponse) ;;;
           ret payloadCount)
          (fun _ => console_log (could_not_fetch apiUrl) ;;; ret payloadCount)
      else ret payloadCount
  end.

Definition probe_payloads (extractionId url : string) (doc : list Element) : M unit :=
  fold_each (take 5 (potentialApiUrls url doc)) 0 (probe extractionId) ;;; ret tt.

(** [if (includeSourcePage) { ... }]: the object of the source page
    evaluates [randomUUID()] before [Buffer.byteLength(content, 'utf8')],
    which throws when [content] is not a string. *)
Definition add_source_page (extractionId : string) (includeSourcePage : bool)
    (content : Json) : M unit :=
  if includeSourcePage
  then id <- fresh_uuid ;;
       match content with
       | JStr content => addFileToExtraction extractionId (sourcePageFile id content)
       | _ => throw (byteLength_error content)
       end
  else ret tt.

(** The body of the [try] of [extractWebsiteFiles] from the moment the
    root page is there to the last stage before the status is set.
    [content] is [mainResponse.data]. *)
Definition scan_and_fetch (extractionId url : string)
    (includePayloads includeSourcePage : bool) (content : Json) : M unit :=
  let assets := [] in
  doc <- lift (load content) ;;
  let assets :=
    collect url (fun el => is_tag "link" el && attr_is_nocase "rel" "stylesheet" el)
      (attr "href") doc assets in
  let assets :=
    collect url (fun el => is_tag "script" el && has_attr "src" el) (attr "src") doc assets in
  let assets :=
    collect url (fun el => is_tag "img" el && has_attr "src" el) (attr "src") doc assets in
  let assets :=
    collect url (fun el => is_tag "link" el && has_attr "href" el) wanted_link doc assets in
  assets <- fold_each
              (filter (fun el => is_tag "script" el && negb (has_attr "src" el) = true) doc)
              assets (inline_script extractionId url) ;;
  for_each (filter (fun el => is_tag "style" el = true) doc) (inline_style extractionId) ;;;
  let assets := collect url media_selector src_or_data doc assets in
  let assets := style_urls url doc assets in
  add_source_page extractionId includeSourcePage content ;;;
  process_assets extractionId assets ;;;
  (if includePayloads then probe_payloads extractionId url doc else ret tt).

Definition extractWebsiteFiles (extractionId url : string)
    (includePayloads includeSourcePage : bool) : M unit :=
  updateExtractionResult extractionId (status_update processing) ;;;
  try_catch
    (note_request url ;;;
     match axios_get_page url with
     | Rejected e => throw e
     | Resolved mainResponse =>
         scan_and_fetch extractionId url includePayloads includeSourcePage
           (data mainResponse) ;;;
         updateExtractionResult extractionId (status_update completed) ;;;
         ret tt
     end)
    (fun error => throw error).

(** The handler of [POST /api/extract] once the request is parsed.  The
    [async] function is modelled to its end, the response of the handler
    is the record as [createExtractionResult] returned it. *)
Definition startExtraction (url : string) (includePayloads includeSourcePage : bool)
    : M ExtractionResult :=
  extraction <- createExtractionResult url ;;
  try_catch
    (extractWebsiteFiles (res_id extraction) url includePayloads includeSourcePage)
    (fun error =>
       console_error "Extraction failed:" error ;;;
       not_awaited (updateExtractionResult (res_id extraction)
                      (failed_update (error_message error)))) ;;;
  ret extraction.
End Routes.

(** ** The standalone server

    The second implementation of the pipeline, in plain JavaScript: its own
    map of extractions, whose objects the pipeline writes in place, its own
    resolver and classifier.  A stored asset keeps the buffer of the
    response. *)

Module Server.

Inductive Content := Text (s : string) | Buf (b : list byte).

(** The type of a looked up MIME type: a string of the table, or a member
    that the table inherits from [Object.prototype]. *)
Inductive Mime := MimeString (s : string) | Inherited (property : string).

Record File := {
  file_id : string;
  file_name : string;
  file_path : string;
  file_type : string;
  file_size : nat;
  file_content : Content;
  file_mimeType : Mime
}.

Record Extraction := {
  ext_id : string;
  ext_url : string;
  ext_status : Status;
  ext_files : list File;
  ext_totalSize : nat;
  ext_totalFiles : nat;
  ext_extractedAt : string;
  ext_error : option string
}.

Definition totals_ok (e : Extraction) : Prop :=
  ext_totalFiles e = length (ext_files e) /\
  ext_totalSize e = list_sum (map file_size (ext_files e)).

(** [extraction.status = s] *)
Definition with_status (s : Status) (e : Extraction) : Extraction :=
  {| ext_id := ext_id e; ext_url := ext_url e; ext_status := s; ext_files := ext_files e;
     ext_totalSize := ext_totalSize e; ext_totalFiles := ext_totalFiles e;
     ext_extractedAt := ext_extractedAt e; ext_error := ext_error e |}.

(** [extraction.error = msg] *)
Definition with_error (msg : string) (e : Extraction) : Extraction :=
  {| ext_id := ext_id e; ext_url := ext_url e; ext_status := ext_status e;
     ext_files := ext_files e; ext_totalSize := ext_totalSize e;
     ext_totalFiles := ext_totalFiles e; ext_extractedAt := ext_extractedAt e;
     ext_error := Some msg |}.

(** [extraction.files.push(file)] *)
Definition push (file : File) (e : Extraction) : Extraction :=
  {| ext_id := ext_id e; ext_url := ext_url e; ext_status := ext_status e;
     ext_files := ext_files e ++ [file]; ext_totalSize := ext_totalSize e;
     ext_totalFiles := ext_totalFiles e; ext_extractedAt := ext_extractedAt e;
     ext_error := ext_error e |}.

(** [extraction.totalFiles = extraction.files.length] *)
Definition count_files (e : Extraction) : Extraction :=
  {| ext_id := ext_id e; ext_url := ext_url e; ext_status := ext_status e;
     ext_files := ext_files e; ext_totalSize := ext_totalSize e;
     ext_totalFiles := length (ext_files e); ext_extractedAt := ext_extractedAt e;
     ext_error := ext_error e |}.

(** [extraction.totalSize = extraction.files.reduce((total, file) => total + file.size, 0)] *)
Definition sum_files (e : Extraction) : Extraction :=
  {| ext_id := ext_id e; ext_url := ext_url e; ext_status := ext_status e;
     ext_files := ext_files e;
     ext_totalSize := fold_left (fun total file => total + file_size file) (ext_files e) 0;
     ext_totalFiles := ext_totalFiles e; ext_extractedAt := ext_extractedAt e;
     ext_error := ext_error e |}.

Section Pipeline.
Context `{Runtime}.

#[local] Abbreviation M := (@M Extraction).

(** a write to the object that the map holds under [id] *)
Definition write (id : string) (f : Extraction -> Extraction) : M unit :=
  store <- get_store ;;
  match store !! id with
  | Some e => set_store (<[id := f e]> store)
  | None => ret tt
  end.

Definition fresh_uuid : M string := n <- next_uuid ;; ret (randomUUID n).

(** [null] is [None] *)
Definition resolveUrl (base relative : string) : option string :=
  match URL_new relative (Some base) with
  | Some u => Some (href u)
  | None => None
  end.

Definition getFileExtension (url : string) : string :=
  match URL_new url None with
  | Some u => Js.or_else (Some (Js.toLowerCase (Js.split_pop "." (pathname u)))) EmptyString
  | None => EmptyString
  end.

Definition getFileType (url : string) (mimeType : option string) : string :=
  let ext := getFileExtension url in
  let by_extension :=
    if case_of ext ["html"; "htm"] then "html"
    else if case_of ext ["css"] then "css"
    else if case_of ext ["js"; "mjs"; "jsx"; "ts"; "tsx"] then "js"
    else if case_of ext ["png"; "jpg"; "jpeg"; "gif"; "svg"; "webp"; "ico"] then "image"
    else if case_of ext ["woff"; "woff2"; "ttf"; "eot"; "otf"] then "font"
    else if case_of ext ["json"] then "json"
    else if case_of ext ["xml"] then "xml"
    else "other" in
  match mimeType with
  | Some m =>
      if Js.truthy (Some m) then
        if Js.includes "text/html" m then "html"
        else if Js.includes "text/css" m then "css"
        else if Js.includes "javascript" m then "js"
        else if Js.includes "image/" m then "image"
        else if Js.includes "font/" m then "font"
        else by_extension
      else by_extension
  | None => by_extension
  end.

(** [assetType === 'css' ? 'css' : assetType === 'js' ? 'js' : ...] *)
Definition folder_of (assetType : string) : string :=
  if String.eqb assetType "css" then "css"
  else if String.eqb assetType "js" then "js"
  else if String.eqb assetType "image" then "images"
  else if String.eqb assetType "font" then "fonts"
  else "assets".

Definition mimeTypes : list (string * string) :=
  [("html", "text/html"); ("css", "text/css"); ("js", "application/javascript");
   ("json", "application/json"); ("xml", "application/xml"); ("png", "image/png");
   ("jpg", "image/jpeg"); ("jpeg", "image/jpeg"); ("gif", "image/gif");
   ("svg", "image/svg+xml"); ("webp", "image/webp"); ("ico", "image/x-icon");
   ("woff", "font/woff"); ("woff2", "font/woff2"); ("ttf", "font/ttf");
   ("eot", "application/vnd.ms-fontobject"); ("otf", "font/otf")].

(** the members of [Object.prototype], which every object literal has *)
Definition object_prototype : list string :=
  ["constructor"; "__defineGetter__"; "__defineSetter__"; "hasOwnProperty";
   "__lookupGetter__"; "__lookupSetter__"; "isPrototypeOf"; "propertyIsEnumerable";
   "toString"; "valueOf"; "__proto__"; "toLocaleString"].

(** [mimeTypes[key]]; every value of the table and every inherited
    member is truthy *)
Definition lookup_mime (key : string) : option Mime :=
  match find (fun e => String.eqb (fst e) key) mimeTypes with
  | Some e => Some (MimeString (snd e))
  | None => if case_of key object_prototype then Some (Inherited key) else None
  end.

Definition getMimeType (url type : string) : Mime :=
  let ext := getFileExtension url in
  match lookup_mime ext with
  | Some m => m
  | None => match lookup_mime type with
            | Some m => m
            | None => MimeString "application/octet-stream"
            end
  end.

Definition isValidContent (content : Content) (url : string) : bool :=
  let type := getFileType url None in
  match content with
  | Buf _ => true
  | Text s =>
      if negb (Js.truthy (Some s)) then false
      else if String.eqb type "image" || String.eqb type "font"
      then 0 <? Js.utf16_length s
      else (Js.trim_truthy s && negb (Js.includes "<!DOCTYPE html>" s)) || Js.includes ".html" url
  end.

Definition same (a b : option string) : bool :=
  match a, b with
  | Some x, Some y => String.eqb x y
  | None, None => true
  | _, _ => false
  end.

(** [assets.add(u)], where [u] can be [null] *)
Definition add_asset (u : option string) (assets : list (option string))
    : list (option string) :=
  if existsb (same u) assets then assets else assets ++ [u].

Definition collect (url : string) (selector : Element -> bool)
    (pick : Element -> option string) (doc : list Element)
    (assets : list (option string)) : list (option string) :=
  fold_left
    (fun assets el =>
       match pick el with
       | Some v => if Js.truthy (Some v) then add_asset (resolveUrl url v) assets else assets
       | None => assets
       end)
    (filter (fun el => selector el = true) doc) assets.

Definition wanted_link (el : Element) : option string :=
  match attr "href" el with
  | Some h =>
      if Js.truthy (Some h) &&
         (existsb (fun r => attr_is "rel" r el)
            ["icon"; "shortcut icon"; "apple-touch-icon"; "manifest"; "preload"; "prefetch"]
          || Js.includes ".woff" h || Js.includes ".ttf" h || Js.includes ".eot" h)
      then Some h else None
  | None => None
  end.

Definition inlineFile (folder type mime fileName id text : string) : File :=
  {| file_id := id; file_name := fileName; file_path := folder +:+ "/" +:+ fileName;
     file_type := type; file_size := Js.byteLength text; file_content := Text text;
     file_mimeType := MimeString mime |}.

Definition inline_script (extractionId : string) (el : Element) : M unit :=
  match el_html el with
  | Some scriptContent =>
      if Js.truthy (Some scriptContent) && Js.trim_truthy scriptContent then
        u <- fresh_uuid ;;
        let fileName := "inline-script-" +:+ Js.substring0 8 u +:+ ".js" in
        id <- fresh_uuid ;;
        write extractionId
          (push (inlineFile "js" "js" "application/javascript" fileName id scriptContent))
      else ret tt
  | None => ret tt
  end.

Definition inline_style (extractionId : string) (el : Element) : M unit :=
  match el_html el with
  | Some styleContent =>
      if Js.truthy (Some styleContent) && Js.trim_truthy styleContent then
        u <- fresh_uuid ;;
        let fileName := "inline-style-" +:+ Js.substring0 8 u +:+ ".css" in
        id <- fresh_uuid ;;
        write extractionId (push (inlineFile "css" "css" "text/css" fileName id styleContent))
      else ret tt
  | None => ret tt
  end.

Definition sourceFile (id content : string) : File :=
  {| file_id := id; file_name := "index.html"; file_path := "index.html";
     file_type := "html"; file_size := Js.byteLength content; file_content := Text content;
     file_mimeType := MimeString "text/html" |}.

(** [assetContent.length || Buffer.byteLength(assetContent, 'utf8')] *)
Definition size_of (b : list byte) : nat :=
  if length b =? 0 then length b else length b.

Definition assetFile (assetUrl fileName id : string) (assetType : string)
    (b : list byte) : File :=
  {| file_id := id; file_name := fileName;
     file_path := folder_of assetType +:+ "/" +:+ fileName;
     file_type := assetType; file_size := size_of b; file_content := Buf b;
     file_mimeType := getMimeType assetUrl assetType |}.

Definition could_not_fetch (assetUrl : string) : string :=
  "Could not fetch asset: " +:+ assetUrl.

(** the body of the loop over the assets *)
Definition fetch_asset (extractionId assetUrl : string) : M unit :=
  try_catch
    (note_request assetUrl ;;;
     match axios_get_arraybuffer assetUrl with
     | Rejected e => throw e
     | Resolved assetResponse =>
         let contentType := Js.or_else (header "content-type" assetResponse) EmptyString in
         if isValidContent (Buf (data assetResponse)) assetUrl then
           let assetType := getFileType assetUrl (Some contentType) in
           match URL_new assetUrl None with
           | None => throw (JsError "Invalid URL")
           | Some u =>
               let last := Js.split_pop "/" (pathname u) in
               fileName <- (if Js.truthy (Some last) then ret last
                            else r <- fresh_uuid ;; ret ("asset-" +:+ Js.substring0 8 r)) ;;
               id <- fresh_uuid ;;
               write extractionId
                 (push (assetFile assetUrl fileName id assetType (data assetResponse)))
           end
         else ret tt
     end)
    (fun error => console_error (could_not_fetch assetUrl) error).

(** [Array.from(assets).filter(asset => asset && !asset.startsWith('data:'))] *)
Definition validAssets (assets : list (option string)) : list string :=
  omap (fun asset =>
          match asset with
          | Some a => if Js.truthy (Some a) && negb (Js.startsWith "data:" a)
                      then Some a else None
          | None => None
          end) assets.

(** the asset set that the scan of the document builds *)
Definition scan (url : string) (doc : list Element) : list (option string) :=
  let assets := [] in
  let assets :=
    collect url (fun el => is_tag "link" el && attr_is_nocase "rel" "stylesheet" el)
      (attr "href") doc assets in
  let assets :=
    collect url (fun el => is_tag "script" el && has_attr "src" el) (attr "src") doc assets in
  let assets :=
    collect url (fun el => is_tag "img" el && has_attr "src" el) (attr "src") doc assets in
  collect url (fun el => is_tag "link" el && has_attr "href" el) wanted_link doc assets.

(** [if (includeSourcePage) { ... }], where [Buffer.byteLength] throws for
    a [content] that is not a string, after [randomUUID()] *)
Definition add_source_page (extractionId : string) (includeSourcePage : bool)
    (content : Json) : M unit :=
  if includeSourcePage
  then id <- fresh_uuid ;;
       match content with
       | JStr content => write extractionId (push (sourceFile id content))
       | _ => throw (byteLength_error content)
       end
  else ret tt.

(** The body of the [try] of [extractWebsiteFiles] from the moment the
    root page is there to the last stage before the status is set.
    [content] is [mainResponse.data]. *)
Definition scan_and_fetch (extractionId url : string)
    (includePayloads includeSourcePage : bool) (content : Json) : M unit :=
  doc <- lift (load content) ;;
  let assets := scan url doc in
  for_each
    (filter (fun el => is_tag "script" el && negb (has_attr "src" el) = true) doc)
    (inline_script extractionId) ;;;
  for_each (filter (fun el => is_tag "style" el = true) doc)
    (inline_style extractionId) ;;;
  add_source_page extractionId includeSourcePage content ;;;
  (if includePayloads
   then for_each (validAssets assets) (fetch_asset extractionId)
   else ret tt).

Definition extractWebsiteFiles (extractionId url : string)
    (includePayloads includeSourcePage : bool) : M unit :=
  store <- get_store ;;
  match store !! extractionId with
  | None => ret tt
  | Some _ =>
      write extractionId (with_status processing) ;;;
      try_catch
        (note_request url ;;;
         match axios_get_page url with
         | Rejected e => throw e
         | Resolved mainResponse =>
             scan_and_fetch extractionId url includePayloads includeSourcePage
               (data mainResponse) ;;;
             write extractionId (with_status completed) ;;;
             write extractionId count_files ;;;
             write extractionId sum_files
         end)
        (fun error =>
           console_error "Extraction failed:" error ;;;
           write extractionId (with_status failed) ;;;
           write extractionId (with_error (error_message error)))
  end.

(** The handler of [POST /api/extract] for a request with a URL.  The
    [async] function is modelled to its end.  The response of the handler
    is the object of the map as it is when the handler reaches [res.json]:
    [extractWebsiteFiles] has then run to its first [await], and has set
    the status of that object. *)
Definition startExtraction (url : string) (includePayloads includeSourcePage : bool)
    : M Extraction :=
  n <- next_uuid ;;
  let extraction :=
    {| ext_id := randomUUID n; ext_url := url; ext_status := pending; ext_files := [];
       ext_totalSize := 0; ext_totalFiles := 0; ext_extractedAt := Date_now;
       ext_error := None |} in
  store <- get_store ;;
  set_store (<[ext_id extraction := extraction]> store) ;;;
  try_catch
    (extractWebsiteFiles (ext_id extraction) url includePayloads includeSourcePage)
    (fun error =>
       console_error "Extraction failed:" error ;;;
       write (ext_id extraction) (with_status failed) ;;;
       write (ext_id extraction) (with_error (error_message error))) ;;;
  ret (with_status processing extraction).
End Pipeline.
End Server.

(** ** The file tree of the page ([home.tsx], component [FileTree])

    The members of [Object.prototype] are those that [Server.object_prototype]
    lists. *)

Module Ui.

(** [toggleFolder]: the set that it gives to [setExpandedFolders] *)
Definition toggleFolder (expandedFolders : gset string) (folder : string) : gset string :=
  let newExpanded := expandedFolders in
  if decide (folder ∈ newExpanded) then newExpanded ∖ {[folder]} else newExpanded ∪ {[folder]}.

(** [file.path.includes('/') ? file.path.split('/')[0] : 'root'] *)
Definition folderPath (path : string) : string :=
  if Js.includes "/" path then Js.split_head "/" path else "root".

(** One turn of the [reduce] that groups the files.  [acc] holds the own
    properties of the accumulator.  Under a key that it does not own and
    that names a member of [Object.prototype], the accumulator answers with
    that member, which has no [push]. *)
Definition group (acc : gmap string (list ExtractedFile)) (file : ExtractedFile)
    : Res (gmap string (list ExtractedFile)) :=
  let folderPath := folderPath (file_path file) in
  match acc !! folderPath with
  | Some files => Val (<[folderPath := files ++ [file]]> acc)
  | None =>
      if case_of folderPath Server.object_prototype
      then Throw (JsError "acc[folderPath].push is not a function")
      else Val (<[folderPath := [file]]> acc)
  end.

Fixpoint reduce (acc : gmap string (list ExtractedFile)) (files : list ExtractedFile)
    : Res (gmap string (list ExtractedFile)) :=
  match files with
  | [] => Val acc
  | file :: rest =>
      match group acc file with
      | Val acc' => reduce acc' rest
      | Throw e => Throw e
      end
  end.

(** [filesByFolder]; the order of its entries is not represented *)
Definition filesByFolder (files : list ExtractedFile)
    : Res (gmap string (list ExtractedFile)) :=
  reduce ∅ files.

End Ui.

(** ** The routes that read the store ([routes.ts])

    What a handler answers: the status code, the headers that it has set
    with [res.setHeader], and the body that it has given to [res.json] or
    to [res.send]. *)

Inductive Body :=
| BRecord (extraction : ExtractionResult)
| BMessage (message : string)
| BText (content : string)
| BBuffer (bytes : list byte).

Record Reply := {
  rp_status : nat;
  rp_headers : list (string * string);
  rp_body : Body
}.

(** The collaborators of these routes.  [hostname u] is
    [new URL(u).hostname], [None] when the constructor throws.
    [header_value_ok] tells the values that [res.setHeader] accepts.
    [generateAsync entries] is the outcome of [zip.generateAsync] after the
    calls [zip.file(path, content)] for the [entries], in their order. *)
Class Express := {
  hostname : string -> option string;
  header_value_ok : string -> bool;
  generateAsync : list (string * string) -> Res (list byte)
}.

Section Handlers.
Context {express : Express}.

#[local] Abbreviation M := (@M ExtractionResult).

(** [res.status(code).json(body)], and [res.json(body)] for the code 200 *)
Definition reply (code : nat) (body : Body) : Reply :=
  {| rp_status := code; rp_headers := []; rp_body := body |}.

Definition double_quote : string := String "034" EmptyString.

(** [res.setHeader(name, value)] on a response with the headers
    [headers], none of which has this name *)
Definition setHeader (name value : string) (headers : list (string * string))
    : M (list (string * string)) :=
  if header_value_ok value then ret (headers ++ [(name, value)])
  else throw (JsError ("Invalid character in header content [" +:+ double_quote +:+ name
                       +:+ double_quote +:+ "]")).

(** [`attachment; filename="${name}"`] *)
Definition attachment (name : string) : string :=
  "attachment; filename=" +:+ double_quote +:+ name +:+ double_quote.

(** [try { body } catch (error) { res.status(500).json(...) }] for the
    statements [body] that run when the response has the headers
    [headers]: the [catch] clause answers on the same response object, which
    keeps the headers that were set before the failure.  The handlers below
    open it once more after each header that they set, so that the clause
    finds the headers of that moment. *)
Definition caught (headers : list (string * string)) (body : M Reply) : M Reply :=
  try_catch body
    (fun error => ret {| rp_status := 500; rp_headers := headers;
                         rp_body := BMessage (error_message error) |}).

(** [GET /api/extract/:id] *)
Definition getExtraction (id : string) : M Reply :=
  caught []
    (extraction <- getExtractionResult id ;;
     match extraction with
     | None => ret (reply 404 (BMessage "Extraction not found"))
     | Some extraction => ret (reply 200 (BRecord extraction))
     end).

(** [GET /api/extract/:id/download] *)
Definition downloadZip (id : string) : M Reply :=
  caught []
    (extraction <- getExtractionResult id ;;
     match extraction with
     | None => ret (reply 404 (BMessage "Extraction not found"))
     | Some extraction =>
         match res_status extraction with
         | completed =>
             domain <- lift (match hostname (res_url extraction) with
                             | Some d => Val d
                             | None => Throw (JsError "Invalid URL")
                             end) ;;
             let entries :=
               map (fun file => (file_path file, file_content file)) (res_files extraction) in
             zipBuffer <- lift (generateAsync entries) ;;
             headers <- setHeader "Content-Type" "application/zip" [] ;;
             caught headers
               (headers <- setHeader "Content-Disposition"
                             (attachment (domain +:+ "-sources.zip")) headers ;;
                ret {| rp_status := 200; rp_headers := headers;
                       rp_body := BBuffer zipBuffer |})
         | _ => ret (reply 400 (BMessage "Extraction not completed"))
         end
     end).

(** [GET /api/extract/:id/file/:fileId] *)
Definition downloadFile (id fileId : string) : M Reply :=
  caught []
    (extraction <- getExtractionResult id ;;
     match extraction with
     | None => ret (reply 404 (BMessage "Extraction not found"))
     | Some extraction =>
         match find (fun f => String.eqb (file_id f) fileId) (res_files extraction) with
         | None => ret (reply 404 (BMessage "File not found"))
         | Some file =>
             headers <- setHeader "Content-Type" (file_mimeType file) [] ;;
             caught headers
               (headers <- setHeader "Content-Disposition" (attachment (file_name file))
                             headers ;;
                ret {| rp_status := 200; rp_headers := headers;
                       rp_body := BText (file_content file) |})
         end
     end).
End Handlers.

(** ** A small web for the examples

    One origin, [https://ex.com].  [URL_new] of the examples agrees with the
    [URL] class on the inputs that the examples give it: the absolute URLs
    of the origin, the references that start with one slash, and [http://],
    which the class rejects for its missing host.  The documents list their
    elements in document order, with the inner HTML of the elements whose
    content the pipeline reads.  Two root pages answer with JSON, which
    [axios] parses: an object, of which [cheerio.load] makes a document
    without elements, and an array of numbers, on which it throws. *)

Module Fixture.

Definition origin : string := "https://ex.com".

Definition path_of (u : string) : string :=
  Js.split_head "#" (Js.split_head "?" (String.substring 14 (String.length u - 14) u)).

Definition fx_URL_new (input : string) (base : option string) : option URLRecord :=
  if Js.startsWith "https://ex.com/" input
  then Some {| href := input; pathname := path_of input |}
  else if Js.startsWith "/" input && negb (Js.startsWith "//" input) then
    match base with
    | Some b =>
        if Js.startsWith "https://ex.com/" b
        then Some {| href := origin +:+ input; pathname := path_of (origin +:+ input) |}
        else None
    | None => None
    end
  else None.

Definition el (tag : string) (attrs : list (string * string)) (html : option string) : Element :=
  {| el_tag := tag; el_attrs := attrs; el_html := html |}.

(** the page of the chain of stylesheets: it links [a.css] *)
Definition chain_page : string := "<link rel='stylesheet' href='/a.css'>".

(** a page with three assets and one inline style *)
Definition three_page : string :=
  "<link rel='stylesheet' href='/y.css'><script src='/x.js'></script><style>color:red</style><img src='/z.png'>".

(** a page whose link has the [rel] value in another case *)
Definition cased_page : string := "<link rel='Stylesheet' href='/a.css'>".

Definition fx_cheerio_load (content : string) : list Element :=
  if String.eqb content chain_page then
    [el "html" [] None; el "head" [] None;
     el "link" [("rel", "stylesheet"); ("href", "/a.css")] (Some EmptyString);
     el "body" [] None]
  else if String.eqb content three_page then
    [el "html" [] None; el "head" [] None;
     el "link" [("rel", "stylesheet"); ("href", "/y.css")] (Some EmptyString);
     el "script" [("src", "/x.js")] (Some EmptyString);
     el "style" [] (Some "color:red");
     el "body" [] None;
     el "img" [("src", "/z.png")] (Some EmptyString)]
  else if String.eqb content cased_page then
    [el "html" [] None; el "head" [] None;
     el "link" [("rel", "Stylesheet"); ("href", "/a.css")] (Some EmptyString);
     el "body" [] None]
  else [].

Definition ok {D} (ctype : string) (d : D) : Outcome D :=
  Resolved {| status := 200; headers := [("content-type", ctype)]; data := d |}.

Definition not_found {D} : Outcome D := Rejected (JsError "Request failed with status code 404").

Definition fx_cheerio_load_value (j : Json) : Res (list Element) :=
  match j with
  | JObj _ => Val []
  | _ => Throw (JsError "Cannot create property 'prev' on number '1'")
  end.

Definition fx_byteLength_error (j : Json) : JsValue :=
  JsError ("The " +:+ String "034" "string" +:+ String "034"
             " argument must be of type string or an instance of Buffer or ArrayBuffer."
           +:+ " Received an instance of Object").

Definition fx_page (url : string) : Outcome Json :=
  if String.eqb url "https://ex.com/chain" then ok "text/html" (JStr chain_page)
  else if String.eqb url "https://ex.com/three" then ok "text/html" (JStr three_page)
  else if String.eqb url "https://ex.com/cased" then ok "text/html" (JStr cased_page)
  else if String.eqb url "https://ex.com/data.json"
  then ok "application/json" (JObj [("ok", JBool true)])
  else if String.eqb url "https://ex.com/list.json"
  then ok "application/json" (JArr [JNum 1; JNum 2])
  else if String.eqb url "https://ex.com/down" then Rejected (JsError "timeout of 15000ms exceeded")
  else if String.eqb url "https://ex.com/silent" then Rejected (JsError EmptyString)
  else not_found.

Definition fx_text (url : string) : Outcome TextData :=
  if String.eqb url "https://ex.com/a.css" then ok "text/css" (DString "@import '/b.css';")
  else if String.eqb url "https://ex.com/b.css" then ok "text/css" (DString "@import '/c.css';")
  else if String.eqb url "https://ex.com/c.css" then ok "text/css" (DString "p{color:blue}")
  else if String.eqb url "https://ex.com/x.js" then ok "application/javascript" (DString "let x;")
  else if String.eqb url "https://ex.com/y.css" then Rejected (JsError "Request failed with status code 500")
  else not_found.

Definition png_bytes : list byte := [x89; x50; x4e; x47; x0d].

Definition js_bytes : list byte := [x6c; x65; x74; x20; x78; x3b].

Definition fx_arraybuffer (url : string) : Outcome (list byte) :=
  if String.eqb url "https://ex.com/z.png" then ok "image/png" png_bytes
  else if String.eqb url "https://ex.com/x.js" then ok "application/javascript" js_bytes
  else if String.eqb url "https://ex.com/y.css" then Rejected (JsError "Request failed with status code 500")
  else not_found.

Definition fx_randomUUID (n : nat) : string :=
  let d := show_nat n in
  String.substring 0 (8 - String.length d) "00000000" +:+ d +:+ "-0000-4000-8000-000000000000".

#[export] Instance runtime : Runtime := {|
  URL_new := fx_URL_new;
  cheerio_load := fx_cheerio_load;
  cheerio_load_value := fx_cheerio_load_value;
  byteLength_error := fx_byteLength_error;
  axios_get_page := fx_page;
  axios_get_arraybuffer := fx_arraybuffer;
  axios_get_text := fx_text;
  axios_get_json := fun _ => not_found;
  randomUUID := fx_randomUUID;
  Date_now := "2024-01-01T00:00:00.000Z";
  schedule := fun l => l;
  JSON_stringify := fun _ _ => "{}";
  utf8_decode := fun b => string_of_list_ascii (map (fun x => ascii_of_nat (Byte.to_nat x)) b)
|}.

Definition w0 {R} : World R :=
  {| extractions := ∅; uuids := 0; requests := []; console := []; history := [] |}.

End Fixture.

(** a web like the one of the examples, with an API that answers *)
Module ApiFixture.

Definition fx_json (url : string) : Outcome Json :=
  if String.eqb url "https://ex.com/api/status"
  then Fixture.ok "application/json" (JObj [("ok", JBool true)])
  else if String.eqb url "https://ex.com/api/health"
  then Fixture.ok "text/html" (JStr "<p>fine</p>")
  else if String.eqb url "https://ex.com/api/version"
  then Fixture.ok "application/json; charset=utf-8" (JStr "1.0")
  else Fixture.not_found.

Definition runtime : Runtime := {|
  URL_new := Fixture.fx_URL_new;
  cheerio_load := Fixture.fx_cheerio_load;
  cheerio_load_value := Fixture.fx_cheerio_load_value;
  byteLength_error := Fixture.fx_byteLength_error;
  axios_get_page := Fixture.fx_page;
  axios_get_arraybuffer := Fixture.fx_arraybuffer;
  axios_get_text := Fixture.fx_text;
  axios_get_json := fx_json;
  randomUUID := Fixture.fx_randomUUID;
  Date_now := "2024-01-01T00:00:00.000Z";
  schedule := fun l => l;
  JSON_stringify := fun _ _ => "{}";
  utf8_decode := fun b => string_of_list_ascii (map (fun x => ascii_of_nat (Byte.to_nat x)) b)
|}.

End ApiFixture.

(** the routes of the examples: every header value passes, the archive
    lists its entries *)
Module ExpressFixture.

Definition express : Express := {|
  hostname := fun u => if Js.startsWith "https://ex.com" u then Some "ex.com" else None;
  header_value_ok := fun _ => true;
  generateAsync := fun entries => Val (map (fun _ => x50) entries)
|}.

End ExpressFixture.


(** * Properties *)

(** ** Base64 *)

Module Base64Facts.
Import Base64.

Lemma value_digit n : n < 64 -> value (digit n) = Some n.
Proof.
  intros Hn.
  do 64 (destruct n as [|n]; [reflexivity|]).
  lia.
Qed.

Lemma digit_not_pad n : n < 64 -> is_pad (digit n) = false.
Proof.
  intros Hn.
  do 64 (destruct n as [|n]; [reflexivity|]).
  lia.
Qed.

Lemma byte_back b : Byte.of_nat (Byte.to_nat b) = Some b.
Proof. apply Byte.of_to_nat. Qed.

Lemma byte_small b : Byte.to_nat b < 256.
Proof.
  pose proof (Byte.to_nat_bounded b) as Hb. lia.
Qed.

Ltac euclid := zify; Z.to_euclidean_division_equations; lia.

Lemma s0_small x : x < 256 -> x / 4 < 64.
Proof. intros. euclid. Qed.
Lemma s1_small x y : x < 256 -> y < 256 -> x mod 4 * 16 + y / 16 < 64.
Proof. intros. euclid. Qed.
Lemma s1_small_end x : x < 256 -> x mod 4 * 16 < 64.
Proof. intros. euclid. Qed.
Lemma s2_small y z : y < 256 -> z < 256 -> y mod 16 * 4 + z / 64 < 64.
Proof. intros. euclid. Qed.
Lemma s2_small_end y : y < 256 -> y mod 16 * 4 < 64.
Proof. intros. euclid. Qed.
Lemma s3_small z : z < 256 -> z mod 64 < 64.
Proof. intros. euclid. Qed.
Lemma b0_back x y : x < 256 -> y < 256 -> x / 4 * 4 + (x mod 4 * 16 + y / 16) / 16 = x.
Proof. intros. euclid. Qed.
Lemma b0_back_end x : x < 256 -> x / 4 * 4 + (x mod 4 * 16) / 16 = x.
Proof. intros. euclid. Qed.
Lemma b1_back x y z :
  x < 256 -> y < 256 -> z < 256 ->
  (x mod 4 * 16 + y / 16) mod 16 * 16 + (y mod 16 * 4 + z / 64) / 4 = y.
Proof. intros. euclid. Qed.
Lemma b1_back_end x y :
  x < 256 -> y < 256 -> (x mod 4 * 16 + y / 16) mod 16 * 16 + (y mod 16 * 4) / 4 = y.
Proof. intros. euclid. Qed.
Lemma b2_back y z : y < 256 -> z < 256 -> (y mod 16 * 4 + z / 64) mod 4 * 64 + z mod 64 = z.
Proof. intros. euclid. Qed.

Lemma list_ind3 {A} (P : list A -> Prop) :
  P [] -> (forall a, P [a]) -> (forall a b, P [a; b]) ->
  (forall a b c r, P r -> P (a :: b :: c :: r)) ->
  forall l, P l.
Proof.
  intros H0 H1 H2 H3 l.
  enough (P l /\ (forall a, P (a :: l)) /\ (forall a b, P (a :: b :: l))) by tauto.
  induction l as [|x l (IH0 & IH1 & IH2)]; [auto|].
  split; [apply IH1|]. split; [intros a; apply IH2|].
  intros a b. apply H3, IH0.
Qed.

(** Decoding what [encode] produced gives the bytes back. *)
Lemma decode_encode bs : decode (encode bs) = Some bs.
Proof.
  induction bs as [|a|a b|a b c r IH] using list_ind3.
  - reflexivity.
  - pose proof (byte_small a) as Ha.
    cbn [encode decode].
    rewrite (value_digit _ (s0_small _ Ha)), (value_digit _ (s1_small_end _ Ha)).
    cbn [mbind option_bind].
    rewrite (b0_back_end _ Ha), byte_back. reflexivity.
  - pose proof (byte_small a) as Ha. pose proof (byte_small b) as Hb.
    cbn [encode decode].
    rewrite (value_digit _ (s0_small _ Ha)), (value_digit _ (s1_small _ _ Ha Hb)).
    cbn [mbind option_bind].
    rewrite (b0_back _ _ Ha Hb), byte_back. cbn [mbind option_bind].
    replace (is_pad pad) with true by reflexivity.
    rewrite (digit_not_pad _ (s2_small_end _ Hb)).
    rewrite (value_digit _ (s2_small_end _ Hb)). cbn [mbind option_bind].
    rewrite (b1_back_end _ _ Ha Hb), byte_back. reflexivity.
  - pose proof (byte_small a) as Ha. pose proof (byte_small b) as Hb.
    pose proof (byte_small c) as Hc.
    cbn [encode decode].
    rewrite (value_digit _ (s0_small _ Ha)), (value_digit _ (s1_small _ _ Ha Hb)).
    cbn [mbind option_bind].
    rewrite (b0_back _ _ Ha Hb), byte_back. cbn [mbind option_bind].
    rewrite (digit_not_pad _ (s3_small _ Hc)).
    rewrite (value_digit _ (s2_small _ _ Hb Hc)), (value_digit _ (s3_small _ Hc)).
    cbn [mbind option_bind].
    rewrite (b1_back _ _ _ Ha Hb Hc), byte_back. cbn [mbind option_bind].
    rewrite (b2_back _ _ Hb Hc), byte_back. cbn [mbind option_bind].
    rewrite IH. reflexivity.
Qed.

End Base64Facts.

(** ** Classification *)

Definition server_categories : list string :=
  ["html"; "css"; "js"; "image"; "font"; "json"; "xml"; "other"].

(** The category and the folder that [routes.ts] gives to a file name. *)
Definition classified (t : FileType) (folder : string) : Prop :=
  (t = css /\ folder = "css") \/ (t = js /\ folder = "js") \/
  (t = image /\ folder = "images") \/ (t = payload /\ folder = "payloads") \/
  ((t = html \/ t = other) /\ folder = "assets").

(** The category and the folder that the standalone server gives to a URL. *)
Definition server_classified (t folder : string) : Prop :=
  (t = "css" /\ folder = "css") \/ (t = "js" /\ folder = "js") \/
  (t = "image" /\ folder = "images") \/ (t = "font" /\ folder = "fonts") \/
  (In t ["html"; "json"; "xml"; "other"] /\ folder = "assets").

Lemma server_getFileType_range `{Runtime} url mimeType :
  In (Server.getFileType url mimeType) server_categories.
Proof.
  unfold Server.getFileType, server_categories.
  repeat match goal with
         | |- context [match ?o with Some _ => _ | None => _ end] => destruct o
         | |- context [if ?b then _ else _] => destruct b
         end; simpl; auto 10.
Qed.

(** C7, as amended: classification is a total function of its arguments.
    In [routes.ts] a file name gets exactly one category among html, css,
    js, image, payload and other, and the folder css, js, images, payloads
    or assets that goes with it.  In the standalone server a URL and a
    declared type get one category among html, css, js, image, font, json,
    xml and other, with the folder css, js, images, fonts or assets. *)
Theorem classification_total `{Runtime} (fileName url : string) (mimeType : option string) :
  classified (getFileType fileName) (getFolderPath (getFileType fileName)) /\
  In (Server.getFileType url mimeType) server_categories /\
  server_classified (Server.getFileType url mimeType)
    (Server.folder_of (Server.getFileType url mimeType)).
Proof.
  split; [|split].
  - unfold classified. destruct (getFileType fileName); simpl; tauto.
  - apply server_getFileType_range.
  - pose proof (server_getFileType_range url mimeType) as Hr.
    unfold server_categories in Hr. simpl in Hr.
    unfold server_classified.
    destruct Hr as [<-|[<-|[<-|[<-|[<-|[<-|[<-|[<-|[]]]]]]]]]; cbn; tauto.
Qed.

(** C7, as stated, fails on the standalone server: a font gets the category
    font, which is not one of the six, and the folder fonts. *)
Lemma server_font_category :
  Server.getFileType (H := Fixture.runtime) "https://ex.com/font.woff" None = "font" /\
  ~ In "font" ["html"; "css"; "js"; "image"; "payload"; "other"] /\
  Server.folder_of "font" = "fonts".
Proof.
  split; [reflexivity|]. split; [|reflexivity].
  simpl. intros [H|[H|[H|[H|[H|[H|[]]]]]]]; discriminate H.
Qed.

(** ** The store *)

(** What [updateExtractionResult] leaves alone in the world. *)
Definition same_effects {R} (w w' : World R) : Prop :=
  uuids w' = uuids w /\ requests w' = requests w /\ console w' = console w.

(** The value of a field after a merge: the one of [updates] when the key
    is there, the former one otherwise. *)
Definition merged {A} (former : A) (update : option A) (now : A) : Prop :=
  match update with
  | Some v => now = v
  | None => now = former
  end.

Lemma merged_default {A} (former : A) (update : option A) :
  merged former update (default former update).
Proof. destruct update; reflexivity. Qed.

(** C10: for an id of the store, [updateExtractionResult] changes the
    fields that [updates] has and keeps every other field of the record,
    and it keeps the records of the other ids; for an id that the store
    does not have it throws and leaves the store as it was. *)
Theorem updateExtractionResult_frame (w : World ExtractionResult) (id : string)
    (updates : Updates) :
  match extractions w !! id with
  | Some existing =>
      exists updated w',
        updateExtractionResult id updates w = (Val updated, w') /\
        extractions w' !! id = Some updated /\
        (forall other, other <> id -> extractions w' !! other = extractions w !! other) /\
        same_effects w w' /\
        merged (res_id existing) (u_id updates) (res_id updated) /\
        merged (res_url existing) (u_url updates) (res_url updated) /\
        merged (res_status existing) (u_status updates) (res_status updated) /\
        merged (res_files existing) (u_files updates) (res_files updated) /\
        merged (res_totalSize existing) (u_totalSize updates) (res_totalSize updated) /\
        merged (res_totalFiles existing) (u_totalFiles updates) (res_totalFiles updated) /\
        merged (res_extractedAt existing) (u_extractedAt updates) (res_extractedAt updated) /\
        merged (res_error existing) (u_error updates) (res_error updated)
  | None =>
      updateExtractionResult id updates w = (Throw (JsError "Extraction not found"), w)
  end.
Proof.
  unfold updateExtractionResult, bind, get_store.
  destruct (extractions w !! id) as [existing|] eqn:Hid.
  - eexists _, _. split; [reflexivity|]. cbn.
    split; [apply lookup_insert_eq|].
    split; [intros other Hne; apply lookup_insert_ne; congruence|].
    split; [repeat split|].
    repeat split; apply merged_default.
  - reflexivity.
Qed.

(** The two updates that the pipeline makes keep the files and the totals. *)
Lemma status_update_keeps (r : ExtractionResult) (s : Status) :
  res_files (spread r (status_update s)) = res_files r /\
  res_totalFiles (spread r (status_update s)) = res_totalFiles r /\
  res_totalSize (spread r (status_update s)) = res_totalSize r /\
  res_status (spread r (status_update s)) = s /\
  res_error (spread r (status_update s)) = res_error r.
Proof. repeat split. Qed.

Lemma sum_sizes_list_sum (files : list ExtractedFile) :
  sum_sizes files = list_sum (map file_size files).
Proof.
  unfold sum_sizes.
  enough (forall n, fold_left (fun sum f => sum + file_size f) files n
                    = n + list_sum (map file_size files)) as E by apply (E 0).
  induction files as [|f files IH]; intros n; simpl; [lia|].
  rewrite IH. lia.
Qed.

(** the record that [addFileToExtraction] writes *)
Definition added (extraction : ExtractionResult) (file : ExtractedFile) : ExtractionResult :=
  {| res_id := res_id extraction; res_url := res_url extraction;
     res_status := res_status extraction;
     res_files := res_files extraction ++ [file];
     res_totalSize := sum_sizes (res_files extraction ++ [file]);
     res_totalFiles := length (res_files extraction ++ [file]);
     res_extractedAt := res_extractedAt extraction;
     res_error := res_error extraction |}.

Lemma added_totals_ok extraction file : totals_ok (added extraction file).
Proof. split; [reflexivity|]. cbn. apply sum_sizes_list_sum. Qed.

Definition put {R} (m : gmap string R) (w : World R) : World R :=
  {| extractions := m; uuids := uuids w; requests := requests w; console := console w;
     history := history w ++ [m] |}.

Lemma addFileToExtraction_present w id extraction file :
  extractions w !! id = Some extraction ->
  addFileToExtraction id file w
  = (Val tt, put (<[id := added extraction file]> (extractions w)) w).
Proof.
  intros Hid. unfold addFileToExtraction, bind, get_store. rewrite Hid. reflexivity.
Qed.

Lemma addFileToExtraction_absent w id file :
  extractions w !! id = None ->
  addFileToExtraction id file w = (Throw (JsError "Extraction not found"), w).
Proof.
  intros Hid. unfold addFileToExtraction, bind, get_store. rewrite Hid. reflexivity.
Qed.

Lemma updateExtractionResult_present w id existing updates :
  extractions w !! id = Some existing ->
  updateExtractionResult id updates w
  = (Val (spread existing updates), put (<[id := spread existing updates]> (extractions w)) w).
Proof.
  intros Hid. unfold updateExtractionResult, bind, get_store. rewrite Hid. reflexivity.
Qed.

(** ** Invariants of monadic code

    [keeps I m]: [m] preserves [I], whether it returns or throws.
    [ok I m]: from a world of [I], [m] returns and preserves [I]. *)

Section Hoare.
Context {R : Type}.
Implicit Types (w : World R) (I : World R -> Prop).

Definition keeps {A} I (m : M (R := R) A) : Prop :=
  forall w, I w -> I (snd (m w)).

Definition ok {A} I (m : M (R := R) A) : Prop :=
  forall w, I w -> I (snd (m w)) /\ exists a, fst (m w) = Val a.

(** [I] reads the map and its history only. *)
Definition stable I : Prop :=
  forall w w', extractions w' = extractions w -> history w' = history w -> I w -> I w'.

Lemma ok_keeps {A} I (m : M A) : ok I m -> keeps I m.
Proof. intros Hm w Hw. apply Hm, Hw. Qed.

Lemma ok_ret {A} I (a : A) : ok I (ret a).
Proof. intros w Hw. split; [exact Hw|]. exists a. reflexivity. Qed.

Lemma ok_bind {A B} I (m : M A) (k : A -> M B) :
  ok I m -> (forall a, ok I (k a)) -> ok I (bind m k).
Proof.
  intros Hm Hk w Hw. unfold bind.
  destruct (Hm w Hw) as [Hw' [a Ha]].
  destruct (m w) as [[a'|e] w']; cbn in *; [|discriminate].
  apply Hk, Hw'.
Qed.

Lemma keeps_bind {A B} I (m : M A) (k : A -> M B) :
  keeps I m -> (forall a, keeps I (k a)) -> keeps I (bind m k).
Proof.
  intros Hm Hk w Hw. unfold bind.
  specialize (Hm w Hw).
  destruct (m w) as [[a|e] w']; cbn in *; [apply Hk, Hm|exact Hm].
Qed.

Lemma keeps_throw {A} I (e : JsValue) : keeps I (throw (A := A) e).
Proof. intros w Hw. exact Hw. Qed.

Lemma keeps_lift {A} I (r : Res A) : keeps I (lift r).
Proof. intros w Hw. exact Hw. Qed.

Lemma ok_try_catch {A} I (m : M A) (h : JsValue -> M A) :
  keeps I m -> (forall e, ok I (h e)) -> ok I (try_catch m h).
Proof.
  intros Hm Hh w Hw. unfold try_catch.
  specialize (Hm w Hw).
  destruct (m w) as [[a|e] w']; cbn in *; [|apply Hh, Hm].
  split; [exact Hm|]. exists a. reflexivity.
Qed.

Lemma keeps_try_catch {A} I (m : M A) (h : JsValue -> M A) :
  keeps I m -> (forall e, keeps I (h e)) -> keeps I (try_catch m h).
Proof.
  intros Hm Hh w Hw. unfold try_catch.
  specialize (Hm w Hw).
  destruct (m w) as [[a|e] w']; cbn in *; [exact Hm|apply Hh, Hm].
Qed.

Lemma ok_not_awaited {A} I (m : M A) : keeps I m -> ok I (not_awaited m).
Proof.
  intros Hm w Hw. split; [apply Hm, Hw|]. exists tt. reflexivity.
Qed.

Lemma ok_for_each {A} I (l : list A) (body : A -> M unit) :
  (forall x, ok I (body x)) -> ok I (for_each l body).
Proof.
  intros Hb. induction l as [|x l IH]; cbn [for_each].
  - apply ok_ret.
  - apply ok_bind; [apply Hb|intros _; exact IH].
Qed.

Lemma ok_fold_each {A S} I (l : list A) (s : S) (body : S -> A -> M S) :
  (forall s x, ok I (body s x)) -> ok I (fold_each l s body).
Proof.
  intros Hb. revert s. induction l as [|x l IH]; intros s; cbn [fold_each].
  - apply ok_ret.
  - apply ok_bind; [apply Hb|intros s'; apply IH].
Qed.

Lemma ok_console_log I line : stable I -> ok I (console_log line).
Proof.
  intros HI w Hw. split; [|exists tt; reflexivity].
  apply (HI w); [reflexivity|reflexivity|exact Hw].
Qed.

Lemma ok_console_error I line e : stable I -> ok I (console_error line e).
Proof.
  intros HI w Hw. split; [|exists tt; reflexivity].
  apply (HI w); [reflexivity|reflexivity|exact Hw].
Qed.

Lemma ok_note_request I url : stable I -> ok I (note_request url).
Proof.
  intros HI w Hw. split; [|exists tt; reflexivity].
  apply (HI w); [reflexivity|reflexivity|exact Hw].
Qed.

Lemma ok_next_uuid I : stable I -> ok I next_uuid.
Proof.
  intros HI w Hw. split; [|exists (uuids w); reflexivity].
  apply (HI w); [reflexivity|reflexivity|exact Hw].
Qed.

Lemma ok_get_store I : ok I get_store.
Proof. intros w Hw. split; [exact Hw|]. eexists. reflexivity. Qed.

Lemma ok_run {A} I (m : M A) w :
  ok I m -> I w -> exists a w', m w = (Val a, w') /\ I w'.
Proof.
  intros Hm Hw. destruct (Hm w Hw) as [Hw' [a Ha]].
  destruct (m w) as [r w'] eqn:E. cbn in *. subst r. eauto.
Qed.

Lemma bind_val {A B} (m : M A) (k : A -> M B) w a w' :
  m w = (Val a, w') -> bind m k w = k a w'.
Proof. intros E. unfold bind. rewrite E. reflexivity. Qed.

Lemma bind_throw {A B} (m : M A) (k : A -> M B) w e w' :
  m w = (Throw e, w') -> bind m k w = (Throw e, w').
Proof. intros E. unfold bind. rewrite E. reflexivity. Qed.

Lemma try_catch_val {A} (m : M A) (h : JsValue -> M A) w a w' :
  m w = (Val a, w') -> try_catch m h w = (Val a, w').
Proof. intros E. unfold try_catch. rewrite E. reflexivity. Qed.

Lemma try_catch_throw {A} (m : M A) (h : JsValue -> M A) w e w' :
  m w = (Throw e, w') -> try_catch m h w = h e w'.
Proof. intros E. unfold try_catch. rewrite E. reflexivity. Qed.
End Hoare.

(** one step of a proof of [ok] or [keeps], by the shape of the code *)
Ltac hoare_step :=
  lazymatch goal with
  | |- ok _ (ret _) => apply ok_ret
  | |- ok _ (bind _ _) => apply ok_bind; [|intros ?]
  | |- ok _ (try_catch _ _) => apply ok_try_catch; [|intros ?]
  | |- ok _ (not_awaited _) => apply ok_not_awaited
  | |- ok _ (for_each _ _) => apply ok_for_each; intros ?
  | |- ok _ (fold_each _ _ _) => apply ok_fold_each; intros ? ?
  | |- ok _ (console_log _) => apply ok_console_log; assumption
  | |- ok _ (console_error _ _) => apply ok_console_error; assumption
  | |- ok _ (note_request _) => apply ok_note_request; assumption
  | |- ok _ next_uuid => apply ok_next_uuid; assumption
  | |- ok _ get_store => apply ok_get_store
  | |- keeps _ (throw _) => apply keeps_throw
  | |- keeps _ (lift _) => apply keeps_lift
  | |- keeps _ (bind _ _) => apply keeps_bind; [|intros ?]
  | |- keeps _ (try_catch _ _) => apply keeps_try_catch; [|intros ?]
  | |- ok _ (if ?b then _ else _) => destruct b
  | |- keeps _ (if ?b then _ else _) => destruct b
  | |- ok _ (match ?o with _ => _ end) => destruct o
  | |- keeps _ (match ?o with _ => _ end) => destruct o
  | |- keeps _ _ => apply ok_keeps
  end.

(** ** Invariants of the pipeline of [routes.ts]

    [K] is a property of the record of one extraction that every write of
    the pipeline keeps, as long as the files that it appends satisfy [PF].
    [Inv] says that the record is there with [K], and that [K] held after
    every write since the history was [h0]. *)

Section RoutesInvariant.
Context `{Runtime}.
Variables (K : ExtractionResult -> Prop) (PF : ExtractedFile -> Prop).
Variables (id : string) (h0 : list (gmap string ExtractionResult)).
Hypothesis K_added : forall r f, K r -> PF f -> K (added r f).
Hypothesis K_status : forall r s, K r -> K (spread r (status_update s)).

Definition holds_in (m : gmap string ExtractionResult) : Prop :=
  forall r, m !! id = Some r -> K r.

Definition Inv (w : World ExtractionResult) : Prop :=
  (exists r, extractions w !! id = Some r /\ K r) /\
  exists since, history w = h0 ++ since /\ Forall holds_in since.

Lemma Inv_stable : stable Inv.
Proof. intros w w' He Hh HI. unfold Inv in *. rewrite He, Hh. exact HI. Qed.

Lemma Inv_put w r r' :
  extractions w !! id = Some r -> Inv w -> K r' ->
  Inv (put (<[id := r']> (extractions w)) w).
Proof.
  intros Hr [_ [since [Hh Hs]]] HK. split; cbn.
  - exists r'. split; [apply lookup_insert_eq|exact HK].
  - exists (since ++ [<[id := r']> (extractions w)]).
    rewrite Hh, app_assoc. split; [reflexivity|].
    apply Forall_app. split; [exact Hs|].
    constructor; [|constructor].
    intros r1 Hr1. rewrite lookup_insert_eq in Hr1. congruence.
Qed.

Lemma ok_addFile f : PF f -> ok Inv (addFileToExtraction id f).
Proof.
  intros Hf w HI. destruct HI as [[r [Hr HK]] Hh].
  rewrite (addFileToExtraction_present _ _ _ _ Hr). cbn [fst snd].
  split; [|exists tt; reflexivity].
  apply (Inv_put w r); [exact Hr|split; eauto|apply K_added; assumption].
Qed.

Lemma ok_update s : ok Inv (updateExtractionResult id (status_update s)).
Proof.
  intros w HI. destruct HI as [[r [Hr HK]] Hh].
  rewrite (updateExtractionResult_present _ _ _ _ Hr). cbn [fst snd].
  split; [|eexists; reflexivity].
  apply (Inv_put w r); [exact Hr|split; eauto|apply K_status; assumption].
Qed.

Lemma ok_fresh_uuid : ok Inv fresh_uuid.
Proof. unfold fresh_uuid. pose proof Inv_stable. repeat hoare_step. Qed.

Hypothesis PF_script : forall n i c, PF (inlineScriptFile n i c).
Hypothesis PF_style : forall n i c, PF (inlineStyleFile n i c).
Hypothesis PF_asset : forall p i c s ct, PF (assetFile p i c s ct).
Hypothesis PF_payload : forall n i u r, PF (payloadFile n i u r).
Variable includeSourcePage : bool.
Hypothesis PF_source : includeSourcePage = true -> forall i c, PF (sourcePageFile i c).

Ltac stage :=
  pose proof Inv_stable;
  repeat first [ hoare_step | apply ok_fresh_uuid | apply ok_addFile; auto | apply ok_update ].

Lemma ok_inline_script url assets el : ok Inv (inline_script id url assets el).
Proof. unfold inline_script. stage. Qed.

Lemma ok_inline_style el : ok Inv (inline_style id el).
Proof. unfold inline_style. stage. Qed.

Lemma ok_prepare assetUrl : ok Inv (prepare assetUrl).
Proof. unfold prepare. stage. Qed.

Lemma ok_complete assets p : ok Inv (complete id assets p).
Proof. unfold complete. stage. Qed.

Lemma ok_run_batch assets batch : ok Inv (run_batch id assets batch).
Proof.
  unfold run_batch. stage; [apply ok_prepare|apply ok_complete].
Qed.

Lemma ok_process_assets assets : ok Inv (process_assets id assets).
Proof. unfold process_assets. stage. apply ok_run_batch. Qed.

Lemma ok_probe payloadCount apiUrl : ok Inv (probe id payloadCount apiUrl).
Proof. unfold probe. stage. Qed.

Lemma ok_probe_payloads url doc : ok Inv (probe_payloads id url doc).
Proof. unfold probe_payloads. stage. apply ok_probe. Qed.

(** the stages that follow the source page *)
Lemma ok_fetch_stages url (includePayloads : bool) assets doc :
  ok Inv (process_assets id assets ;;;
          (if includePayloads then probe_payloads id url doc else ret tt)).
Proof.
  apply ok_bind; [apply ok_process_assets|intros _].
  destruct includePayloads; [apply ok_probe_payloads|apply ok_ret].
Qed.

Lemma keeps_add_source_page content :
  keeps Inv (add_source_page id includeSourcePage content).
Proof.
  unfold add_source_page.
  destruct includeSourcePage eqn:Hs; [|apply ok_keeps, ok_ret].
  apply keeps_bind; [apply ok_keeps, ok_fresh_uuid|intros i].
  destruct content; try apply keeps_throw.
  apply ok_keeps, ok_addFile, PF_source; reflexivity.
Qed.

Lemma keeps_scan_and_fetch url includePayloads content :
  keeps Inv (scan_and_fetch id url includePayloads includeSourcePage content).
Proof.
  unfold scan_and_fetch.
  apply keeps_bind; [apply keeps_lift|intros doc].
  apply keeps_bind;
    [apply ok_keeps, ok_fold_each; intros; apply ok_inline_script|intros assets].
  apply keeps_bind; [apply ok_keeps, ok_for_each; intros; apply ok_inline_style|intros _].
  apply keeps_bind; [apply keeps_add_source_page|intros _].
  apply ok_keeps, ok_fetch_stages.
Qed.

(** [extractWebsiteFiles] keeps the invariant, however it ends. *)
Lemma keeps_extractWebsiteFiles url includePayloads :
  keeps Inv (extractWebsiteFiles id url includePayloads includeSourcePage).
Proof.
  unfold extractWebsiteFiles.
  apply keeps_bind; [apply ok_keeps, ok_update|intros _].
  apply keeps_try_catch; [|intros e; apply keeps_throw].
  apply keeps_bind; [apply ok_keeps, ok_note_request, Inv_stable|intros _].
  destruct (axios_get_page url) as [mainResponse|e]; [|apply keeps_throw].
  apply keeps_bind; [apply keeps_scan_and_fetch|intros _].
  apply keeps_bind; [apply ok_keeps, ok_update|intros _].
  apply ok_keeps, ok_ret.
Qed.

(** The run of [extractWebsiteFiles] when the request of the root page
    rejects: the rejection is thrown again, after one request and no other
    effect than the first update of the status. *)
Lemma extractWebsiteFiles_rejected w r url includePayloads e :
  extractions w !! id = Some r -> axios_get_page url = Rejected e ->
  extractWebsiteFiles id url includePayloads includeSourcePage w
  = (Throw e,
     {| extractions := <[id := spread r (status_update processing)]> (extractions w);
        uuids := uuids w; requests := requests w ++ [url]; console := console w;
        history := history w ++ [<[id := spread r (status_update processing)]> (extractions w)] |}).
Proof.
  intros Hr Hpage. unfold extractWebsiteFiles.
  rewrite (bind_val _ _ _ _ _ (updateExtractionResult_present w id r _ Hr)).
  unfold try_catch, bind at 1, note_request. cbn [put extractions uuids requests console history].
  rewrite Hpage. reflexivity.
Qed.
End RoutesInvariant.

(** ** Runs of the handler of [routes.ts] *)

Section RoutesRun.
Context `{Runtime}.
Variables (w0 : World ExtractionResult) (url : string).
Variables (includePayloads includeSourcePage : bool).

(** the id that [createExtractionResult] draws *)
Definition new_id : string := randomUUID (uuids w0).

Definition pending_record : ExtractionResult :=
  {| res_id := new_id; res_url := url; res_status := pending; res_files := [];
     res_totalSize := 0; res_totalFiles := 0; res_extractedAt := Date_now;
     res_error := None |}.

Definition created : World ExtractionResult :=
  {| extractions := <[new_id := pending_record]> (extractions w0);
     uuids := S (uuids w0); requests := requests w0; console := console w0;
     history := history w0 ++ [<[new_id := pending_record]> (extractions w0)] |}.

Lemma createExtractionResult_run :
  createExtractionResult url w0 = (Val pending_record, created).
Proof. reflexivity. Qed.

(** the world at the end of the run *)
Definition final : World ExtractionResult :=
  snd (startExtraction url includePayloads includeSourcePage w0).

Definition processing_record : ExtractionResult :=
  spread pending_record (status_update processing).

Definition failed_record (e : JsValue) : ExtractionResult :=
  spread processing_record (failed_update (error_message e)).

(** The run when the request of the root page rejects. *)
Lemma startExtraction_rejected e :
  axios_get_page url = Rejected e ->
  let m1 := <[new_id := pending_record]> (extractions w0) in
  let m2 := <[new_id := processing_record]> m1 in
  let m3 := <[new_id := failed_record e]> m2 in
  final =
    {| extractions := m3; uuids := S (uuids w0); requests := requests w0 ++ [url];
       console := console w0 ++ [("Extraction failed:", Some e)];
       history := ((history w0 ++ [m1]) ++ [m2]) ++ [m3] |}.
Proof.
  intros Hpage. unfold final, startExtraction.
  rewrite (bind_val _ _ _ _ _ createExtractionResult_run).
  assert (Hr : extractions created !! new_id = Some pending_record)
    by apply lookup_insert_eq.
  cbn [res_id pending_record].
  pose proof (extractWebsiteFiles_rejected new_id includeSourcePage created pending_record
                url includePayloads e Hr Hpage) as E.
  unfold bind at 1. rewrite (try_catch_throw _ _ _ _ _ E).
  unfold bind at 1, console_error, not_awaited.
  cbn [extractions uuids requests console history created fst snd].
  rewrite (updateExtractionResult_present _ new_id processing_record);
    [reflexivity|apply lookup_insert_eq].
Qed.

(** the world when the request of the root page has left *)
Definition asked : World ExtractionResult :=
  snd (note_request url
         (put (<[new_id := processing_record]> (extractions created)) created)).

Lemma asked_record : extractions asked !! new_id = Some processing_record.
Proof. apply lookup_insert_eq. Qed.

(** The run when the request of the root page resolves, from the outcome
    [res] of the stages that follow: the last write sets the status
    [completed] when they return, and the status [failed] with the message
    of what they throw otherwise. *)
Lemma final_resolved mainResponse res w3 r3 :
  axios_get_page url = Resolved mainResponse ->
  scan_and_fetch new_id url includePayloads includeSourcePage (data mainResponse) asked
  = (res, w3) ->
  extractions w3 !! new_id = Some r3 ->
  final =
    match res with
    | Val _ => put (<[new_id := spread r3 (status_update completed)]> (extractions w3)) w3
    | Throw e =>
        put (<[new_id := spread r3 (failed_update (error_message e))]> (extractions w3))
          (snd (console_error "Extraction failed:" e w3))
    end.
Proof.
  intros Hpage E3 Hr3. unfold final, startExtraction.
  rewrite (bind_val _ _ _ _ _ createExtractionResult_run).
  cbn [res_id pending_record].
  assert (Hc : extractions created !! new_id = Some pending_record)
    by apply lookup_insert_eq.
  pose proof (updateExtractionResult_present _ new_id _ (status_update processing) Hc) as E1.
  unfold extractWebsiteFiles. unfold bind at 1.
  destruct res as [[]|e].
  - pose proof (updateExtractionResult_present _ new_id _ (status_update completed) Hr3) as E4.
    rewrite (try_catch_val _ _ _ tt
               (put (<[new_id := spread r3 (status_update completed)]> (extractions w3)) w3));
      [reflexivity|].
    rewrite (bind_val _ _ _ _ _ E1). apply try_catch_val.
    rewrite (bind_val _ _ _ tt asked) by reflexivity. rewrite Hpage.
    rewrite (bind_val _ _ _ _ _ E3), (bind_val _ _ _ _ _ E4). reflexivity.
  - rewrite (try_catch_throw _ _ _ e w3).
    + unfold bind at 1, console_error at 1, not_awaited.
      cbn [fst snd].
      rewrite (updateExtractionResult_present _ new_id r3); [reflexivity|exact Hr3].
    + rewrite (bind_val _ _ _ _ _ E1).
      rewrite (try_catch_throw _ _ _ e w3); [reflexivity|].
      rewrite (bind_val _ _ _ tt asked) by reflexivity. rewrite Hpage.
      rewrite (bind_throw _ _ _ _ _ E3). reflexivity.
Qed.

Section Invariant.
Variables (K : ExtractionResult -> Prop) (PF : ExtractedFile -> Prop).
Hypothesis K_added : forall r f, K r -> PF f -> K (added r f).
Hypothesis K_status : forall r s, K r -> K (spread r (status_update s)).
Hypothesis K_failed : forall r msg, K r -> K (spread r (failed_update msg)).
Hypothesis K_pending : K pending_record.
Hypothesis PF_script : forall n i c, PF (inlineScriptFile n i c).
Hypothesis PF_style : forall n i c, PF (inlineStyleFile n i c).
Hypothesis PF_asset : forall p i c s ct, PF (assetFile p i c s ct).
Hypothesis PF_payload : forall n i u r, PF (payloadFile n i u r).
Hypothesis PF_source : includeSourcePage = true -> forall i c, PF (sourcePageFile i c).

Lemma created_Inv : Inv K new_id (history w0) created.
Proof.
  split.
  - exists pending_record. split; [apply lookup_insert_eq|exact K_pending].
  - eexists. split; [reflexivity|]. constructor; [|constructor].
    intros r Hr. rewrite lookup_insert_eq in Hr. congruence.
Qed.

(** In every run the record is there at the end with [K], and [K] held
    after every write of the run. *)
Lemma startExtraction_Inv : Inv K new_id (history w0) final.
Proof.
  unfold final, startExtraction.
  rewrite (bind_val _ _ _ _ _ createExtractionResult_run).
  cbn [res_id pending_record].
  lazymatch goal with
  | |- Inv _ _ _ (snd (?m created)) =>
      enough (Hk : keeps (Inv K new_id (history w0)) m) by apply Hk, created_Inv
  end.
  apply keeps_bind; [|intros _; apply ok_keeps, ok_ret].
  apply keeps_try_catch.
  { apply (keeps_extractWebsiteFiles K PF new_id (history w0) K_added K_status
             PF_script PF_style PF_asset PF_payload includeSourcePage PF_source). }
  intros e.
  apply keeps_bind; [apply ok_keeps, ok_console_error, Inv_stable|intros _].
  apply ok_keeps, ok_not_awaited.
  intros w [[r [Hr HK]] Hh].
  rewrite (updateExtractionResult_present _ _ _ _ Hr). cbn [snd].
  apply (Inv_put K new_id (history w0) w r); [exact Hr|split; eauto|apply K_failed, HK].
Qed.
End Invariant.
End RoutesRun.

(** ** Invariants and runs of the standalone server *)

Section ServerInvariant.
Context `{Runtime}.
Variables (K : Server.Extraction -> Prop) (PF : Server.File -> Prop).
Variables (id : string) (h0 : list (gmap string Server.Extraction)).
Hypothesis K_push : forall e f, K e -> PF f -> K (Server.push f e).

Definition server_holds_in (m : gmap string Server.Extraction) : Prop :=
  forall e, m !! id = Some e -> K e.

Definition SInv (w : World Server.Extraction) : Prop :=
  (exists e, extractions w !! id = Some e /\ K e) /\
  exists since, history w = h0 ++ since /\ Forall server_holds_in since.

Lemma SInv_stable : stable SInv.
Proof. intros w w' He Hh HI. unfold SInv in *. rewrite He, Hh. exact HI. Qed.

Lemma write_present (w : World Server.Extraction) e f :
  extractions w !! id = Some e ->
  Server.write id f w = (Val tt, put (<[id := f e]> (extractions w)) w).
Proof. intros He. unfold Server.write, bind, get_store. rewrite He. reflexivity. Qed.

Lemma SInv_put w e' :
  SInv w -> K e' -> SInv (put (<[id := e']> (extractions w)) w).
Proof.
  intros [_ [since [Hh Hs]]] HK. split; cbn.
  - exists e'. split; [apply lookup_insert_eq|exact HK].
  - exists (since ++ [<[id := e']> (extractions w)]).
    rewrite Hh, app_assoc. split; [reflexivity|].
    apply Forall_app. split; [exact Hs|].
    constructor; [|constructor].
    intros e1 He1. rewrite lookup_insert_eq in He1. congruence.
Qed.

Lemma ok_write f : (forall e, K e -> K (f e)) -> ok SInv (Server.write id f).
Proof.
  intros Hf w HI. pose proof HI as [[e [He HK]] _].
  rewrite (write_present w e f He). cbn [fst snd].
  split; [|exists tt; reflexivity].
  apply SInv_put; [exact HI|apply Hf, HK].
Qed.

Lemma ok_push f : PF f -> ok SInv (Server.write id (Server.push f)).
Proof. intros Hf. apply ok_write. intros e He. apply K_push; assumption. Qed.

Lemma ok_server_uuid : ok SInv Server.fresh_uuid.
Proof. unfold Server.fresh_uuid. pose proof SInv_stable. repeat hoare_step. Qed.

Hypothesis PF_script :
  forall n i c, PF (Server.inlineFile "js" "js" "application/javascript" n i c).
Hypothesis PF_style : forall n i c, PF (Server.inlineFile "css" "css" "text/css" n i c).
Hypothesis PF_asset : forall u n i t b, PF (Server.assetFile u n i t b).
Variable includeSourcePage : bool.
Hypothesis PF_source : includeSourcePage = true -> forall i c, PF (Server.sourceFile i c).

Ltac stage :=
  pose proof SInv_stable;
  repeat first [ hoare_step | apply ok_server_uuid | apply ok_push; auto ].

Lemma ok_server_inline_script el : ok SInv (Server.inline_script id el).
Proof. unfold Server.inline_script. stage. Qed.

Lemma ok_server_inline_style el : ok SInv (Server.inline_style id el).
Proof. unfold Server.inline_style. stage. Qed.

Lemma ok_fetch_asset assetUrl : ok SInv (Server.fetch_asset id assetUrl).
Proof. unfold Server.fetch_asset. stage. Qed.

Lemma keeps_server_scan_and_fetch url includePayloads content :
  keeps SInv (Server.scan_and_fetch id url includePayloads includeSourcePage content).
Proof.
  unfold Server.scan_and_fetch.
  apply keeps_bind; [apply keeps_lift|intros doc]. cbv zeta.
  apply keeps_bind;
    [apply ok_keeps, ok_for_each; intros; apply ok_server_inline_script|intros _].
  apply keeps_bind;
    [apply ok_keeps, ok_for_each; intros; apply ok_server_inline_style|intros _].
  apply keeps_bind.
  { unfold Server.add_source_page.
    destruct includeSourcePage eqn:Hs; [|apply ok_keeps, ok_ret].
    apply keeps_bind; [apply ok_keeps, ok_server_uuid|intros i].
    destruct content; try apply keeps_throw.
    apply ok_keeps, ok_push, PF_source; reflexivity. }
  intros _. apply ok_keeps.
  destruct includePayloads; [|apply ok_ret].
  apply ok_for_each; intros; apply ok_fetch_asset.
Qed.
End ServerInvariant.

Section ServerRun.
Context `{Runtime}.
Variables (w0 : World Server.Extraction) (url : string).
Variables (includePayloads includeSourcePage : bool).

Definition server_new_id : string := randomUUID (uuids w0).

Definition server_pending : Server.Extraction :=
  {| Server.ext_id := server_new_id; Server.ext_url := url; Server.ext_status := pending;
     Server.ext_files := []; Server.ext_totalSize := 0; Server.ext_totalFiles := 0;
     Server.ext_extractedAt := Date_now; Server.ext_error := None |}.

Definition server_created : World Server.Extraction :=
  {| extractions := <[server_new_id := server_pending]> (extractions w0);
     uuids := S (uuids w0); requests := requests w0; console := console w0;
     history := history w0 ++ [<[server_new_id := server_pending]> (extractions w0)] |}.

Definition server_final : World Server.Extraction :=
  snd (Server.startExtraction url includePayloads includeSourcePage w0).

Definition server_failed (e : JsValue) : Server.Extraction :=
  Server.with_error (error_message e)
    (Server.with_status failed (Server.with_status processing server_pending)).

Lemma server_start_unfold :
  server_final =
  snd (try_catch
         (Server.extractWebsiteFiles server_new_id url includePayloads includeSourcePage)
         (fun error =>
            console_error "Extraction failed:" error ;;;
            Server.write server_new_id (Server.with_status failed) ;;;
            Server.write server_new_id (Server.with_error (error_message error)))
         server_created).
Proof.
  unfold server_final, Server.startExtraction.
  unfold bind at 1, next_uuid. unfold bind at 1, get_store. unfold bind at 1, set_store.
  cbn [extractions uuids requests console history Server.ext_id].
  change {| extractions := _; uuids := _; requests := _; console := _; history := _ |}
    with server_created.
  unfold bind at 1.
  destruct (try_catch _ _ server_created) as [[u|e] w]; reflexivity.
Qed.

(** The run when the request of the root page rejects. *)
Lemma server_rejected e :
  axios_get_page url = Rejected e ->
  extractions server_final !! server_new_id = Some (server_failed e) /\
  requests server_final = requests w0 ++ [url] /\
  uuids server_final = S (uuids w0).
Proof.
  intros Hpage. rewrite server_start_unfold.
  assert (Hc : extractions server_created !! server_new_id = Some server_pending)
    by apply lookup_insert_eq.
  pose proof (write_present server_new_id server_created _
                (Server.with_status processing) Hc) as E1.
  set (w1 := put _ server_created) in E1.
  set (w2 := snd (note_request url w1)).
  set (w3 := snd (console_error "Extraction failed:" e w2)).
  assert (H3 : extractions w3 !! server_new_id
               = Some (Server.with_status processing server_pending))
    by apply lookup_insert_eq.
  pose proof (write_present server_new_id w3 _ (Server.with_status failed) H3) as E4.
  set (w4 := put _ w3) in E4.
  assert (H4 : extractions w4 !! server_new_id
               = Some (Server.with_status failed
                         (Server.with_status processing server_pending)))
    by apply lookup_insert_eq.
  pose proof (write_present server_new_id w4 _
                (Server.with_error (error_message e)) H4) as E5.
  set (w5 := put _ w4) in E5.
  assert (Erun : try_catch
         (Server.extractWebsiteFiles server_new_id url includePayloads includeSourcePage)
         (fun error =>
            console_error "Extraction failed:" error ;;;
            Server.write server_new_id (Server.with_status failed) ;;;
            Server.write server_new_id (Server.with_error (error_message error)))
         server_created = (Val tt, w5)).
  { apply try_catch_val. unfold Server.extractWebsiteFiles.
    unfold bind at 1, get_store. rewrite Hc.
    rewrite (bind_val _ _ _ _ _ E1).
    rewrite (try_catch_throw _ _ w1 e w2).
    - rewrite (bind_val _ _ w2 tt w3) by reflexivity.
      rewrite (bind_val _ _ _ _ _ E4). exact E5.
    - rewrite (bind_val _ _ w1 tt w2) by reflexivity.
      rewrite Hpage. reflexivity. }
  rewrite Erun. cbn [snd]. subst w5. cbn [put extractions requests uuids].
  split; [apply lookup_insert_eq|]. split; reflexivity.
Qed.

(** the world after the write [f] to the object [e] of the extraction *)
Definition wrote (f : Server.Extraction -> Server.Extraction) (e : Server.Extraction)
    (w : World Server.Extraction) : World Server.Extraction :=
  put (<[server_new_id := f e]> (extractions w)) w.

(** the world when the request of the root page has left *)
Definition server_asked : World Server.Extraction :=
  snd (note_request url (wrote (Server.with_status processing) server_pending server_created)).

Lemma server_asked_record :
  extractions server_asked !! server_new_id
  = Some (Server.with_status processing server_pending).
Proof. apply lookup_insert_eq. Qed.

(** The run when the request of the root page resolves, from the outcome
    [res] of the stages that follow: three writes set the status
    [completed] and the totals when they return, two writes set the status
    [failed] and the error otherwise. *)
Lemma server_final_resolved mainResponse res w3 e3 :
  axios_get_page url = Resolved mainResponse ->
  Server.scan_and_fetch server_new_id url includePayloads includeSourcePage
    (data mainResponse) server_asked = (res, w3) ->
  extractions w3 !! server_new_id = Some e3 ->
  server_final =
    match res with
    | Val _ =>
        wrote Server.sum_files (Server.count_files (Server.with_status completed e3))
          (wrote Server.count_files (Server.with_status completed e3)
             (wrote (Server.with_status completed) e3 w3))
    | Throw e =>
        wrote (Server.with_error (error_message e)) (Server.with_status failed e3)
          (wrote (Server.with_status failed) e3
             (snd (console_error "Extraction failed:" e w3)))
    end.
Proof.
  intros Hpage E3 He3. rewrite server_start_unfold.
  assert (Hc : extractions server_created !! server_new_id = Some server_pending)
    by apply lookup_insert_eq.
  pose proof (write_present server_new_id server_created _
                (Server.with_status processing) Hc) as E1.
  unfold Server.extractWebsiteFiles.
  destruct res as [[]|e].
  - pose proof (write_present server_new_id w3 e3 (Server.with_status completed) He3) as E4.
    fold (wrote (Server.with_status completed) e3 w3) in E4.
    set (w4 := wrote (Server.with_status completed) e3 w3) in *.
    assert (He5 : extractions w4 !! server_new_id = Some (Server.with_status completed e3))
      by apply lookup_insert_eq.
    pose proof (write_present server_new_id w4 _ Server.count_files He5) as E5.
    fold (wrote Server.count_files (Server.with_status completed e3) w4) in E5.
    set (w5 := wrote Server.count_files (Server.with_status completed e3) w4) in *.
    assert (He6 : extractions w5 !! server_new_id
                  = Some (Server.count_files (Server.with_status completed e3)))
      by apply lookup_insert_eq.
    pose proof (write_present server_new_id w5 _ Server.sum_files He6) as E6.
    rewrite (try_catch_val _ _ _ tt
               (wrote Server.sum_files
                  (Server.count_files (Server.with_status completed e3)) w5));
      [reflexivity|].
    unfold bind at 1, get_store. rewrite Hc.
    rewrite (bind_val _ _ _ _ _ E1). apply try_catch_val.
    rewrite (bind_val _ _ _ tt server_asked) by reflexivity. rewrite Hpage.
    rewrite (bind_val _ _ _ _ _ E3), (bind_val _ _ _ _ _ E4), (bind_val _ _ _ _ _ E5).
    exact E6.
  - set (w3' := snd (console_error "Extraction failed:" e w3)).
    assert (H3 : extractions w3' !! server_new_id = Some e3) by exact He3.
    pose proof (write_present server_new_id w3' _ (Server.with_status failed) H3) as E4.
    fold (wrote (Server.with_status failed) e3 w3') in E4.
    set (w4 := wrote (Server.with_status failed) e3 w3') in *.
    assert (H4 : extractions w4 !! server_new_id = Some (Server.with_status failed e3))
      by apply lookup_insert_eq.
    pose proof (write_present server_new_id w4 _
                  (Server.with_error (error_message e)) H4) as E5.
    rewrite (try_catch_val _ _ _ tt
               (wrote (Server.with_error (error_message e))
                  (Server.with_status failed e3) w4));
      [reflexivity|].
    unfold bind at 1, get_store. rewrite Hc.
    rewrite (bind_val _ _ _ _ _ E1).
    rewrite (try_catch_throw _ _ _ e w3).
    + rewrite (bind_val _ _ w3 tt w3') by reflexivity.
      rewrite (bind_val _ _ _ _ _ E4). exact E5.
    + rewrite (bind_val _ _ _ tt server_asked) by reflexivity. rewrite Hpage.
      rewrite (bind_throw _ _ _ _ _ E3). reflexivity.
Qed.

Section Invariant.
Variables (K : Server.Extraction -> Prop) (PF : Server.File -> Prop).
Hypothesis K_push : forall e f, K e -> PF f -> K (Server.push f e).
Hypothesis K_files :
  forall e e', Server.ext_files e' = Server.ext_files e -> K e -> K e'.
Hypothesis K_pending : K server_pending.
Hypothesis PF_script :
  forall n i c, PF (Server.inlineFile "js" "js" "application/javascript" n i c).
Hypothesis PF_style : forall n i c, PF (Server.inlineFile "css" "css" "text/css" n i c).
Hypothesis PF_asset : forall u n i t b, PF (Server.assetFile u n i t b).
Hypothesis PF_source :
  includeSourcePage = true -> forall i c, PF (Server.sourceFile i c).

Lemma server_created_SInv : SInv K server_new_id (history w0) server_created.
Proof.
  split.
  - exists server_pending. split; [apply lookup_insert_eq|exact K_pending].
  - eexists. split; [reflexivity|]. constructor; [|constructor].
    intros r Hr. rewrite lookup_insert_eq in Hr. congruence.
Qed.

Let I := SInv K server_new_id (history w0).

Lemma ok_meta f :
  (forall e, Server.ext_files (f e) = Server.ext_files e) ->
  ok I (Server.write server_new_id f).
Proof.
  intros Hf. apply ok_write. intros e He. apply (K_files e); [apply Hf|exact He].
Qed.

(** the [catch] clause of [extractWebsiteFiles] *)
Lemma server_caught w e4 e :
  I w -> extractions w !! server_new_id = Some e4 ->
  exists w',
    (console_error "Extraction failed:" e ;;;
     Server.write server_new_id (Server.with_status failed) ;;;
     Server.write server_new_id (Server.with_error (error_message e))) w = (Val tt, w') /\
    I w' /\
    extractions w' !! server_new_id
    = Some (Server.with_error (error_message e) (Server.with_status failed e4)).
Proof.
  intros HI He4.
  assert (HK4 : K e4) by (destruct HI as [[e' [He' HK']] _]; congruence).
  set (w3 := snd (console_error "Extraction failed:" e w)).
  assert (HI3 : I w3) by (apply (SInv_stable K _ _ w); [reflexivity|reflexivity|exact HI]).
  assert (H3 : extractions w3 !! server_new_id = Some e4) by exact He4.
  pose proof (write_present server_new_id w3 _ (Server.with_status failed) H3) as E4.
  set (w4 := put _ w3) in E4.
  assert (H4 : extractions w4 !! server_new_id = Some (Server.with_status failed e4))
    by apply lookup_insert_eq.
  pose proof (write_present server_new_id w4 _
                (Server.with_error (error_message e)) H4) as E5.
  set (w5 := put _ w4) in E5.
  exists w5. split.
  { rewrite (bind_val _ _ w tt w3) by reflexivity.
    rewrite (bind_val _ _ _ _ _ E4). exact E5. }
  split; [|subst w5; cbn; apply lookup_insert_eq].
  subst w5 w4. repeat apply SInv_put; try exact HI3;
    apply (K_files e4); try reflexivity; exact HK4.
Qed.

(** Every run ends with the record of the extraction under [K].  The
    three last writes of a run that goes through set the status and
    recompute the totals; the two last writes of a run that fails set the
    status and the error. *)
Lemma server_run :
  I server_final /\
  exists e4, K e4 /\
    (extractions server_final !! server_new_id
     = Some (Server.sum_files (Server.count_files (Server.with_status completed e4))) \/
     exists msg, extractions server_final !! server_new_id
                 = Some (Server.with_error msg (Server.with_status failed e4))).
Proof.
  rewrite server_start_unfold.
  assert (Hc : extractions server_created !! server_new_id = Some server_pending)
    by apply lookup_insert_eq.
  pose proof server_created_SInv as HI0.
  destruct (ok_run I _ server_created (ok_meta (Server.with_status processing)
              (fun _ => eq_refl)) HI0) as (u1 & w1 & E1 & HI1).
  destruct (ok_run I _ w1 (ok_note_request _ url (SInv_stable K _ _)) HI1)
    as (u2 & w2 & E2 & HI2).
  set (handler := fun error : JsValue =>
         console_error "Extraction failed:" error ;;;
         Server.write server_new_id (Server.with_status failed) ;;;
         Server.write server_new_id (Server.with_error (error_message error))).
  assert (Hfail : forall w3 e, I w3 ->
            (note_request url ;;;
             match axios_get_page url with
             | Rejected e => throw e
             | Resolved mainResponse =>
                 Server.scan_and_fetch server_new_id url includePayloads includeSourcePage
                   (data mainResponse) ;;;
                 Server.write server_new_id (Server.with_status completed) ;;;
                 Server.write server_new_id Server.count_files ;;;
                 Server.write server_new_id Server.sum_files
             end) w1 = (Throw e, w3) ->
            I (snd (try_catch (Server.extractWebsiteFiles server_new_id url includePayloads
                                 includeSourcePage) handler server_created)) /\
            exists e4, K e4 /\
              exists msg,
                extractions (snd (try_catch (Server.extractWebsiteFiles server_new_id url
                                               includePayloads includeSourcePage)
                                    handler server_created)) !! server_new_id
                = Some (Server.with_error msg (Server.with_status failed e4))).
  { intros w3 e HI3 Ebody.
    pose proof HI3 as [[e4 [He4 HK4]] _].
    destruct (server_caught w3 e4 e HI3 He4) as (w5 & E5 & HI5 & He5).
    assert (Erun : try_catch (Server.extractWebsiteFiles server_new_id url includePayloads
                                includeSourcePage) handler server_created = (Val tt, w5)).
    { apply try_catch_val. unfold Server.extractWebsiteFiles.
      unfold bind at 1, get_store. rewrite Hc.
      rewrite (bind_val _ _ _ _ _ E1).
      rewrite (try_catch_throw _ _ _ _ _ Ebody). exact E5. }
    rewrite Erun. cbn [snd]. split; [exact HI5|]. exists e4. split; [exact HK4|].
    exists (error_message e). exact He5. }
  destruct (axios_get_page url) as [mainResponse|e] eqn:Hpage.
  - pose proof (keeps_server_scan_and_fetch K PF server_new_id (history w0) K_push
                  PF_script PF_style PF_asset includeSourcePage PF_source url includePayloads
                  (data mainResponse) w2 HI2) as HI3.
    destruct (Server.scan_and_fetch server_new_id url includePayloads includeSourcePage
                (data mainResponse) w2) as [[[]|e] w3] eqn:E3; cbn [snd] in HI3.
    + pose proof HI3 as [[e4 [He4 HK4]] _].
      pose proof (write_present server_new_id w3 e4 (Server.with_status completed) He4) as E4.
      set (w4 := put _ w3) in E4.
      assert (He5 : extractions w4 !! server_new_id = Some (Server.with_status completed e4))
        by apply lookup_insert_eq.
      pose proof (write_present server_new_id w4 _ Server.count_files He5) as E5.
      set (w5 := put _ w4) in E5.
      assert (He6 : extractions w5 !! server_new_id
                    = Some (Server.count_files (Server.with_status completed e4)))
        by apply lookup_insert_eq.
      pose proof (write_present server_new_id w5 _ Server.sum_files He6) as E6.
      set (w6 := put _ w5) in E6.
      assert (Erun : try_catch (Server.extractWebsiteFiles server_new_id url includePayloads
                                  includeSourcePage) handler server_created = (Val tt, w6)).
      { apply try_catch_val. unfold Server.extractWebsiteFiles.
        unfold bind at 1, get_store. rewrite Hc.
        rewrite (bind_val _ _ _ _ _ E1). apply try_catch_val.
        rewrite (bind_val _ _ _ _ _ E2), Hpage.
        rewrite (bind_val _ _ _ _ _ E3), (bind_val _ _ _ _ _ E4), (bind_val _ _ _ _ _ E5).
        exact E6. }
      fold handler. rewrite Erun. cbn [snd].
      split.
      * subst w6 w5 w4. repeat apply SInv_put; try exact HI3;
          apply (K_files e4); try reflexivity; exact HK4.
      * exists e4. split; [exact HK4|]. left. subst w6. cbn. apply lookup_insert_eq.
    + fold handler.
      destruct (Hfail w3 e HI3) as [HI (e4 & HK4 & msg & He)].
      { rewrite (bind_val _ _ _ _ _ E2). rewrite (bind_throw _ _ _ _ _ E3). reflexivity. }
      split; [exact HI|]. exists e4. split; [exact HK4|]. right. exists msg. exact He.
  - fold handler.
    destruct (Hfail w2 e HI2) as [HI (e4 & HK4 & msg & He)].
    { rewrite (bind_val _ _ _ _ _ E2). reflexivity. }
    split; [exact HI|]. exists e4. split; [exact HK4|]. right. exists msg. exact He.
Qed.
End Invariant.
End ServerRun.

(** ** The source page *)

Definition not_index (path : string) : Prop := path <> "index.html".

(** two strings that differ on their first characters *)
Ltac differ :=
  unfold not_index; cbn;
  let E := fresh "E" in intros E; inversion E.

Lemma folder_path_not_index (t : FileType) (fileName : string) :
  not_index (getFolderPath t +:+ "/" +:+ fileName).
Proof. destruct t; differ. Qed.

Lemma server_folder_not_index (t fileName : string) :
  not_index (Server.folder_of t +:+ "/" +:+ fileName).
Proof.
  unfold Server.folder_of.
  repeat match goal with |- context [if ?b then _ else _] => destruct b end; differ.
Qed.

(** C9: when the source page is not asked for, no file of the extraction
    has the path [index.html] at the end of the run, whatever the other
    option and the page; in [routes.ts] and in the standalone server. *)
Theorem no_index_without_source_page `{Runtime}
    (w0 : World ExtractionResult) (s0 : World Server.Extraction)
    (url : string) (includePayloads : bool) :
  (exists r, extractions (final w0 url includePayloads false) !! new_id w0 = Some r /\
             Forall (fun f => not_index (file_path f)) (res_files r)) /\
  (exists e, extractions (server_final s0 url includePayloads false) !! server_new_id s0
             = Some e /\
             Forall (fun f => not_index (Server.file_path f)) (Server.ext_files e)).
Proof.
  split.
  - pose (K := fun r => Forall (fun f => not_index (file_path f)) (res_files r)).
    pose (PF := fun f => not_index (file_path f)).
    assert (HI : Inv K (new_id w0) (history w0) (final w0 url includePayloads false)).
    { apply (startExtraction_Inv w0 url includePayloads false K PF).
      - intros r f Hr Hf. unfold K. cbn. apply Forall_app. split; [exact Hr|].
        constructor; [exact Hf|constructor].
      - intros r s Hr. exact Hr.
      - intros r msg Hr. exact Hr.
      - constructor.
      - intros n i c. unfold PF. differ.
      - intros n i c. unfold PF. differ.
      - intros p i c s ct. apply folder_path_not_index.
      - intros n i u r. unfold PF. differ.
      - discriminate. }
    destruct HI as [[r [Hr HK]] _]. exists r. split; assumption.
  - pose (K := fun e => Forall (fun f => not_index (Server.file_path f)) (Server.ext_files e)).
    pose (PF := fun f => not_index (Server.file_path f)).
    destruct (server_run s0 url includePayloads false K PF) as [[[e [He HK]] _] _].
    + intros e f He Hf. unfold K. cbn. apply Forall_app. split; [exact He|].
      constructor; [exact Hf|constructor].
    + intros e e' Hfiles He. unfold K in *. rewrite Hfiles. exact He.
    + constructor.
    + intros n i c. unfold PF. differ.
    + intros n i c. unfold PF. differ.
    + intros u n i t b. apply server_folder_not_index.
    + discriminate.
    + exists e. split; assumption.
Qed.

(** ** The totals *)

Lemma server_sum_list_sum (files : list Server.File) :
  fold_left (fun total file => total + Server.file_size file) files 0
  = list_sum (map Server.file_size files).
Proof.
  enough (forall n, fold_left (fun total file => total + Server.file_size file) files n
                    = n + list_sum (map Server.file_size files)) as E by apply (E 0).
  induction files as [|f files IH]; intros n; simpl; [lia|].
  rewrite IH. lia.
Qed.

(** C2, as amended.  In [routes.ts] every change of [files] goes through
    [addFileToExtraction], which recomputes both totals from the whole
    sequence, whatever they were; so after every write of a run, and at its
    end, [totalFiles] is the length of [files] and [totalSize] the sum of
    their sizes.  The standalone server recomputes the totals once, from
    the whole sequence, when it sets the status [completed]: a completed
    result has the totals of its files. *)
Theorem totals_recomputed `{Runtime}
    (w : World ExtractionResult) (id : string) (extraction : ExtractionResult)
    (file : ExtractedFile)
    (w0 : World ExtractionResult) (s0 : World Server.Extraction)
    (url : string) (includePayloads includeSourcePage : bool) :
  extractions w !! id = Some extraction ->
  (exists w' r',
     addFileToExtraction id file w = (Val tt, w') /\
     extractions w' !! id = Some r' /\
     res_files r' = res_files extraction ++ [file] /\ totals_ok r') /\
  (exists since r,
     history (final w0 url includePayloads includeSourcePage) = history w0 ++ since /\
     Forall (holds_in totals_ok (new_id w0)) since /\
     extractions (final w0 url includePayloads includeSourcePage) !! new_id w0 = Some r /\
     totals_ok r) /\
  (exists e,
     extractions (server_final s0 url includePayloads includeSourcePage) !! server_new_id s0
     = Some e /\
     (Server.ext_status e = completed -> Server.totals_ok e)).
Proof.
  intros Hid. split; [|split].
  - rewrite (addFileToExtraction_present _ _ _ _ Hid).
    eexists _, _. split; [reflexivity|]. cbn.
    split; [apply lookup_insert_eq|]. split; [reflexivity|apply added_totals_ok].
  - destruct (startExtraction_Inv w0 url includePayloads includeSourcePage totals_ok
                (fun _ => True)) as [[r [Hr HK]] [since [Hh Hs]]].
    + intros r f _ _. apply added_totals_ok.
    + intros r s Hr. exact Hr.
    + intros r msg Hr. exact Hr.
    + split; reflexivity.
    + constructor.
    + constructor.
    + constructor.
    + constructor.
    + constructor.
    + exists since, r. auto.
  - destruct (server_run s0 url includePayloads includeSourcePage
                (fun _ => True) (fun _ => True)) as [_ [e4 [_ [He|[msg He]]]]]; auto.
    + eexists. split; [exact He|]. intros _.
      split; [reflexivity|]. cbn. apply server_sum_list_sum.
    + eexists. split; [exact He|]. discriminate.
Qed.

(** C2, as stated, fails on the standalone server: after the write that
    pushes the inline style of the page, the record has one file and both
    totals at zero. *)
Lemma server_totals_stale :
  exists e,
    (m ← history (server_final (H := Fixture.runtime) Fixture.w0 "https://ex.com/three" true false) !! 2;
     m !! server_new_id (H := Fixture.runtime) Fixture.w0) = Some e /\
    map Server.file_path (Server.ext_files e) = ["css/inline-style-00000001.css"] /\
    Server.ext_totalFiles e = 0 /\ Server.ext_totalSize e = 0 /\
    ~ Server.totals_ok e.
Proof.
  eexists. split; [vm_compute; reflexivity|].
  split; [reflexivity|]. split; [reflexivity|]. split; [reflexivity|].
  intros [Hn _]. discriminate Hn.
Qed.

(** An instance of [totals_recomputed]: a file added to the record that the
    handler has just created. *)
Lemma totals_recomputed_witness :
  exists w' r',
    addFileToExtraction (new_id (H := Fixture.runtime) Fixture.w0)
      (sourcePageFile "id" "<p>") (created (H := Fixture.runtime) Fixture.w0 "https://ex.com/three")
    = (Val tt, w') /\
    extractions w' !! new_id (H := Fixture.runtime) Fixture.w0 = Some r' /\
    res_files r' = [] ++ [sourcePageFile "id" "<p>"] /\ totals_ok r'.
Proof.
  refine (proj1 (totals_recomputed (H := Fixture.runtime)
            (created (H := Fixture.runtime) Fixture.w0 "https://ex.com/three")
            (new_id (H := Fixture.runtime) Fixture.w0)
            (pending_record (H := Fixture.runtime) Fixture.w0 "https://ex.com/three")
            (sourcePageFile "id" "<p>") Fixture.w0 Fixture.w0 "https://ex.com/three" true true _)).
  vm_compute. reflexivity.
Defined.

(** ** Stored content and size *)

Lemma drop_prefix_append (p s : string) : Regex.drop_prefix p (p +:+ s) = Some s.
Proof.
  induction p as [|a p IH]; [reflexivity|].
  change (String a p +:+ s) with (String a (p +:+ s)).
  cbn [Regex.drop_prefix]. rewrite Ascii.eqb_refl. exact IH.
Qed.

Lemma append_assoc_string (a b c : string) : (a +:+ b) +:+ c = a +:+ (b +:+ c).
Proof.
  induction a as [|x a IH]; [reflexivity|].
  change (String x ((a +:+ b) +:+ c) = String x (a +:+ (b +:+ c))).
  rewrite IH. reflexivity.
Qed.

Lemma binary_content_split `{Runtime} fileName (response : Response (list byte)) :
  binary_content fileName response
  = ("data:" +:+ Js.or_else (header "content-type" response) (getMimeType fileName)
     +:+ ";base64,") +:+ Base64.encode (data response).
Proof.
  unfold binary_content.
  rewrite !append_assoc_string. reflexivity.
Qed.

Lemma settle_binary `{Runtime} p (response : Response (list byte)) :
  p_isBinary p = true -> axios_get_arraybuffer (p_url p) = Resolved response ->
  settle p = Val (binary_content (p_fileName p) response, length (data response),
                  header "content-type" response).
Proof. intros Hb Hr. unfold settle. rewrite Hb, Hr. reflexivity. Qed.

Lemma settle_text `{Runtime} p (response : Response TextData) :
  p_isBinary p = false -> axios_get_text (p_url p) = Resolved response ->
  settle p = Val (text_content (data response), Js.byteLength (text_content (data response)),
                  header "content-type" response).
Proof. intros Hb Hr. unfold settle. rewrite Hb, Hr. reflexivity. Qed.


Module Examples.
Import Fixture.

Definition png : Pending :=
  {| p_url := "https://ex.com/z.png"; p_fileName := "z.png"; p_fileType := image;
     p_isBinary := true |}.

Definition script : Pending :=
  {| p_url := "https://ex.com/x.js"; p_fileName := "x.js"; p_fileType := js;
     p_isBinary := false |}.

Definition png_response : Response (list byte) :=
  {| status := 200; headers := [("content-type", "image/png")]; data := png_bytes |}.

Definition script_response : Response TextData :=
  {| status := 200; headers := [("content-type", "application/javascript")];
     data := DString "let x;" |}.

Definition api_response : Response Json :=
  {| status := 200; headers := [("content-type", "application/json")]; data := JNum 1 |}.

End Examples.


(** C1, as amended.  The [size] of an inline script, of an inline style,
    of the source page and of a text asset is the byte length of the
    [content] as stored.  The [size] of a binary asset is the number of
    bytes of the response, before the encoding that [content] holds; the
    [size] of a payload file is the byte length of the compact JSON of the
    data of the response, while [content] is the indented JSON of the data
    wrapped with the URL, the status and the headers. *)
Theorem size_of_stored_files `{Runtime} (p q : Pending) (fileName id text apiUrl : string)
    (response : Response (list byte)) (textResponse : Response TextData)
    (apiResponse : Response Json) :
  p_isBinary p = true -> axios_get_arraybuffer (p_url p) = Resolved response ->
  p_isBinary q = false -> axios_get_text (p_url q) = Resolved textResponse ->
  (let f := inlineScriptFile fileName id text in file_size f = Js.byteLength (file_content f)) /\
  (let f := inlineStyleFile fileName id text in file_size f = Js.byteLength (file_content f)) /\
  (let f := sourcePageFile id text in file_size f = Js.byteLength (file_content f)) /\
  (exists content size contentType,
     settle q = Val (content, size, contentType) /\
     let f := assetFile q id content size contentType in
     file_size f = Js.byteLength (file_content f)) /\
  (exists content size contentType,
     settle p = Val (content, size, contentType) /\
     let f := assetFile p id content size contentType in
     file_size f = length (data response) /\
     file_content f = binary_content (p_fileName p) response /\
     exists encoded,
       Regex.drop_prefix ("data:" +:+ file_mimeType f +:+ ";base64,") (file_content f)
       = Some encoded /\
       (length <$> Base64.decode encoded) = Some (file_size f)) /\
  (let f := payloadFile fileName id apiUrl apiResponse in
   file_size f = Js.byteLength (JSON_stringify (data apiResponse) 0) /\
   file_content f =
     JSON_stringify
       (JObj [("url", JStr apiUrl); ("status", JNum (Z.of_nat (status apiResponse)));
              ("headers", headers_json (headers apiResponse));
              ("data", data apiResponse)]) 2).
Proof.
  intros Hb Hr Hq Ht.
  split; [reflexivity|]. split; [reflexivity|]. split; [reflexivity|].
  split; [|split].
  - eexists _, _, _. split; [apply settle_text; eassumption|reflexivity].
  - eexists _, _, _. split; [apply settle_binary; eassumption|].
    cbn zeta. cbn [file_size file_content file_mimeType assetFile].
    split; [reflexivity|]. split; [reflexivity|].
    exists (Base64.encode (data response)).
    split; [rewrite binary_content_split; apply drop_prefix_append|].
    rewrite Base64Facts.decode_encode. reflexivity.
  - split; reflexivity.
Qed.

(** C1, as stated, fails for a binary asset: the image of the example web
    has five bytes, which is its [size], and a stored [content] of thirty
    bytes. *)
Lemma binary_size_is_not_stored_length :
  exists content size contentType,
    settle (H := Fixture.runtime) Examples.png = Val (content, size, contentType) /\
    let f := assetFile Examples.png "id" content size contentType in
    file_content f = "data:image/png;base64,iVBORw0=" /\
    file_size f = 5 /\ Js.byteLength (file_content f) = 30 /\
    file_size f <> Js.byteLength (file_content f).
Proof.
  eexists _, _, _. split; [reflexivity|].
  cbn zeta. split; [reflexivity|]. split; [reflexivity|]. split; [reflexivity|].
  vm_compute. discriminate.
Qed.

(** An instance of [size_of_stored_files] on the example web. *)
Lemma size_of_stored_files_witness :
  let f := inlineScriptFile "inline-script-00000001.js" "id" "let x;" in
  file_size f = Js.byteLength (file_content f).
Proof.
  refine (proj1 (size_of_stored_files (H := Fixture.runtime) Examples.png Examples.script
            "inline-script-00000001.js" "id" "let x;" "https://ex.com/api/status"
            Examples.png_response Examples.script_response Examples.api_response _ _ _ _));
    reflexivity.
Defined.

(** ** The resolver *)

Lemma prepare_unparseable `{Runtime} (ref : string) (w : World ExtractionResult) :
  URL_new ref None = None ->
  exists w', prepare ref w = (Val None, w') /\
             extractions w' = extractions w /\ requests w' = requests w /\
             uuids w' = uuids w /\ history w' = history w.
Proof.
  intros Hnone. unfold prepare, try_catch.
  destruct (negb (Js.truthy (Some ref)) || (2000 <? Js.utf16_length ref)).
  - exists w. auto.
  - rewrite Hnone. eexists. split; [reflexivity|]. auto.
Qed.

Lemma validAssets_add_null `{Runtime} (assets : list (option string)) :
  Server.validAssets (Server.add_asset None assets) = Server.validAssets assets.
Proof.
  unfold Server.add_asset. destruct (existsb _ assets); [reflexivity|].
  unfold Server.validAssets. rewrite omap_app. cbn. apply app_nil_r.
Qed.

(** C4, as amended.  When a reference cannot be parsed against the base,
    the resolver of [routes.ts] returns the reference itself, and the
    resolver of the standalone server returns [null]; when it can, both
    return the [href] of the parsed URL.  Their callers skip such a
    reference: in [routes.ts] a reference that [new URL] rejects on its
    own as well gives no request and no file, the batch goes on; in the
    standalone server [null] is filtered out before the fetches. *)
Theorem unparseable_reference_skipped `{Runtime} (base ref : string)
    (w : World ExtractionResult) (assets : list (option string)) :
  URL_new ref (Some base) = None -> URL_new ref None = None ->
  resolveUrl base ref = ref /\
  Server.resolveUrl base ref = None /\
  (exists w', prepare (resolveUrl base ref) w = (Val None, w') /\
              extractions w' = extractions w /\ requests w' = requests w) /\
  Server.validAssets (Server.add_asset (Server.resolveUrl base ref) assets)
  = Server.validAssets assets /\
  (forall other u, URL_new other (Some base) = Some u ->
                   resolveUrl base other = href u /\
                   Server.resolveUrl base other = Some (href u)).
Proof.
  intros Hbase Halone.
  assert (E1 : resolveUrl base ref = ref) by (unfold resolveUrl; rewrite Hbase; reflexivity).
  assert (E2 : Server.resolveUrl base ref = None)
    by (unfold Server.resolveUrl; rewrite Hbase; reflexivity).
  split; [exact E1|]. split; [exact E2|]. split; [|split].
  - rewrite E1. destruct (prepare_unparseable ref w Halone) as (w' & E & He & Hr & _).
    exists w'. auto.
  - rewrite E2. apply validAssets_add_null.
  - intros other u Hu. unfold resolveUrl, Server.resolveUrl. rewrite Hu. auto.
Qed.

(** C4, as stated, fails in [routes.ts]: the reference [http://] has no
    host, it cannot be parsed, and the resolver returns it, a string. *)
Lemma resolver_returns_reference :
  URL_new (Runtime := Fixture.runtime) "http://" (Some "https://ex.com/") = None /\
  resolveUrl (H := Fixture.runtime) "https://ex.com/" "http://" = "http://" /\
  Some (resolveUrl (H := Fixture.runtime) "https://ex.com/" "http://") <> None.
Proof. split; [reflexivity|]. split; [reflexivity|discriminate]. Qed.

(** An instance of [unparseable_reference_skipped] on the example web. *)
Lemma unparseable_reference_skipped_witness :
  resolveUrl (H := Fixture.runtime) "https://ex.com/" "http://" = "http://".
Proof.
  refine (proj1 (unparseable_reference_skipped (H := Fixture.runtime) "https://ex.com/"
            "http://" Fixture.w0 [] _ _)); reflexivity.
Defined.

(** ** The failure of the root page *)

(** C6, as amended.  When the request of the root page rejects, the
    extraction ends with the status [failed], with no file, and with the
    message of the thrown error as [error] (the text [Unknown error] when
    the thrown value is not an error); this text is not empty when the
    message is not.  The run has made the request of the root page and no
    other, and has drawn the id of the extraction and no other. *)
Theorem root_failure_fails_extraction `{Runtime}
    (w0 : World ExtractionResult) (s0 : World Server.Extraction)
    (url : string) (includePayloads includeSourcePage : bool) (e : JsValue) :
  axios_get_page url = Rejected e ->
  (exists r,
     extractions (final w0 url includePayloads includeSourcePage) !! new_id w0 = Some r /\
     res_status r = failed /\ res_error r = Some (error_message e) /\ res_files r = [] /\
     (error_message e <> EmptyString -> res_error r <> Some EmptyString) /\
     requests (final w0 url includePayloads includeSourcePage) = requests w0 ++ [url] /\
     uuids (final w0 url includePayloads includeSourcePage) = S (uuids w0)) /\
  (exists x,
     extractions (server_final s0 url includePayloads includeSourcePage) !! server_new_id s0
     = Some x /\
     Server.ext_status x = failed /\ Server.ext_error x = Some (error_message e) /\
     Server.ext_files x = [] /\
     (error_message e <> EmptyString -> Server.ext_error x <> Some EmptyString) /\
     requests (server_final s0 url includePayloads includeSourcePage) = requests s0 ++ [url] /\
     uuids (server_final s0 url includePayloads includeSourcePage) = S (uuids s0)).
Proof.
  intros Hpage. split.
  - rewrite (startExtraction_rejected w0 url includePayloads includeSourcePage e Hpage).
    cbn zeta. cbn [extractions requests uuids].
    exists (failed_record w0 url e). rewrite lookup_insert_eq.
    repeat split. cbn. congruence.
  - destruct (server_rejected s0 url includePayloads includeSourcePage e Hpage)
      as (Hx & Hr & Hu).
    exists (server_failed s0 url e). repeat split; try assumption. cbn. congruence.
Qed.

(** C6, as stated, fails when the thrown error has an empty message: the
    extraction fails with an empty [error]. *)
Lemma empty_error_message :
  exists r,
    extractions (final (H := Fixture.runtime) Fixture.w0 "https://ex.com/silent" true true)
      !! new_id (H := Fixture.runtime) Fixture.w0 = Some r /\
    res_status r = failed /\ res_error r = Some EmptyString.
Proof. eexists. split; [vm_compute; reflexivity|]. split; reflexivity. Qed.

(** An instance of [root_failure_fails_extraction]: the root page of the
    example web that times out. *)
Lemma root_failure_fails_extraction_witness :
  exists r,
    extractions (final (H := Fixture.runtime) Fixture.w0 "https://ex.com/down" true true)
      !! new_id (H := Fixture.runtime) Fixture.w0 = Some r /\
    res_status r = failed /\
    res_error r = Some (error_message (JsError "timeout of 15000ms exceeded")) /\
    res_files r = [] /\
    (error_message (JsError "timeout of 15000ms exceeded") <> EmptyString ->
     res_error r <> Some EmptyString) /\
    requests (final (H := Fixture.runtime) Fixture.w0 "https://ex.com/down" true true)
    = requests (Fixture.w0 (R := ExtractionResult)) ++ ["https://ex.com/down"] /\
    uuids (final (H := Fixture.runtime) Fixture.w0 "https://ex.com/down" true true)
    = S (uuids (Fixture.w0 (R := ExtractionResult))).
Proof.
  refine (proj1 (root_failure_fails_extraction (H := Fixture.runtime) Fixture.w0 Fixture.w0
            "https://ex.com/down" true true (JsError "timeout of 15000ms exceeded") _)).
  reflexivity.
Defined.

(** ** Loops that append files

    A loop whose turns each append some files to the record of one
    extraction, with a relation [T] between the worlds that holds of no
    turn and composes.  [add r fs] is the record [r] after the files [fs]
    have been appended. *)

Section Loop.
Context {R F : Type}.
Variables (add : R -> list F -> R) (id : string).
Hypothesis add_nil : forall r, add r [] = r.
Hypothesis add_app : forall r fs gs, add r (fs ++ gs) = add (add r fs) gs.
Variable T : World R -> World R -> list F -> Prop.
Hypothesis T_none : forall w, T w w [].
Hypothesis T_compose :
  forall w w1 w2 fs gs, T w w1 fs -> T w1 w2 gs -> T w w2 (fs ++ gs).

Definition turn {S A} (body : S -> A -> M (R := R) S) : Prop :=
  forall s x w r,
    extractions w !! id = Some r ->
    exists s' w' fs,
      body s x w = (Val s', w') /\
      extractions w' !! id = Some (add r fs) /\ T w w' fs.

Lemma fold_each_turns {S A} (body : S -> A -> M S) (l : list A) :
  turn body ->
  forall s w r,
    extractions w !! id = Some r ->
    exists s' w' fs,
      fold_each l s body w = (Val s', w') /\
      extractions w' !! id = Some (add r fs) /\ T w w' fs.
Proof.
  intros Hb. induction l as [|x l IH]; intros s w r Hr.
  - exists s, w, []. split; [reflexivity|]. rewrite add_nil. split; [exact Hr|apply T_none].
  - destruct (Hb s x w r Hr) as (s1 & w1 & fs & E1 & Hr1 & HT1).
    destruct (IH s1 w1 _ Hr1) as (s2 & w2 & gs & E2 & Hr2 & HT2).
    exists s2, w2, (fs ++ gs).
    split; [cbn [fold_each]; rewrite (bind_val _ _ _ _ _ E1); exact E2|].
    split; [rewrite add_app; exact Hr2|].
    eapply T_compose; eassumption.
Qed.

Lemma for_each_turns {A} (body : A -> M unit) (l : list A) :
  turn (fun _ : unit => body) ->
  forall w r,
    extractions w !! id = Some r ->
    exists w' fs,
      for_each l body w = (Val tt, w') /\
      extractions w' !! id = Some (add r fs) /\ T w w' fs.
Proof.
  intros Hb. induction l as [|x l IH]; intros w r Hr.
  - exists w, []. split; [reflexivity|]. rewrite add_nil. split; [exact Hr|apply T_none].
  - destruct (Hb tt x w r Hr) as ([] & w1 & fs & E1 & Hr1 & HT1).
    destruct (IH w1 _ Hr1) as (w2 & gs & E2 & Hr2 & HT2).
    exists w2, (fs ++ gs).
    split; [cbn [for_each]; rewrite (bind_val _ _ _ _ _ E1); exact E2|].
    split; [rewrite add_app; exact Hr2|].
    eapply T_compose; eassumption.
Qed.
End Loop.

(** ** What the batches fetch and store *)

Section Batches.
Context `{Runtime}.
Variable id : string.

(** the guards of [prepare]: the asset URLs for which a request leaves *)
Definition requested (assetUrl : string) : bool :=
  negb (negb (Js.truthy (Some assetUrl)) || (2000 <? Js.utf16_length assetUrl))
  && match URL_new assetUrl None with Some _ => true | None => false end
  && negb (Js.startsWith "data:" assetUrl || (1000 <? Js.utf16_length assetUrl)).

(** the file of a pending asset whose request resolves *)
Definition stored (p : Pending) (uuid : string) : option ExtractedFile :=
  match settle p with
  | Val (content, size, contentType) => Some (assetFile p uuid content size contentType)
  | Throw _ => None
  end.

(** the record after [addFileToExtraction] for each file of a list *)
Definition add_all (r : ExtractionResult) (files : list ExtractedFile) : ExtractionResult :=
  fold_left added files r.

Lemma add_all_files r files : res_files (add_all r files) = res_files r ++ files.
Proof.
  unfold add_all. revert r. induction files as [|f files IH]; intros r; cbn [fold_left].
  - symmetry. apply app_nil_r.
  - rewrite IH. cbn [res_files added]. rewrite <- app_assoc. reflexivity.
Qed.


Lemma add_all_app r fs gs : add_all r (fs ++ gs) = add_all (add_all r fs) gs.
Proof. apply fold_left_app. Qed.

Lemma add_all_nil r : add_all r [] = r.
Proof. reflexivity. Qed.

(** the rejection of the request of [p] is on the console *)
Definition logged (w : World ExtractionResult) (p : Pending) : Prop :=
  forall e, settle p = Throw e -> In (failed_to_download (p_url p), Some e) (console w).

Lemma logged_incl w w' p : incl (console w) (console w') -> logged w p -> logged w' p.
Proof. intros Hi Hp e He. apply Hi, Hp, He. Qed.

Lemma prepare_spec assetUrl (w : World ExtractionResult) :
  exists w' o,
    prepare assetUrl w = (Val o, w') /\
    extractions w' = extractions w /\
    requests w' = requests w ++ map p_url (option_list o) /\
    map p_url (option_list o) = (if requested assetUrl then [assetUrl] else []) /\
    incl (console w) (console w').
Proof.
  unfold prepare, requested, try_catch.
  destruct (negb (Js.truthy (Some assetUrl)) || (2000 <? Js.utf16_length assetUrl)).
  { eexists _, _. split; [reflexivity|]. cbn. rewrite app_nil_r. auto using incl_refl. }
  destruct (URL_new assetUrl None) as [urlObj|].
  2: { eexists _, _. split; [reflexivity|]. cbn. rewrite app_nil_r.
       auto using incl_appl, incl_refl. }
  unfold bind at 1.
  destruct (String.eqb _ EmptyString).
  - unfold bind at 1, fresh_uuid, bind at 1, next_uuid, ret.
    destruct (Js.startsWith "data:" assetUrl || (1000 <? Js.utf16_length assetUrl)).
    + eexists _, _. split; [reflexivity|]. cbn. rewrite app_nil_r. auto using incl_refl.
    + eexists _, _. split; [reflexivity|]. cbn. auto using incl_refl.
  - unfold ret at 1.
    destruct (Js.startsWith "data:" assetUrl || (1000 <? Js.utf16_length assetUrl)).
    + eexists _, _. split; [reflexivity|]. cbn. rewrite app_nil_r. auto using incl_refl.
    + eexists _, _. split; [reflexivity|]. cbn. auto using incl_refl.
Qed.

(** The first half of a batch: a request for each URL that passes the
    guards, in the order of the batch; the store is not written. *)
Lemma prepare_loop batch acc (w : World ExtractionResult) :
  exists w' ps,
    fold_each batch acc
      (fun acc assetUrl => p <- prepare assetUrl ;; ret (acc ++ option_list p)) w
    = (Val (acc ++ ps), w') /\
    extractions w' = extractions w /\
    requests w' = requests w ++ map p_url ps /\
    map p_url ps = filter (fun u => requested u = true) batch /\
    incl (console w) (console w').
Proof.
  revert acc w. induction batch as [|u batch IH]; intros acc w.
  - exists w, []. cbn. rewrite !app_nil_r. auto using incl_refl.
  - destruct (prepare_spec u w) as (w1 & o & E1 & He1 & Hr1 & Hu1 & Hc1).
    destruct (IH (acc ++ option_list o) w1) as (w2 & ps & E2 & He2 & Hr2 & Hu2 & Hc2).
    exists w2, (option_list o ++ ps).
    split.
    { cbn [fold_each]. unfold bind at 1. unfold bind at 1. rewrite E1. unfold ret at 1.
      rewrite E2, app_assoc. reflexivity. }
    split; [congruence|].
    split; [rewrite Hr2, Hr1, map_app, app_assoc; reflexivity|].
    split; [|eapply incl_tran; eassumption].
    rewrite map_app, Hu1, Hu2, filter_cons.
    destruct (requested u); destruct (decide _); try congruence; reflexivity.
Qed.

(** the world after a call of [randomUUID] *)
Definition bump (w : World ExtractionResult) : World ExtractionResult :=
  {| extractions := extractions w; uuids := S (uuids w); requests := requests w;
     console := console w; history := history w |}.

Lemma fresh_uuid_run (w : World ExtractionResult) :
  fresh_uuid w = (Val (randomUUID (uuids w)), bump w).
Proof. reflexivity. Qed.

(** The stage of the source page: it stores the page when the data is a
    string, it throws after one call of [randomUUID] when it is not, and it
    does nothing without the option. *)
Lemma add_source_page_text content (w : World ExtractionResult) r :
  extractions w !! id = Some r ->
  add_source_page id true (JStr content) w
  = (Val tt,
     put (<[id := added r (sourcePageFile (randomUUID (uuids w)) content)]> (extractions w))
       (bump w)).
Proof.
  intros Hr. unfold add_source_page.
  rewrite (bind_val _ _ _ _ _ (fresh_uuid_run w)).
  apply (addFileToExtraction_present (bump w) id r). exact Hr.
Qed.

Lemma add_source_page_throws content (w : World ExtractionResult) :
  is_text content = false ->
  add_source_page id true content w = (Throw (byteLength_error content), bump w).
Proof.
  intros Ht. unfold add_source_page.
  rewrite (bind_val _ _ _ _ _ (fresh_uuid_run w)).
  destruct content; try reflexivity. discriminate Ht.
Qed.

Lemma add_source_page_off content (w : World ExtractionResult) :
  add_source_page id false content w = (Val tt, w).
Proof. reflexivity. Qed.

Lemma complete_spec assets p (w : World ExtractionResult) r :
  extractions w !! id = Some r ->
  exists assets' w',
    complete id assets p w = (Val assets', w') /\
    requests w' = requests w /\
    extractions w' !! id = Some (add_all r (option_list (stored p (randomUUID (uuids w))))) /\
    incl (console w) (console w') /\ logged w' p.
Proof.
  intros Hr. unfold complete, stored, logged, try_catch.
  destruct (settle p) as [[[content size] contentType]|e].
  - rewrite (bind_val _ _ _ _ _ (fresh_uuid_run w)).
    assert (Hb : extractions (bump w) !! id = Some r) by exact Hr.
    rewrite (bind_val _ _ _ _ _ (addFileToExtraction_present _ id r _ Hb)).
    destruct (is_css _ && _ && _); eexists _, _;
      (split; [reflexivity|]); cbn; rewrite lookup_insert_eq;
      (split; [reflexivity|]); (split; [reflexivity|]);
      (split; [apply incl_refl|]); intros e' He'; discriminate He'.
  - eexists _, _. split; [reflexivity|]. cbn.
    split; [reflexivity|]. split; [exact Hr|].
    split; [apply incl_appl, incl_refl|].
    intros e' He'. injection He' as <-. apply in_or_app. right. left. reflexivity.
Qed.

(** The second half of a batch: one file for each pending request that
    resolves, in the order in which the requests settle, and one line on
    the console for each one that rejects. *)
Lemma complete_loop ps assets (w : World ExtractionResult) r :
  extractions w !! id = Some r ->
  exists assets' w' ids,
    fold_each ps assets (complete id) w = (Val assets', w') /\
    requests w' = requests w /\
    length ids = length ps /\
    extractions w' !! id
    = Some (add_all r (omap (fun pi => stored (fst pi) (snd pi)) (zip ps ids))) /\
    incl (console w) (console w') /\ Forall (logged w') ps.
Proof.
  revert assets w r. induction ps as [|p ps IH]; intros assets w r Hr.
  - exists assets, w, []. cbn.
    split; [reflexivity|]. split; [reflexivity|]. split; [reflexivity|].
    split; [exact Hr|]. split; [apply incl_refl|constructor].
  - destruct (complete_spec assets p w r Hr) as (a1 & w1 & E1 & Hq1 & Hr1 & Hc1 & Hl1).
    destruct (IH a1 w1 _ Hr1) as (a2 & w2 & ids & E2 & Hq2 & Hl & Hr2 & Hc2 & Hl2).
    exists a2, w2, (randomUUID (uuids w) :: ids).
    split; [cbn [fold_each]; rewrite (bind_val _ _ _ _ _ E1); exact E2|].
    split; [congruence|]. split; [cbn; congruence|].
    split; [|split; [eapply incl_tran; eassumption|]].
    + rewrite Hr2. f_equal.
      destruct (stored p (randomUUID (uuids w))) eqn:Es; cbn; rewrite Es; reflexivity.
    + constructor; [eapply logged_incl; eassumption|exact Hl2].
Qed.

Hypothesis schedule_perm : forall l, Permutation (schedule l) l.

Definition stored_pair (pi : Pending * string) : option ExtractedFile :=
  stored (fst pi) (snd pi).

(** What the loop over the batches has done between [w] and [w']: [ps]
    are the requests that left, [order] gives them in the order in which
    they settled, each with the id drawn for its file. *)
Definition fetched (w w' : World ExtractionResult) (r : ExtractionResult)
    (ps : list Pending) (order : list (Pending * string)) : Prop :=
  requests w' = requests w ++ map p_url ps /\
  Permutation (order.*1) ps /\
  extractions w' !! id = Some (add_all r (omap stored_pair order)) /\
  incl (console w) (console w') /\ Forall (logged w') ps.

(** One batch: the requests that leave, and one file for each of them that
    resolves. *)
Lemma run_batch_spec assets batch (w : World ExtractionResult) r :
  extractions w !! id = Some r ->
  exists assets' w' ps order,
    run_batch id assets batch w = (Val assets', w') /\
    map p_url ps = filter (fun u => requested u = true) batch /\
    fetched w w' r ps order.
Proof.
  intros Hr.
  destruct (prepare_loop batch [] w) as (w1 & ps & E1 & He1 & Hq1 & Hu1 & Hc1).
  assert (Hr1 : extractions w1 !! id = Some r) by (rewrite He1; exact Hr).
  destruct (complete_loop (schedule ps) assets w1 r Hr1)
    as (a2 & w2 & ids & E2 & Hq2 & Hl & Hr2 & Hc2 & Hl2).
  exists a2, w2, ps, (zip (schedule ps) ids).
  split; [unfold run_batch; rewrite (bind_val _ _ _ _ _ E1); exact E2|].
  split; [exact Hu1|].
  split; [congruence|].
  split; [rewrite fst_zip by lia; apply schedule_perm|].
  split; [exact Hr2|]. split; [eapply incl_tran; eassumption|].
  eapply Permutation_Forall; [apply schedule_perm|exact Hl2].
Qed.

Lemma batches_loop bs assets (w : World ExtractionResult) r :
  extractions w !! id = Some r ->
  exists assets' w' ps order,
    fold_each bs assets (run_batch id) w = (Val assets', w') /\
    map p_url ps = filter (fun u => requested u = true) (concat bs) /\
    fetched w w' r ps order.
Proof.
  revert assets w r. induction bs as [|b bs IH]; intros assets w r Hr.
  - exists assets, w, [], []. cbn. unfold fetched. cbn. rewrite app_nil_r.
    auto 10 using incl_refl.
  - destruct (run_batch_spec assets b w r Hr)
      as (a1 & w1 & ps1 & o1 & E1 & Hu1 & Hq1 & Hp1 & Hr1 & Hc1 & Hl1).
    destruct (IH a1 w1 _ Hr1)
      as (a2 & w2 & ps2 & o2 & E2 & Hu2 & Hq2 & Hp2 & Hr2 & Hc2 & Hl2).
    exists a2, w2, (ps1 ++ ps2), (o1 ++ o2).
    split; [cbn [fold_each]; rewrite (bind_val _ _ _ _ _ E1); exact E2|].
    split; [cbn [concat]; rewrite map_app, filter_app; congruence|].
    split; [rewrite Hq2, Hq1, map_app, app_assoc; reflexivity|].
    split; [rewrite fmap_app; apply Permutation_app; assumption|].
    split; [rewrite Hr2, omap_app, add_all_app; reflexivity|].
    split; [eapply incl_tran; eassumption|].
    apply Forall_app. split; [|exact Hl2].
    eapply Forall_impl; [exact Hl1|]. intros p Hp. eapply logged_incl; eassumption.
Qed.

Lemma concat_slices {A} (fuel n : nat) (l : list A) :
  0 < n -> length l <= fuel -> concat (slices fuel n l) = l.
Proof.
  intros Hn. revert l. induction fuel as [|fuel IH]; intros l Hl.
  - destruct l; [reflexivity|cbn in Hl; lia].
  - destruct l as [|x l]; [reflexivity|].
    cbn [slices concat]. rewrite IH.
    + apply take_drop.
    + rewrite length_drop. cbn in *. lia.
Qed.

(** The loop over the batches: the requests are those of the URLs of
    [assetArray] that pass the guards, in that order, and the files are
    those of the requests that resolve. *)
Lemma process_assets_spec assets (w : World ExtractionResult) r :
  extractions w !! id = Some r ->
  exists assets' w' ps order,
    process_assets id assets w = (Val assets', w') /\
    map p_url ps = filter (fun u => requested u = true) assets /\
    fetched w w' r ps order.
Proof.
  intros Hr. unfold process_assets.
  destruct (batches_loop (batches 10 assets) assets w r Hr)
    as (a & w' & ps & o & E & Hu & Hf).
  exists a, w', ps, o. split; [exact E|]. split; [|exact Hf].
  rewrite Hu. unfold batches. rewrite concat_slices by lia. reflexivity.
Qed.

(** *** The stages around the batches *)

(** a file that the pipeline makes from the page itself *)
Definition synthesized (f : ExtractedFile) : Prop :=
  (exists n i c, f = inlineScriptFile n i c) \/
  (exists n i c, f = inlineStyleFile n i c) \/
  (exists i c, f = sourcePageFile i c).


(** a stage that makes no request and stores synthesized files *)
Definition quiet (w w' : World ExtractionResult) (fs : list ExtractedFile) : Prop :=
  requests w' = requests w /\ console w' = console w /\ Forall synthesized fs.


Lemma quiet_none w : quiet w w [].
Proof. repeat split. constructor. Qed.

Lemma quiet_compose w w1 w2 fs gs : quiet w w1 fs -> quiet w1 w2 gs -> quiet w w2 (fs ++ gs).
Proof.
  intros (Hq1 & Hc1 & Hf1) (Hq2 & Hc2 & Hf2).
  split; [congruence|]. split; [congruence|]. apply Forall_app. auto.
Qed.



Lemma not_awaited_run {A} (m : M (R := ExtractionResult) A) w :
  not_awaited m w = (Val tt, snd (m w)).
Proof. reflexivity. Qed.

Lemma inline_script_turn url :
  turn add_all id quiet (fun assets el => inline_script id url assets el).
Proof.
  intros assets el w r Hr. unfold inline_script.
  destruct (el_html el) as [scriptContent|];
    [destruct (Js.truthy (Some scriptContent) && Js.trim_truthy scriptContent)|].
  2, 3: exists assets, w, []; split; [reflexivity|]; split; [exact Hr|apply quiet_none].
  rewrite (bind_val _ _ _ _ _ (fresh_uuid_run w)).
  rewrite (bind_val _ _ _ _ _ (fresh_uuid_run (bump w))).
  rewrite (bind_val _ _ _ _ _ (not_awaited_run _ _)).
  assert (Hb : extractions (bump (bump w)) !! id = Some r) by exact Hr.
  rewrite (addFileToExtraction_present _ id r _ Hb).
  eexists _, _, [_]. split; [reflexivity|]. cbn.
  split; [apply lookup_insert_eq|].
  repeat split. constructor; [|constructor]. left. eauto.
Qed.

Lemma inline_style_turn : turn add_all id quiet (fun _ : unit => inline_style id).
Proof.
  intros [] el w r Hr. unfold inline_style.
  destruct (el_html el) as [styleContent|];
    [destruct (Js.truthy (Some styleContent) && Js.trim_truthy styleContent)|].
  2, 3: exists tt, w, []; split; [reflexivity|]; split; [exact Hr|apply quiet_none].
  rewrite (bind_val _ _ _ _ _ (fresh_uuid_run w)).
  rewrite (bind_val _ _ _ _ _ (fresh_uuid_run (bump w))).
  rewrite not_awaited_run.
  assert (Hb : extractions (bump (bump w)) !! id = Some r) by exact Hr.
  rewrite (addFileToExtraction_present _ id r _ Hb).
  eexists _, _, [_]. split; [reflexivity|]. cbn.
  split; [apply lookup_insert_eq|].
  repeat split. constructor; [|constructor]. right. left. eauto.
Qed.

Lemma note_request_run url (w : World ExtractionResult) :
  note_request url w = (Val tt, snd (note_request url w)).
Proof. reflexivity. Qed.



(** the stage of the source page when the data can be read *)
Lemma add_source_page_quiet (includeSourcePage : bool) content (w : World ExtractionResult) r :
  (includeSourcePage = true -> is_text content = true) ->
  extractions w !! id = Some r ->
  exists w' fs,
    add_source_page id includeSourcePage content w = (Val tt, w') /\
    extractions w' !! id = Some (add_all r fs) /\ quiet w w' fs.
Proof.
  intros Hsrc Hr. destruct includeSourcePage.
  - destruct content as [| | |s| |]; try discriminate (Hsrc eq_refl).
    rewrite (add_source_page_text s w r Hr).
    eexists _, [_]. split; [reflexivity|]. cbn.
    split; [apply lookup_insert_eq|].
    repeat split. constructor; [|constructor]. right. right. eauto.
  - exists w, []. split; [reflexivity|]. split; [exact Hr|apply quiet_none].
Qed.


(** The stages when the data of the root response cannot be read: they
    throw before any asset is requested. *)
Lemma scan_and_fetch_unreadable url includePayloads includeSourcePage content
    (w : World ExtractionResult) r :
  (forall doc, ~ readable includeSourcePage content doc) ->
  extractions w !! id = Some r ->
  exists e w' fs,
    scan_and_fetch id url includePayloads includeSourcePage content w = (Throw e, w') /\
    extractions w' !! id = Some (add_all r fs) /\
    requests w' = requests w /\ Forall synthesized fs.
Proof.
  intros Hun Hr. unfold scan_and_fetch. cbv zeta. unfold bind at 1, lift.
  destruct (load content) as [doc|e] eqn:Hload.
  2: { exists e, w, []. split; [reflexivity|]. split; [exact Hr|].
       split; [reflexivity|constructor]. }
  assert (Hs : includeSourcePage = true /\ is_text content = false).
  { destruct includeSourcePage; [destruct (is_text content) eqn:Ht|].
    - exfalso. apply (Hun doc). split; [exact Hload|intros _; exact Ht].
    - auto.
    - exfalso. apply (Hun doc). split; [exact Hload|discriminate]. }
  destruct Hs as [-> Ht].
  lazymatch goal with
  | |- context [fold_each ?l ?s (inline_script id url)] =>
      destruct (fold_each_turns add_all id add_all_nil add_all_app quiet quiet_none
                  quiet_compose _ l (inline_script_turn url) s w r Hr)
        as (assets1 & w1 & fs1 & E1 & Hr1 & Hq1 & Hc1 & Hf1)
  end.
  rewrite (bind_val _ _ _ _ _ E1).
  lazymatch goal with
  | |- context [for_each ?l (inline_style id)] =>
      destruct (for_each_turns add_all id add_all_nil add_all_app quiet quiet_none
                  quiet_compose _ l inline_style_turn w1 _ Hr1)
        as (w2 & fs2 & E2 & Hr2 & Hq2 & Hc2 & Hf2)
  end.
  rewrite (bind_val _ _ _ _ _ E2).
  rewrite (bind_throw _ _ _ _ _ (add_source_page_throws content w2 Ht)).
  eexists _, _, (fs1 ++ fs2). split; [reflexivity|].
  split; [rewrite add_all_app; exact Hr2|].
  split; [cbn; congruence|]. apply Forall_app. auto.
Qed.
End Batches.

(** ** What the standalone server fetches and stores *)

Section ServerFetch.
Context `{Runtime}.
Variable id : string.

(** the record after [files.push] for each file of a list *)
Definition push_all (e : Server.Extraction) (files : list Server.File) : Server.Extraction :=
  fold_left (fun e f => Server.push f e) files e.

Lemma push_all_nil e : push_all e [] = e.
Proof. reflexivity. Qed.

Lemma push_all_app e fs gs : push_all e (fs ++ gs) = push_all (push_all e fs) gs.
Proof. apply fold_left_app. Qed.

Lemma push_all_files e files :
  Server.ext_files (push_all e files) = Server.ext_files e ++ files.
Proof.
  unfold push_all. revert e. induction files as [|f files IH]; intros e; cbn [fold_left].
  - symmetry. apply app_nil_r.
  - rewrite IH. cbn [Server.ext_files Server.push]. rewrite <- app_assoc. reflexivity.
Qed.


Definition server_synthesized (f : Server.File) : Prop :=
  (exists n i c, f = Server.inlineFile "js" "js" "application/javascript" n i c) \/
  (exists n i c, f = Server.inlineFile "css" "css" "text/css" n i c) \/
  (exists i c, f = Server.sourceFile i c).

Definition server_quiet (w w' : World Server.Extraction) (fs : list Server.File) : Prop :=
  requests w' = requests w /\ console w' = console w /\ Forall server_synthesized fs.

Lemma server_quiet_none w : server_quiet w w [].
Proof. repeat split. constructor. Qed.

Lemma server_quiet_compose w w1 w2 fs gs :
  server_quiet w w1 fs -> server_quiet w1 w2 gs -> server_quiet w w2 (fs ++ gs).
Proof.
  intros (Hq1 & Hc1 & Hf1) (Hq2 & Hc2 & Hf2).
  split; [congruence|]. split; [congruence|]. apply Forall_app. auto.
Qed.

Definition server_bump (w : World Server.Extraction) : World Server.Extraction :=
  {| extractions := extractions w; uuids := S (uuids w); requests := requests w;
     console := console w; history := history w |}.

Lemma server_uuid_run (w : World Server.Extraction) :
  Server.fresh_uuid w = (Val (randomUUID (uuids w)), server_bump w).
Proof. reflexivity. Qed.

Lemma server_inline_script_turn :
  turn push_all id server_quiet (fun _ : unit => Server.inline_script id).
Proof.
  intros [] el w e He. unfold Server.inline_script.
  destruct (el_html el) as [scriptContent|];
    [destruct (Js.truthy (Some scriptContent) && Js.trim_truthy scriptContent)|].
  2, 3: exists tt, w, []; split; [reflexivity|]; split; [exact He|apply server_quiet_none].
  rewrite (bind_val _ _ _ _ _ (server_uuid_run w)).
  rewrite (bind_val _ _ _ _ _ (server_uuid_run (server_bump w))).
  assert (Hb : extractions (server_bump (server_bump w)) !! id = Some e) by exact He.
  rewrite (write_present id _ e _ Hb).
  eexists _, _, [_]. split; [reflexivity|]. cbn.
  split; [apply lookup_insert_eq|].
  repeat split. constructor; [|constructor]. left. eauto.
Qed.

Lemma server_inline_style_turn :
  turn push_all id server_quiet (fun _ : unit => Server.inline_style id).
Proof.
  intros [] el w e He. unfold Server.inline_style.
  destruct (el_html el) as [styleContent|];
    [destruct (Js.truthy (Some styleContent) && Js.trim_truthy styleContent)|].
  2, 3: exists tt, w, []; split; [reflexivity|]; split; [exact He|apply server_quiet_none].
  rewrite (bind_val _ _ _ _ _ (server_uuid_run w)).
  rewrite (bind_val _ _ _ _ _ (server_uuid_run (server_bump w))).
  assert (Hb : extractions (server_bump (server_bump w)) !! id = Some e) by exact He.
  rewrite (write_present id _ e _ Hb).
  eexists _, _, [_]. split; [reflexivity|]. cbn.
  split; [apply lookup_insert_eq|].
  repeat split. constructor; [|constructor]. right. left. eauto.
Qed.

(** [new URL(u)] does not throw *)
Definition parses (u : string) : bool :=
  match URL_new u None with Some _ => true | None => false end.

(** the request of the asset [u] resolves *)
Definition resolves (u : string) : bool :=
  match axios_get_arraybuffer u with Resolved _ => true | Rejected _ => false end.

(** [f] is the file that the server makes of the response to the request
    of [u] *)
Definition fetched_file (u : string) (f : Server.File) : Prop :=
  exists response n i,
    axios_get_arraybuffer u = Resolved response /\
    f = Server.assetFile u n i
          (Server.getFileType u
             (Some (Js.or_else (header "content-type" response) EmptyString)))
          (data response).

(** the rejection of the request of [u] is on the console *)
Definition server_logged (w : World Server.Extraction) (u : string) : Prop :=
  forall e, axios_get_arraybuffer u = Rejected e ->
            In (Server.could_not_fetch u, Some e) (console w).

Lemma server_note_request_run url (w : World Server.Extraction) :
  note_request url w = (Val tt, snd (note_request url w)).
Proof. reflexivity. Qed.

(** One turn of the loop over the assets, for a URL that parses: one
    request, and one file when it resolves. *)
Lemma fetch_asset_spec assetUrl (w : World Server.Extraction) e :
  parses assetUrl = true ->
  extractions w !! id = Some e ->
  exists w' fs,
    Server.fetch_asset id assetUrl w = (Val tt, w') /\
    extractions w' !! id = Some (push_all e fs) /\
    requests w' = requests w ++ [assetUrl] /\ incl (console w) (console w') /\
    Forall2 fetched_file (filter (fun u => resolves u = true) [assetUrl]) fs /\
    server_logged w' assetUrl.
Proof.
  intros Hp He. unfold Server.fetch_asset, try_catch, parses, server_logged in *.
  rewrite (bind_val _ _ _ _ _ (server_note_request_run assetUrl w)).
  rewrite filter_cons, filter_nil. unfold resolves.
  destruct (axios_get_arraybuffer assetUrl) as [response|err] eqn:Hres.
  - cbn [Server.isValidContent].
    destruct (URL_new assetUrl None) as [u|]; [|discriminate Hp].
    assert (exists n w1, (if Js.truthy (Some (Js.split_pop "/" (pathname u)))
                          then ret (Js.split_pop "/" (pathname u))
                          else r <- Server.fresh_uuid ;; ret ("asset-" +:+ Js.substring0 8 r))
                           (snd (note_request assetUrl w)) = (Val n, w1) /\
                         extractions w1 = extractions w /\ requests w1 = requests w ++ [assetUrl] /\
                         console w1 = console w) as (n & w1 & E1 & He1 & Hq1 & Hc1).
    { destruct (Js.truthy _); eexists _, _; (split; [reflexivity|]); cbn; auto. }
    rewrite (bind_val _ _ _ _ _ E1).
    rewrite (bind_val _ _ _ _ _ (server_uuid_run w1)).
    assert (Hb : extractions (server_bump w1) !! id = Some e) by (cbn; rewrite He1; exact He).
    rewrite (write_present id _ e _ Hb).
    eexists _, [_]. split; [reflexivity|]. cbn.
    split; [apply lookup_insert_eq|]. split; [exact Hq1|].
    split; [rewrite Hc1; apply incl_refl|].
    split; [|intros e' He'; discriminate He'].
    destruct (decide (true = true)); [|congruence].
    constructor; [|constructor]. eexists _, _, _. split; [exact Hres|reflexivity].
  - eexists _, []. split; [reflexivity|]. cbn.
    split; [exact He|]. split; [reflexivity|].
    split; [apply incl_appl, incl_refl|].
    split; [destruct (decide (false = true)); [discriminate|constructor]|].
    intros e' He'. injection He' as <-. apply in_or_app. right. left. reflexivity.
Qed.


(** the assets that the server requests for a document *)
Definition server_urls (url : string) (includePayloads : bool) (doc : list Element)
    : list string :=
  if includePayloads then Server.validAssets (Server.scan url doc) else [].

(** The stage of the source page of the server: it pushes the page when
    the data is a string, it throws after one call of [randomUUID] when it
    is not, and it does nothing without the option. *)
Lemma server_add_source_page_text content (w : World Server.Extraction) e :
  extractions w !! id = Some e ->
  Server.add_source_page id true (JStr content) w
  = (Val tt,
     put (<[id := Server.push (Server.sourceFile (randomUUID (uuids w)) content) e]>
            (extractions w)) (server_bump w)).
Proof.
  intros He. unfold Server.add_source_page.
  rewrite (bind_val _ _ _ _ _ (server_uuid_run w)).
  apply (write_present id (server_bump w) e). exact He.
Qed.

Lemma server_add_source_page_throws content (w : World Server.Extraction) :
  is_text content = false ->
  Server.add_source_page id true content w
  = (Throw (byteLength_error content), server_bump w).
Proof.
  intros Ht. unfold Server.add_source_page.
  rewrite (bind_val _ _ _ _ _ (server_uuid_run w)).
  destruct content; try reflexivity. discriminate Ht.
Qed.

Lemma server_add_source_page_off content (w : World Server.Extraction) :
  Server.add_source_page id false content w = (Val tt, w).
Proof. reflexivity. Qed.

Lemma server_add_source_page_quiet (includeSourcePage : bool) content
    (w : World Server.Extraction) e :
  (includeSourcePage = true -> is_text content = true) ->
  extractions w !! id = Some e ->
  exists w' fs,
    Server.add_source_page id includeSourcePage content w = (Val tt, w') /\
    extractions w' !! id = Some (push_all e fs) /\ server_quiet w w' fs.
Proof.
  intros Hsrc He. destruct includeSourcePage.
  - destruct content as [| | |s| |]; try discriminate (Hsrc eq_refl).
    rewrite (server_add_source_page_text s w e He).
    eexists _, [_]. split; [reflexivity|]. cbn.
    split; [apply lookup_insert_eq|].
    repeat split. constructor; [|constructor]. right. right. eauto.
  - exists w, []. split; [reflexivity|]. split; [exact He|apply server_quiet_none].
Qed.



(** The stages of the server when the data of the root response cannot be
    read: they throw before any asset is requested. *)
Lemma server_scan_and_fetch_unreadable url includePayloads includeSourcePage content
    (w : World Server.Extraction) e :
  (forall doc, ~ readable includeSourcePage content doc) ->
  extractions w !! id = Some e ->
  exists err w' fs,
    Server.scan_and_fetch id url includePayloads includeSourcePage content w
    = (Throw err, w') /\
    extractions w' !! id = Some (push_all e fs) /\
    requests w' = requests w /\ Forall server_synthesized fs.
Proof.
  intros Hun He. unfold Server.scan_and_fetch. unfold bind at 1, lift.
  destruct (load content) as [doc|err] eqn:Hload.
  2: { exists err, w, []. split; [reflexivity|]. split; [exact He|].
       split; [reflexivity|constructor]. }
  cbv zeta.
  assert (Hs : includeSourcePage = true /\ is_text content = false).
  { destruct includeSourcePage; [destruct (is_text content) eqn:Ht|].
    - exfalso. apply (Hun doc). split; [exact Hload|intros _; exact Ht].
    - auto.
    - exfalso. apply (Hun doc). split; [exact Hload|discriminate]. }
  destruct Hs as [-> Ht].
  lazymatch goal with
  | |- context [for_each ?l (Server.inline_script id)] =>
      destruct (for_each_turns push_all id push_all_nil push_all_app server_quiet
                  server_quiet_none server_quiet_compose _ l server_inline_script_turn
                  w e He) as (w1 & fs1 & E1 & He1 & Hq1 & Hc1 & Hf1)
  end.
  rewrite (bind_val _ _ _ _ _ E1).
  lazymatch goal with
  | |- context [for_each ?l (Server.inline_style id)] =>
      destruct (for_each_turns push_all id push_all_nil push_all_app server_quiet
                  server_quiet_none server_quiet_compose _ l server_inline_style_turn
                  w1 _ He1) as (w2 & fs2 & E2 & He2 & Hq2 & Hc2 & Hf2)
  end.
  rewrite (bind_val _ _ _ _ _ E2).
  rewrite (bind_throw _ _ _ _ _ (server_add_source_page_throws content w2 Ht)).
  eexists _, _, (fs1 ++ fs2). split; [reflexivity|].
  split; [rewrite push_all_app; exact He2|].
  split; [cbn; congruence|]. apply Forall_app. auto.
Qed.
End ServerFetch.



(** A run whose root page arrives and cannot be read ends [failed], after
    the request of the page and no other, with the files made from the
    page before the failure. *)
Lemma unreadable_root_fails `{Runtime}
    (w0 : World ExtractionResult) (url : string)
    (includePayloads includeSourcePage : bool) (mainResponse : Response Json) :
  axios_get_page url = Resolved mainResponse ->
  (forall doc, ~ readable includeSourcePage (data mainResponse) doc) ->
  exists r,
    extractions (final w0 url includePayloads includeSourcePage) !! new_id w0 = Some r /\
    res_status r = failed /\ Forall synthesized (res_files r) /\
    requests (final w0 url includePayloads includeSourcePage) = requests w0 ++ [url].
Proof.
  intros Hpage Hun.
  destruct (scan_and_fetch_unreadable (new_id w0) url includePayloads includeSourcePage
              (data mainResponse) (asked w0 url) _ Hun (asked_record w0 url))
    as (e & w3 & fs & E3 & Hr3 & Hq & Hf).
  rewrite (final_resolved w0 url includePayloads includeSourcePage mainResponse
             _ _ _ Hpage E3 Hr3).
  eexists. split; [apply lookup_insert_eq|]. split; [reflexivity|].
  split; [cbn; rewrite add_all_files; exact Hf|].
  cbn [put requests console_error snd]. exact Hq.
Qed.

(** the same for the standalone server *)
Lemma server_unreadable_root_fails `{Runtime}
    (s0 : World Server.Extraction) (url : string)
    (includePayloads includeSourcePage : bool) (mainResponse : Response Json) :
  axios_get_page url = Resolved mainResponse ->
  (forall doc, ~ readable includeSourcePage (data mainResponse) doc) ->
  exists e,
    extractions (server_final s0 url includePayloads includeSourcePage) !! server_new_id s0
    = Some e /\
    Server.ext_status e = failed /\ Forall server_synthesized (Server.ext_files e) /\
    requests (server_final s0 url includePayloads includeSourcePage) = requests s0 ++ [url].
Proof.
  intros Hpage Hun.
  destruct (server_scan_and_fetch_unreadable (server_new_id s0) url includePayloads
              includeSourcePage (data mainResponse) (server_asked s0 url) _ Hun
              (server_asked_record s0 url))
    as (e & w3 & fs & E3 & He3 & Hq & Hf).
  rewrite (server_final_resolved s0 url includePayloads includeSourcePage mainResponse
             _ _ _ Hpage E3 He3).
  eexists. split; [apply lookup_insert_eq|]. split; [reflexivity|].
  split; [cbn; rewrite push_all_files; exact Hf|].
  cbn [wrote put requests console_error snd]. exact Hq.
Qed.

(** The two roots of the example web that answer with JSON.  On the array
    [cheerio.load] throws, and the run fails with that message.  The object
    fails at [Buffer.byteLength] when the source page is stored, and goes
    through, without a file, when it is not. *)
Lemma json_roots_of_the_example :
  (r ← extractions (final (H := Fixture.runtime) Fixture.w0 "https://ex.com/list.json"
                      false false) !! new_id (H := Fixture.runtime) Fixture.w0;
   Some (res_status r, res_error r, length (res_files r)))
  = Some (failed, Some "Cannot create property 'prev' on number '1'", 0) /\
  (r ← extractions (final (H := Fixture.runtime) Fixture.w0 "https://ex.com/data.json"
                      false true) !! new_id (H := Fixture.runtime) Fixture.w0;
   Some (res_status r, res_error r, length (res_files r)))
  = Some (failed,
          Some (error_message (Fixture.fx_byteLength_error (JObj [("ok", JBool true)]))), 0) /\
  (r ← extractions (final (H := Fixture.runtime) Fixture.w0 "https://ex.com/data.json"
                      false false) !! new_id (H := Fixture.runtime) Fixture.w0;
   Some (res_status r, res_error r, length (res_files r)))
  = Some (completed, None, 0) /\
  (e ← extractions (server_final (H := Fixture.runtime) Fixture.w0 "https://ex.com/list.json"
                      true false) !! server_new_id (H := Fixture.runtime) Fixture.w0;
   Some (Server.ext_status e, Server.ext_error e, length (Server.ext_files e)))
  = Some (failed, Some "Cannot create property 'prev' on number '1'", 0) /\
  (e ← extractions (server_final (H := Fixture.runtime) Fixture.w0 "https://ex.com/data.json"
                      true true) !! server_new_id (H := Fixture.runtime) Fixture.w0;
   Some (Server.ext_status e, Server.ext_error e, length (Server.ext_files e)))
  = Some (failed,
          Some (error_message (Fixture.fx_byteLength_error (JObj [("ok", JBool true)]))), 0).
Proof. repeat split; vm_compute; reflexivity. Qed.

(** ** Failures of single assets *)


(** The page of the example web with three assets, of which the stylesheet
    answers with the status 500: the result is completed with the two other
    assets, after the inline style of the page. *)
Lemma one_of_three_assets_fails :
  (r ← extractions (final (H := Fixture.runtime) Fixture.w0 "https://ex.com/three" false false)
         !! new_id (H := Fixture.runtime) Fixture.w0;
   Some (res_status r, map file_path (res_files r)))
  = Some (completed, ["css/inline-style-00000001.css"; "js/x.js"; "images/z.png"]) /\
  (e ← extractions (server_final (H := Fixture.runtime) Fixture.w0 "https://ex.com/three" true false)
         !! server_new_id (H := Fixture.runtime) Fixture.w0;
   Some (Server.ext_status e, map Server.file_path (Server.ext_files e)))
  = Some (completed, ["css/inline-style-00000001.css"; "js/x.js"; "images/z.png"]).
Proof. split; vm_compute; reflexivity. Qed.


(** ** References found in stylesheets *)

(** The requests of the loop over the batches are those of the URLs that
    the set held before the loop: what a stylesheet adds to the set is not
    requested. *)
Lemma process_assets_requests `{Runtime} (id : string) (assets : list string)
    (w : World ExtractionResult) (r : ExtractionResult) :
  (forall l, Permutation (schedule l) l) ->
  extractions w !! id = Some r ->
  exists assets' w',
    process_assets id assets w = (Val assets', w') /\
    requests w' = requests w ++ filter (fun u => requested u = true) assets.
Proof.
  intros Hperm Hr.
  destruct (process_assets_spec id Hperm assets w r Hr)
    as (assets' & w' & ps & order & E & Hu & Hq & _).
  exists assets', w'. split; [exact E|]. rewrite Hq, Hu. reflexivity.
Qed.

(** C3 on the chain of stylesheets of the example web, where the page
    links [a.css], [a.css] imports [b.css] and [b.css] imports [c.css]:
    the loop over the batches adds [b.css] to the set, and the run requests
    the page and [a.css] only, and stores [a.css] only, although [b.css] is
    there to be fetched. *)
Theorem imported_stylesheet_not_fetched :
  fst (process_assets (H := Fixture.runtime) (new_id (H := Fixture.runtime) Fixture.w0)
         ["https://ex.com/a.css"]
         (created (H := Fixture.runtime) Fixture.w0 "https://ex.com/chain"))
  = Val ["https://ex.com/a.css"; "https://ex.com/b.css"] /\
  requests (final (H := Fixture.runtime) Fixture.w0 "https://ex.com/chain" false false)
  = ["https://ex.com/chain"; "https://ex.com/a.css"] /\
  (r ← extractions (final (H := Fixture.runtime) Fixture.w0 "https://ex.com/chain" false false)
         !! new_id (H := Fixture.runtime) Fixture.w0;
   Some (res_status r, map file_path (res_files r)))
  = Some (completed, ["css/a.css"]) /\
  (exists response, axios_get_text (Runtime := Fixture.runtime) "https://ex.com/b.css"
                    = Resolved response).
Proof.
  split; [vm_compute; reflexivity|].
  split; [vm_compute; reflexivity|].
  split; [vm_compute; reflexivity|].
  eexists. reflexivity.
Qed.


(** * Further properties *)

(** ** The store *)

(** X1: A record that [createExtractionResult] has made is the one that
    [getExtractionResult] finds under its id: pending, without files, with
    both totals at zero; the records of the other ids are as they were. *)
Theorem created_record_is_found `{Runtime} (url : string) (w : World ExtractionResult) :
  exists r w',
    createExtractionResult url w = (Val r, w') /\
    getExtractionResult (res_id r) w' = (Val (Some r), w') /\
    res_id r = randomUUID (uuids w) /\ res_url r = url /\ res_status r = pending /\
    res_files r = [] /\ res_totalFiles r = 0 /\ res_totalSize r = 0 /\
    res_error r = None /\
    (forall other, other <> res_id r -> extractions w' !! other = extractions w !! other).
Proof.
  eexists _, _. split; [apply createExtractionResult_run|].
  split.
  { unfold getExtractionResult, bind, get_store, ret. cbn.
    rewrite lookup_insert_eq. reflexivity. }
  repeat (split; [reflexivity|]).
  intros other Hne. cbn. apply lookup_insert_ne. cbn in Hne. congruence.
Qed.

(** X2: [addFileToExtraction] appends the file to the record of the id and
    keeps the id, the URL, the status, the date and the error of the record,
    the records of the other ids, the counter of identifiers, the requests
    and the console; for an id that the store does not have it throws and
    changes nothing. *)
Theorem addFileToExtraction_frame (w : World ExtractionResult) (id : string)
    (file : ExtractedFile) :
  match extractions w !! id with
  | Some extraction =>
      exists w' r',
        addFileToExtraction id file w = (Val tt, w') /\
        extractions w' !! id = Some r' /\
        res_files r' = res_files extraction ++ [file] /\
        res_id r' = res_id extraction /\ res_url r' = res_url extraction /\
        res_status r' = res_status extraction /\
        res_extractedAt r' = res_extractedAt extraction /\
        res_error r' = res_error extraction /\
        (forall other, other <> id -> extractions w' !! other = extractions w !! other) /\
        same_effects w w'
  | None =>
      addFileToExtraction id file w = (Throw (JsError "Extraction not found"), w)
  end.
Proof.
  destruct (extractions w !! id) as [extraction|] eqn:Hid.
  - rewrite (addFileToExtraction_present _ _ _ _ Hid).
    eexists _, _. split; [reflexivity|]. cbn.
    split; [apply lookup_insert_eq|].
    repeat (split; [reflexivity|]).
    split; [intros other Hne; apply lookup_insert_ne; congruence|].
    repeat split.
  - apply addFileToExtraction_absent, Hid.
Qed.

(** ** File names and their extensions *)

Lemma lower_is_dot (c : ascii) : Ascii.eqb (Js.lower c) "." = Ascii.eqb c ".".
Proof.
  destruct c as [b0 b1 b2 b3 b4 b5 b6 b7].
  destruct b0, b1, b2, b3, b4, b5, b6, b7; reflexivity.
Qed.

Lemma includes_char (sep : ascii) (s : string) :
  Js.includes (String sep EmptyString) s =
  match s with
  | EmptyString => false
  | String c r => Ascii.eqb c sep || Js.includes (String sep EmptyString) r
  end.
Proof.
  destruct s as [|c r]; [reflexivity|].
  cbn [Js.includes String.prefix].
  destruct (ascii_dec sep c) as [->|Hne].
  - rewrite Ascii.eqb_refl. destruct r; reflexivity.
  - apply not_eq_sym in Hne. apply Ascii.eqb_neq in Hne. rewrite Hne. reflexivity.
Qed.

Lemma includes_dot_lower (s : string) :
  Js.includes "." (Js.toLowerCase s) = Js.includes "." s.
Proof.
  induction s as [|c r IH]; [reflexivity|].
  cbn [Js.toLowerCase]. rewrite (includes_char "." (String c r)), includes_char.
  rewrite lower_is_dot, IH. reflexivity.
Qed.

Lemma split_pop_lower (s : string) :
  Js.split_pop "." (Js.toLowerCase s) = Js.toLowerCase (Js.split_pop "." s).
Proof.
  induction s as [|c r IH]; [reflexivity|].
  cbn [Js.toLowerCase Js.split_pop].
  rewrite lower_is_dot, includes_dot_lower.
  destruct (Ascii.eqb c "."); [exact IH|].
  destruct (Js.includes "." r); [exact IH|reflexivity].
Qed.

(** the extension is read off the lower-cased name *)
Lemma extension_lower (fileName : string) :
  extension fileName = Js.split_pop "." (Js.toLowerCase fileName).
Proof. unfold extension. symmetry. apply split_pop_lower. Qed.

(** X3: Two file names that differ by the case of their letters only get the
    same category, the same folder, the same fallback MIME type and the same
    way of reading the response. *)
Theorem classification_ignores_case (f g : string) :
  Js.toLowerCase f = Js.toLowerCase g ->
  getFileType f = getFileType g /\
  getFolderPath (getFileType f) = getFolderPath (getFileType g) /\
  getMimeType f = getMimeType g /\
  isBinary f = isBinary g.
Proof.
  intros E.
  assert (Ex : extension f = extension g) by (rewrite !extension_lower, E; reflexivity).
  unfold getFileType, getMimeType, isBinary. rewrite Ex. repeat split.
Qed.

(** An instance of [classification_ignores_case]. *)
Lemma classification_ignores_case_witness :
  getFileType "LOGO.PNG" = getFileType "logo.png" /\
  getFolderPath (getFileType "LOGO.PNG") = getFolderPath (getFileType "logo.png") /\
  getMimeType "LOGO.PNG" = getMimeType "logo.png" /\
  isBinary "LOGO.PNG" = isBinary "logo.png".
Proof. apply (classification_ignores_case "LOGO.PNG" "logo.png"). reflexivity. Defined.

Lemma split_pop_none (sep : ascii) (s : string) :
  Js.includes (String sep EmptyString) s = false -> Js.split_pop sep s = s.
Proof.
  destruct s as [|c r]; [reflexivity|].
  rewrite includes_char. intros Hn. apply orb_false_iff in Hn as [Hc Hr].
  cbn [Js.split_pop]. rewrite Hc, Hr. reflexivity.
Qed.

Lemma includes_char_app (sep : ascii) (n e : string) :
  Js.includes (String sep EmptyString) (n +:+ String sep e) = true.
Proof.
  induction n as [|c n IH].
  - change (EmptyString +:+ String sep e) with (String sep e).
    rewrite includes_char, Ascii.eqb_refl. reflexivity.
  - change (String c n +:+ String sep e) with (String c (n +:+ String sep e)).
    rewrite includes_char, IH. apply orb_true_r.
Qed.

Lemma split_pop_last (sep : ascii) (n e : string) :
  Js.includes (String sep EmptyString) e = false ->
  Js.split_pop sep (n +:+ String sep e) = e.
Proof.
  intros He. induction n as [|c n IH].
  - change (EmptyString +:+ String sep e) with (String sep e).
    cbn [Js.split_pop]. rewrite Ascii.eqb_refl. apply split_pop_none, He.
  - change (String c n +:+ String sep e) with (String c (n +:+ String sep e)).
    cbn [Js.split_pop]. rewrite includes_char_app.
    destruct (Ascii.eqb c sep); exact IH.
Qed.

(** X4: The extension of a file name is what follows its last dot, in lower
    case; a name without a dot is its own extension, so that it is
    classified by the whole of it. *)
Theorem extension_is_after_last_dot (n e : string) :
  Js.includes "." e = false ->
  extension (n +:+ "." +:+ e) = Js.toLowerCase e /\
  extension e = Js.toLowerCase e /\
  getFileType (n +:+ "." +:+ e) = getFileType e /\
  getMimeType (n +:+ "." +:+ e) = getMimeType e /\
  isBinary (n +:+ "." +:+ e) = isBinary e.
Proof.
  intros He.
  assert (E1 : extension (n +:+ "." +:+ e) = Js.toLowerCase e).
  { unfold extension. change ("." +:+ e) with (String "." e).
    rewrite split_pop_last by exact He. reflexivity. }
  assert (E2 : extension e = Js.toLowerCase e).
  { unfold extension. rewrite split_pop_none by exact He. reflexivity. }
  split; [exact E1|]. split; [exact E2|].
  unfold getFileType, getMimeType, isBinary. rewrite E1, E2. repeat split.
Qed.

(** An instance of [extension_is_after_last_dot]: a name with two dots,
    and the name [css], which is classified as a stylesheet. *)
Lemma extension_is_after_last_dot_witness :
  extension ("jquery.min" +:+ "." +:+ "JS") = "js" /\
  extension "css" = "css" /\ getFileType "css" = css.
Proof.
  split; [apply (extension_is_after_last_dot "jquery.min" "JS"); reflexivity|].
  split; [apply (extension_is_after_last_dot "x" "css"); reflexivity|].
  reflexivity.
Defined.

Lemma case_of_In (ext : string) (labels : list string) :
  case_of ext labels = true -> In ext labels.
Proof.
  unfold case_of. intros Hc. apply existsb_exists in Hc as (x & Hx & Hex).
  apply String.eqb_eq in Hex. subst x. exact Hx.
Qed.

(** X5: A file whose response is read as raw bytes, and stored as a data URI,
    is an image or a file of the category other: it goes to [images] or to
    [assets], and it is never a stylesheet, so that the search for
    references in stylesheets never reads a data URI.  Conversely the
    stylesheets, the scripts, the pages and the payloads are read as text. *)
Theorem binary_files_are_images_or_other (fileName : string) :
  isBinary fileName = true ->
  (getFileType fileName = image \/ getFileType fileName = other) /\
  (getFolderPath (getFileType fileName) = "images" \/
   getFolderPath (getFileType fileName) = "assets") /\
  is_css (getFileType fileName) = false.
Proof.
  unfold isBinary. intros Hb. apply case_of_In in Hb.
  unfold getFileType. remember (extension fileName) as ext eqn:Hext. clear Hext.
  unfold binary_extensions in Hb. cbn [In] in Hb.
  repeat (destruct Hb as [<-|Hb]; [vm_compute; auto|]).
  destruct Hb.
Qed.

(** An instance of [binary_files_are_images_or_other]: a font. *)
Lemma binary_files_are_images_or_other_witness :
  (getFileType "Inter.woff2" = image \/ getFileType "Inter.woff2" = other) /\
  (getFolderPath (getFileType "Inter.woff2") = "images" \/
   getFolderPath (getFileType "Inter.woff2") = "assets") /\
  is_css (getFileType "Inter.woff2") = false.
Proof. apply (binary_files_are_images_or_other "Inter.woff2"). reflexivity. Defined.

(** ** Where the files are stored *)

(** A file of [routes.ts] is in its place: the source page at
    [index.html], any other file in the folder of its category, under its
    name; and it declares a MIME type. *)
Definition placed (f : ExtractedFile) : Prop :=
  ((file_path f = "index.html" /\ file_name f = "index.html" /\ file_type f = html) \/
   file_path f = getFolderPath (file_type f) +:+ "/" +:+ file_name f) /\
  file_mimeType f <> EmptyString.

(** the same for a file of the standalone server *)
Definition server_placed (f : Server.File) : Prop :=
  (Server.file_path f = "index.html" /\ Server.file_name f = "index.html" /\
   Server.file_type f = "html") \/
  Server.file_path f = Server.folder_of (Server.file_type f) +:+ "/" +:+ Server.file_name f.

Lemma getMimeType_not_empty (fileName : string) : getMimeType fileName <> EmptyString.
Proof.
  unfold getMimeType.
  repeat match goal with |- context [if ?b then _ else _] => destruct b end; discriminate.
Qed.

Lemma or_else_not_empty (o : option string) (d : string) :
  d <> EmptyString -> Js.or_else o d <> EmptyString.
Proof.
  intros Hd. unfold Js.or_else. destruct o as [s|]; [|exact Hd].
  destruct (String.eqb s EmptyString) eqn:Es; [exact Hd|].
  apply String.eqb_neq, Es.
Qed.

Lemma routes_files_placed `{Runtime}
    (w0 : World ExtractionResult) (url : string) (includePayloads includeSourcePage : bool) :
  Inv (fun r => Forall placed (res_files r)) (new_id w0) (history w0)
    (final w0 url includePayloads includeSourcePage).
Proof.
  apply (startExtraction_Inv w0 url includePayloads includeSourcePage
           (fun r => Forall placed (res_files r)) placed).
  - intros r f Hr Hf. cbn. apply Forall_app. split; [exact Hr|].
    constructor; [exact Hf|constructor].
  - intros r s Hr. exact Hr.
  - intros r msg Hr. exact Hr.
  - constructor.
  - intros n i c. split; [right; reflexivity|discriminate].
  - intros n i c. split; [right; reflexivity|discriminate].
  - intros p i c s ct. split; [right; reflexivity|].
    apply or_else_not_empty, getMimeType_not_empty.
  - intros n i u r. split; [right; reflexivity|discriminate].
  - intros _ i c. split; [left; repeat split|discriminate].
Qed.

(** X6: In every run, after every write and at the end, every file of the
    extraction is in its place: in [routes.ts] with a declared MIME type,
    in the standalone server in the folder of its category. *)
Theorem stored_files_are_placed `{Runtime}
    (w0 : World ExtractionResult) (s0 : World Server.Extraction)
    (url : string) (includePayloads includeSourcePage : bool) :
  (exists r since,
     extractions (final w0 url includePayloads includeSourcePage) !! new_id w0 = Some r /\
     Forall placed (res_files r) /\
     history (final w0 url includePayloads includeSourcePage) = history w0 ++ since /\
     Forall (holds_in (fun r => Forall placed (res_files r)) (new_id w0)) since) /\
  (exists e,
     extractions (server_final s0 url includePayloads includeSourcePage) !! server_new_id s0
     = Some e /\
     Forall server_placed (Server.ext_files e)).
Proof.
  split.
  - destruct (routes_files_placed w0 url includePayloads includeSourcePage)
      as [[r [Hr HK]] [since [Hh Hs]]].
    exists r, since. auto.
  - pose (K := fun e => Forall server_placed (Server.ext_files e)).
    destruct (server_run s0 url includePayloads includeSourcePage K server_placed)
      as [[[e [He HK]] _] _].
    + intros e f He Hf. unfold K. cbn. apply Forall_app. split; [exact He|].
      constructor; [exact Hf|constructor].
    + intros e e' Hfiles He. unfold K in *. rewrite Hfiles. exact He.
    + constructor.
    + intros n i c. right. reflexivity.
    + intros n i c. right. reflexivity.
    + intros u n i t b. right. reflexivity.
    + intros _ i c. left. repeat split.
    + exists e. split; assumption.
Qed.

(** ** The file tree of the page *)


(** the files of a folder of the tree, [None] when there is none *)
Definition in_folder (k : string) (files : list ExtractedFile)
    : option (list ExtractedFile) :=
  match filter (fun f => Ui.folderPath (file_path f) = k) files with
  | [] => None
  | l => Some l
  end.

Definition plain_folder (f : ExtractedFile) : Prop :=
  case_of (Ui.folderPath (file_path f)) Server.object_prototype = false.

Lemma in_folder_snoc k files f :
  in_folder k (files ++ [f]) =
  if decide (Ui.folderPath (file_path f) = k)
  then Some (default [] (in_folder k files) ++ [f])
  else in_folder k files.
Proof.
  unfold in_folder. rewrite filter_app, filter_cons, filter_nil.
  destruct (decide (Ui.folderPath (file_path f) = k)) as [E|E].
  - destruct (filter _ files) as [|x l]; reflexivity.
  - rewrite app_nil_r. reflexivity.
Qed.

Lemma reduce_groups (files seen : list ExtractedFile) acc :
  (forall k, acc !! k = in_folder k seen) ->
  Forall plain_folder files ->
  exists g, Ui.reduce acc files = Val g /\ forall k, g !! k = in_folder k (seen ++ files).
Proof.
  revert seen acc. induction files as [|f files IH]; intros seen acc Hacc Hp.
  - exists acc. split; [reflexivity|]. rewrite app_nil_r. exact Hacc.
  - apply Forall_cons in Hp as [Hf Hp].
    assert (exists acc', Ui.group acc f = Val acc' /\
                         forall k, acc' !! k = in_folder k (seen ++ [f]))
      as (acc' & Eg & Hacc').
    { unfold Ui.group. cbv zeta. pose proof (Hacc (Ui.folderPath (file_path f))) as Hk.
      destruct (acc !! Ui.folderPath (file_path f)) as [fs|] eqn:El.
      - eexists. split; [reflexivity|]. intros k. rewrite in_folder_snoc.
        destruct (decide (Ui.folderPath (file_path f) = k)) as [<-|Hne].
        + rewrite lookup_insert_eq, <- Hk. reflexivity.
        + rewrite lookup_insert_ne by exact Hne. apply Hacc.
      - unfold plain_folder in Hf. rewrite Hf.
        eexists. split; [reflexivity|]. intros k. rewrite in_folder_snoc.
        destruct (decide (Ui.folderPath (file_path f) = k)) as [<-|Hne].
        + rewrite lookup_insert_eq, <- Hk. reflexivity.
        + rewrite lookup_insert_ne by exact Hne. apply Hacc. }
    destruct (IH (seen ++ [f]) acc' Hacc' Hp) as (g & Er & Hg).
    exists g. split; [cbn [Ui.reduce]; rewrite Eg; exact Er|].
    intros k. rewrite Hg, <- app_assoc. reflexivity.
Qed.

(** X7: When no file lies in a folder that is named like a member of
    [Object.prototype], the grouping of the file tree returns, and it is a
    partition: under each folder name the files whose path starts with that
    folder, in the order of the list, with the files whose path has no
    slash under [root]; a folder without files has no entry. *)
Theorem filesByFolder_partitions (files : list ExtractedFile) :
  Forall plain_folder files ->
  exists g, Ui.filesByFolder files = Val g /\ forall k, g !! k = in_folder k files.
Proof.
  intros Hp. apply (reduce_groups files [] ∅); [|exact Hp].
  intros k. apply lookup_empty.
Qed.

(** An instance of [filesByFolder_partitions]: a page and a script. *)
Lemma filesByFolder_partitions_witness :
  exists g,
    Ui.filesByFolder [sourcePageFile "1" "<p>"; inlineScriptFile "a.js" "2" "x"] = Val g /\
    forall k, g !! k = in_folder k [sourcePageFile "1" "<p>"; inlineScriptFile "a.js" "2" "x"].
Proof.
  apply (filesByFolder_partitions [sourcePageFile "1" "<p>"; inlineScriptFile "a.js" "2" "x"]).
  repeat constructor.
Defined.

Lemma split_head_app (sep : ascii) (a rest : string) :
  Js.includes (String sep EmptyString) a = false ->
  Js.split_head sep (a +:+ String sep rest) = a.
Proof.
  induction a as [|c a IH]; intros Ha.
  - change (EmptyString +:+ String sep rest) with (String sep rest).
    cbn [Js.split_head]. rewrite Ascii.eqb_refl. reflexivity.
  - change (String c a +:+ String sep rest) with (String c (a +:+ String sep rest)).
    rewrite includes_char in Ha. apply orb_false_iff in Ha as [Hc Ha].
    cbn [Js.split_head]. rewrite Hc, (IH Ha). reflexivity.
Qed.

Lemma folderPath_of_folder (folder name : string) :
  Js.includes "/" folder = false ->
  Ui.folderPath (folder +:+ "/" +:+ name) = folder.
Proof.
  intros Hf. unfold Ui.folderPath. change ("/" +:+ name) with (String "/" name).
  rewrite includes_char_app. apply split_head_app, Hf.
Qed.

(** the folder of the tree that shows a file that is in its place *)
Lemma placed_folder (f : ExtractedFile) :
  placed f ->
  Ui.folderPath (file_path f) = "root" \/
  Ui.folderPath (file_path f) = getFolderPath (file_type f).
Proof.
  intros [[(Hp & _ & _)|Hp] _]; rewrite Hp.
  - left. reflexivity.
  - right. apply folderPath_of_folder. destruct (file_type f); reflexivity.
Qed.

Definition tree_folders : list string :=
  ["root"; "css"; "js"; "images"; "payloads"; "assets"].

Lemma placed_tree_folder (f : ExtractedFile) :
  placed f -> In (Ui.folderPath (file_path f)) tree_folders.
Proof.
  intros Hf. destruct (placed_folder f Hf) as [->| ->]; [left; reflexivity|].
  unfold tree_folders. destruct (file_type f); cbn; auto 10.
Qed.

Lemma placed_plain_folder (f : ExtractedFile) : placed f -> plain_folder f.
Proof.
  intros Hf. pose proof (placed_tree_folder f Hf) as Hin. unfold plain_folder.
  unfold tree_folders in Hin. cbn [In] in Hin.
  repeat (destruct Hin as [<-|Hin]; [reflexivity|]). destruct Hin.
Qed.

(** X8: The file tree of the result of any run of [routes.ts] can be drawn:
    the grouping returns, its folders are among [root], [css], [js],
    [images], [payloads] and [assets], and each of them shows the files of
    the result whose path starts with it, in the order of the result. *)
Theorem file_tree_of_a_run `{Runtime}
    (w0 : World ExtractionResult) (url : string) (includePayloads includeSourcePage : bool) :
  exists r g,
    extractions (final w0 url includePayloads includeSourcePage) !! new_id w0 = Some r /\
    Ui.filesByFolder (res_files r) = Val g /\
    (forall k, g !! k = in_folder k (res_files r)) /\
    (forall k, is_Some (g !! k) -> In k tree_folders) /\
    Forall (fun f => Ui.folderPath (file_path f) = "root" \/
                     Ui.folderPath (file_path f) = getFolderPath (file_type f))
      (res_files r).
Proof.
  destruct (routes_files_placed w0 url includePayloads includeSourcePage)
    as [[r [Hr HK]] _].
  destruct (reduce_groups (res_files r) [] ∅) as (g & Eg & Hg).
  { intros k. apply lookup_empty. }
  { eapply Forall_impl; [exact HK|]. intros f. apply placed_plain_folder. }
  change ([] ++ res_files r) with (res_files r) in Hg.
  exists r, g. split; [exact Hr|]. split; [exact Eg|]. split; [exact Hg|]. split.
  - intros k [l Hl]. rewrite Hg in Hl. unfold in_folder in Hl.
    destruct (filter _ (res_files r)) as [|f l'] eqn:Ef; [discriminate|].
    assert (Hin : f ∈ filter (fun f => Ui.folderPath (file_path f) = k) (res_files r))
      by (rewrite Ef; left).
    apply list_elem_of_filter in Hin as [Hk Hin]. subst k.
    apply placed_tree_folder. rewrite Forall_forall in HK. apply HK, Hin.
  - eapply Forall_impl; [exact HK|]. intros f. apply placed_folder.
Qed.

Lemma toggleFolder_elem (expandedFolders : gset string) (folder x : string) :
  x ∈ Ui.toggleFolder expandedFolders folder <->
  (x = folder /\ folder ∉ expandedFolders) \/ (x <> folder /\ x ∈ expandedFolders).
Proof.
  unfold Ui.toggleFolder. cbv zeta.
  destruct (decide (folder ∈ expandedFolders)) as [Hin|Hin].
  - rewrite elem_of_difference, elem_of_singleton.
    destruct (decide (x = folder)) as [->|Hne]; tauto.
  - rewrite elem_of_union, elem_of_singleton.
    destruct (decide (x = folder)) as [->|Hne]; tauto.
Qed.

(** X9: The folders of the file tree open and close: [toggleFolder] changes
    the state of the folder that it is given and of no other, and toggling
    the same folder twice gives the set back. *)
Theorem toggleFolder_twice (expandedFolders : gset string) (folder : string) :
  Ui.toggleFolder (Ui.toggleFolder expandedFolders folder) folder = expandedFolders /\
  (folder ∈ Ui.toggleFolder expandedFolders folder <-> folder ∉ expandedFolders) /\
  (forall other, other <> folder ->
     (other ∈ Ui.toggleFolder expandedFolders folder <-> other ∈ expandedFolders)).
Proof.
  split; [|split].
  - apply set_eq. intros x. rewrite !toggleFolder_elem.
    destruct (decide (x = folder)) as [->|Hne];
      destruct (decide (folder ∈ expandedFolders)); tauto.
  - rewrite toggleFolder_elem. tauto.
  - intros other Hne. rewrite toggleFolder_elem. tauto.
Qed.

(** ** The batches of the asset loop *)

Lemma slices_spec {A} (fuel n : nat) (l : list A) :
  0 < n -> length l <= fuel ->
  Forall (fun b => 0 < length b <= n) (slices fuel n l) /\
  length (slices fuel n l) = (length l + n - 1) / n.
Proof.
  intros Hn. revert l. induction fuel as [|fuel IH]; intros l Hl.
  - destruct l; [|cbn in Hl; lia]. cbn. split; [constructor|].
    symmetry. apply Nat.div_small. lia.
  - destruct l as [|x l].
    { cbn. split; [constructor|]. symmetry. apply Nat.div_small. lia. }
    cbn [slices].
    destruct (IH (drop n (x :: l))) as [Hf Hlen].
    { rewrite length_drop. cbn in *. lia. }
    split.
    + constructor; [|exact Hf]. rewrite length_take. cbn [length]. lia.
    + cbn [length]. rewrite Hlen, length_drop. cbn [length].
      destruct (le_lt_dec n (S (length l))) as [Hge|Hlt].
      * replace (S (length l) + n - 1) with (S (length l) - n + n - 1 + 1 * n) by lia.
        rewrite Nat.div_add by lia. lia.
      * replace (S (length l) - n) with 0 by lia.
        replace ((0 + n - 1) / n) with 0 by (symmetry; apply Nat.div_small; lia).
        apply Nat.div_unique with (r := length l); lia.
Qed.

(** X10: The loop over the asset array cuts it into batches: every asset is in
    one batch, in the order of the array; a batch has at least one asset
    and at most [n] of them; and there are as many batches as the length of
    the array divided by [n], rounded up.  The pipeline takes [n] to be
    ten. *)
Theorem batches_partition {A} (n : nat) (l : list A) :
  0 < n ->
  concat (batches n l) = l /\
  Forall (fun b => 0 < length b <= n) (batches n l) /\
  length (batches n l) = (length l + n - 1) / n.
Proof.
  intros Hn. unfold batches. split; [apply concat_slices; lia|].
  apply slices_spec; lia.
Qed.

(** An instance of [batches_partition]: twenty-three assets make three
    batches. *)
Lemma batches_partition_witness :
  concat (batches 10 (seq 0 23)) = seq 0 23 /\
  Forall (fun b => 0 < length b <= 10) (batches 10 (seq 0 23)) /\
  length (batches 10 (seq 0 23)) = 3.
Proof. apply (batches_partition 10 (seq 0 23)). lia. Defined.

(** ** The stored length of binary assets *)

Lemma length_append_string (a b : string) :
  String.length (a +:+ b) = String.length a + String.length b.
Proof.
  induction a as [|c a IH]; [reflexivity|].
  change (String c a +:+ b) with (String c (a +:+ b)). cbn [String.length].
  rewrite IH. reflexivity.
Qed.

Lemma encode_length (bs : list byte) :
  String.length (Base64.encode bs) = 4 * ((length bs + 2) / 3).
Proof.
  induction bs as [|a|a b|a b c r IH] using Base64Facts.list_ind3; try reflexivity.
  cbn [Base64.encode String.length length]. rewrite IH.
  replace (S (S (S (length r))) + 2) with (length r + 2 + 1 * 3) by lia.
  rewrite Nat.div_add by lia. lia.
Qed.

(** X11: The stored content of a binary asset is longer than its [size]: the
    size is the number of bytes of the response, the content has four
    characters for every three bytes, rounded up, after a prefix of thirteen
    characters and the MIME type. *)
Theorem binary_size_is_below_stored_length `{Runtime} (p : Pending) (id : string)
    (response : Response (list byte)) :
  p_isBinary p = true -> axios_get_arraybuffer (p_url p) = Resolved response ->
  exists content size contentType,
    settle p = Val (content, size, contentType) /\
    let f := assetFile p id content size contentType in
    file_size f = length (data response) /\
    Js.byteLength (file_content f)
    = 13 + String.length (file_mimeType f) + 4 * ((file_size f + 2) / 3) /\
    file_size f < Js.byteLength (file_content f).
Proof.
  intros Hb Hr. eexists _, _, _. split; [apply settle_binary; eassumption|].
  cbn zeta. cbn [file_size file_content file_mimeType assetFile].
  split; [reflexivity|].
  assert (E : Js.byteLength (binary_content (p_fileName p) response)
              = 13 + String.length (Js.or_else (header "content-type" response)
                                      (getMimeType (p_fileName p)))
                + 4 * ((length (data response) + 2) / 3)).
  { unfold Js.byteLength, binary_content.
    rewrite !length_append_string, encode_length. cbn [String.length]. lia. }
  split; [exact E|]. rewrite E.
  pose proof (Nat.div_mod_eq (length (data response) + 2) 3) as Hd.
  pose proof (Nat.mod_upper_bound (length (data response) + 2) 3) as Hm. lia.
Qed.

(** An instance of [binary_size_is_below_stored_length]: the image of the
    example web. *)
Lemma binary_size_is_below_stored_length_witness :
  exists content size contentType,
    settle (H := Fixture.runtime) Examples.png = Val (content, size, contentType) /\
    let f := assetFile Examples.png "id" content size contentType in
    file_size f = 5 /\
    Js.byteLength (file_content f)
    = 13 + String.length (file_mimeType f) + 4 * ((file_size f + 2) / 3) /\
    file_size f < Js.byteLength (file_content f).
Proof.
  apply (binary_size_is_below_stored_length (H := Fixture.runtime) Examples.png "id"
           Examples.png_response); reflexivity.
Defined.

(** ** What a run draws and what it leaves alone

    [effects id w w' fs]: between [w] and [w'] the code has drawn
    identifiers, it has left the records of the other extractions alone,
    and the files [fs] that it has appended to the record of [id] carry
    identifiers drawn in between, each by a call of its own. *)

Section Effects.
Context `{Runtime}.
Variable id : string.

Definition effects (w w' : World ExtractionResult) (fs : list ExtractedFile) : Prop :=
  uuids w <= uuids w' /\
  (forall other, other <> id -> extractions w' !! other = extractions w !! other) /\
  exists ns, map file_id fs = map randomUUID ns /\
             NoDup ns /\
             Forall (fun n => uuids w <= n < uuids w') ns.

Lemma effects_none w : effects w w [].
Proof.
  split; [lia|]. split; [reflexivity|].
  exists []. split; [reflexivity|]. split; constructor.
Qed.

Lemma effects_compose w w1 w2 fs gs :
  effects w w1 fs -> effects w1 w2 gs -> effects w w2 (fs ++ gs).
Proof.
  intros (Hu1 & Ho1 & ns & Hn & Hs1 & Hr1) (Hu2 & Ho2 & ms & Hm & Hs2 & Hr2).
  split; [lia|]. split.
  { intros other Hne. rewrite Ho2, Ho1 by exact Hne. reflexivity. }
  exists (ns ++ ms). rewrite !map_app, Hn, Hm. split; [reflexivity|]. split.
  - apply NoDup_app. split; [exact Hs1|]. split; [|exact Hs2].
    intros n Hin1 Hin2. rewrite Forall_forall in Hr1, Hr2.
    specialize (Hr1 n Hin1). specialize (Hr2 n Hin2). cbn in *. lia.
  - apply Forall_app. split.
    + eapply Forall_impl; [exact Hr1|]. cbn. intros n Hb. lia.
    + eapply Forall_impl; [exact Hr2|]. cbn. intros n Hb. lia.
Qed.

(** one file, whose identifier is the [n]-th one *)
Lemma effects_one w w' f n :
  uuids w <= n < uuids w' ->
  (forall other, other <> id -> extractions w' !! other = extractions w !! other) ->
  file_id f = randomUUID n ->
  effects w w' [f].
Proof.
  intros Hn Ho Hf. split; [lia|]. split; [exact Ho|].
  exists [n]. cbn. rewrite Hf. split; [reflexivity|].
  split; [apply NoDup_singleton|]. repeat constructor; lia.
Qed.

(** no file, the map as it was *)
Lemma effects_skip w w' :
  uuids w <= uuids w' -> extractions w' = extractions w -> effects w w' [].
Proof.
  intros Hu He. split; [exact Hu|]. split; [intros; rewrite He; reflexivity|].
  exists []. split; [reflexivity|]. split; constructor.
Qed.

Lemma inline_script_effects url :
  turn add_all id effects (fun assets el => inline_script id url assets el).
Proof.
  intros assets el w r Hr. unfold inline_script.
  destruct (el_html el) as [scriptContent|];
    [destruct (Js.truthy (Some scriptContent) && Js.trim_truthy scriptContent)|].
  2, 3: exists assets, w, []; split; [reflexivity|]; split; [exact Hr|apply effects_none].
  rewrite (bind_val _ _ _ _ _ (fresh_uuid_run w)).
  rewrite (bind_val _ _ _ _ _ (fresh_uuid_run (bump w))).
  rewrite (bind_val _ _ _ _ _ (not_awaited_run _ _)).
  assert (Hb : extractions (bump (bump w)) !! id = Some r) by exact Hr.
  rewrite (addFileToExtraction_present _ id r _ Hb).
  eexists _, _, [_]. split; [reflexivity|]. cbn [snd put extractions].
  split; [apply lookup_insert_eq|].
  apply (effects_one _ _ _ (S (uuids w))); cbn; [lia| |reflexivity].
  intros other Hne. apply lookup_insert_ne. congruence.
Qed.

Lemma inline_style_effects : turn add_all id effects (fun _ : unit => inline_style id).
Proof.
  intros [] el w r Hr. unfold inline_style.
  destruct (el_html el) as [styleContent|];
    [destruct (Js.truthy (Some styleContent) && Js.trim_truthy styleContent)|].
  2, 3: exists tt, w, []; split; [reflexivity|]; split; [exact Hr|apply effects_none].
  rewrite (bind_val _ _ _ _ _ (fresh_uuid_run w)).
  rewrite (bind_val _ _ _ _ _ (fresh_uuid_run (bump w))).
  rewrite not_awaited_run.
  assert (Hb : extractions (bump (bump w)) !! id = Some r) by exact Hr.
  rewrite (addFileToExtraction_present _ id r _ Hb).
  eexists _, _, [_]. split; [reflexivity|]. cbn [snd put extractions].
  split; [apply lookup_insert_eq|].
  apply (effects_one _ _ _ (S (uuids w))); cbn; [lia| |reflexivity].
  intros other Hne. apply lookup_insert_ne. congruence.
Qed.

Lemma add_source_page_effects (includeSourcePage : bool) content w r :
  extractions w !! id = Some r ->
  exists res w' fs,
    add_source_page id includeSourcePage content w = (res, w') /\
    extractions w' !! id = Some (add_all r fs) /\ effects w w' fs.
Proof.
  intros Hr. destruct includeSourcePage.
  - destruct (is_text content) eqn:Ht.
    + destruct content as [| | |s| |]; try discriminate Ht.
      rewrite (add_source_page_text id s w r Hr).
      eexists _, _, [_]. split; [reflexivity|]. cbn [put extractions].
      split; [apply lookup_insert_eq|].
      apply (effects_one _ _ _ (uuids w)); cbn; [lia| |reflexivity].
      intros other Hne. apply lookup_insert_ne. congruence.
    + rewrite (add_source_page_throws id content w Ht).
      eexists _, _, []. split; [reflexivity|]. split; [exact Hr|].
      apply effects_skip; cbn; [lia|reflexivity].
  - exists (Val tt), w, []. split; [reflexivity|]. split; [exact Hr|apply effects_none].
Qed.

Lemma prepare_effects :
  turn add_all id effects
    (fun (acc : list Pending) assetUrl => p <- prepare assetUrl ;; ret (acc ++ option_list p)).
Proof.
  intros acc assetUrl w r Hr.
  assert (exists o w', prepare assetUrl w = (Val o, w') /\
                       uuids w <= uuids w' /\ extractions w' = extractions w)
    as (o & w' & E & Hu & He).
  { unfold prepare, try_catch.
    destruct (negb (Js.truthy (Some assetUrl)) || (2000 <? Js.utf16_length assetUrl)).
    { eexists _, _. split; [reflexivity|]. split; [lia|reflexivity]. }
    destruct (URL_new assetUrl None) as [urlObj|].
    2: { eexists _, _. split; [reflexivity|]. cbn. split; [lia|reflexivity]. }
    unfold bind at 1.
    destruct (String.eqb _ EmptyString).
    - unfold bind at 1, fresh_uuid, bind at 1, next_uuid, ret.
      destruct (Js.startsWith "data:" assetUrl || (1000 <? Js.utf16_length assetUrl));
        eexists _, _; (split; [reflexivity|]); cbn; split; (lia || reflexivity).
    - unfold ret at 1.
      destruct (Js.startsWith "data:" assetUrl || (1000 <? Js.utf16_length assetUrl));
        eexists _, _; (split; [reflexivity|]); cbn; split; (lia || reflexivity). }
  exists (acc ++ option_list o), w', [].
  split; [rewrite (bind_val _ _ _ _ _ E); reflexivity|].
  split; [rewrite He; exact Hr|]. apply effects_skip; assumption.
Qed.

Lemma complete_effects : turn add_all id effects (complete id).
Proof.
  intros assets p w r Hr. unfold complete, try_catch.
  destruct (settle p) as [[[content size] contentType]|e].
  - rewrite (bind_val _ _ _ _ _ (fresh_uuid_run w)).
    assert (Hb : extractions (bump w) !! id = Some r) by exact Hr.
    rewrite (bind_val _ _ _ _ _ (addFileToExtraction_present _ id r _ Hb)).
    destruct (is_css _ && _ && _); eexists _, _, [_];
      (split; [reflexivity|]); cbn [put extractions];
      (split; [apply lookup_insert_eq|]);
      (apply (effects_one _ _ _ (uuids w)); cbn; [lia| |reflexivity]);
      intros other Hne; apply lookup_insert_ne; congruence.
  - eexists _, _, []. split; [reflexivity|]. cbn.
    split; [exact Hr|]. apply effects_skip; cbn; [lia|reflexivity].
Qed.

Lemma run_batch_effects : turn add_all id effects (run_batch id).
Proof.
  intros assets batch w r Hr. unfold run_batch.
  destruct (fold_each_turns add_all id add_all_nil add_all_app effects effects_none
              effects_compose _ batch prepare_effects [] w r Hr)
    as (ps & w1 & fs1 & E1 & Hr1 & He1).
  rewrite (bind_val _ _ _ _ _ E1).
  destruct (fold_each_turns add_all id add_all_nil add_all_app effects effects_none
              effects_compose _ (schedule ps) complete_effects assets w1 _ Hr1)
    as (a2 & w2 & fs2 & E2 & Hr2 & He2).
  exists a2, w2, (fs1 ++ fs2). split; [exact E2|].
  split; [rewrite add_all_app; exact Hr2|].
  eapply effects_compose; eassumption.
Qed.

Lemma probe_effects : turn add_all id effects (probe id).
Proof.
  intros payloadCount apiUrl w r Hr. unfold probe.
  rewrite (bind_val _ _ _ _ _ (note_request_run apiUrl w)).
  destruct (axios_get_json apiUrl) as [apiResponse|e].
  2: { eexists _, _, []. split; [reflexivity|]. cbn. split; [exact Hr|].
       apply effects_skip; cbn; [lia|reflexivity]. }
  destruct (json_truthy (data apiResponse) && _).
  2: { eexists _, _, []. split; [reflexivity|]. cbn. split; [exact Hr|].
       apply effects_skip; cbn; [lia|reflexivity]. }
  unfold try_catch.
  rewrite (bind_val _ _ _ _ _ (fresh_uuid_run _)).
  assert (Hb : extractions (bump (snd (note_request apiUrl w))) !! id = Some r) by exact Hr.
  rewrite (bind_val _ _ _ _ _ (addFileToExtraction_present _ id r _ Hb)).
  eexists _, _, [_]. split; [reflexivity|]. cbn [put extractions].
  split; [apply lookup_insert_eq|].
  apply (effects_one _ _ _ (uuids w)); cbn; [lia| |reflexivity].
  intros other Hne. apply lookup_insert_ne. congruence.
Qed.

Lemma scan_and_fetch_effects url includePayloads includeSourcePage content
    (w : World ExtractionResult) r :
  extractions w !! id = Some r ->
  exists res w' fs,
    scan_and_fetch id url includePayloads includeSourcePage content w = (res, w') /\
    extractions w' !! id = Some (add_all r fs) /\ effects w w' fs.
Proof.
  intros Hr. unfold scan_and_fetch. cbv zeta. unfold bind at 1, lift.
  destruct (load content) as [doc|e].
  2: { exists (Throw e), w, []. split; [reflexivity|]. split; [exact Hr|apply effects_none]. }
  lazymatch goal with
  | |- context [fold_each ?l ?s (inline_script id url)] =>
      destruct (fold_each_turns add_all id add_all_nil add_all_app effects effects_none
                  effects_compose _ l (inline_script_effects url) s w r Hr)
        as (assets1 & w1 & fs1 & E1 & Hr1 & He1)
  end.
  rewrite (bind_val _ _ _ _ _ E1).
  lazymatch goal with
  | |- context [for_each ?l (inline_style id)] =>
      destruct (for_each_turns add_all id add_all_nil add_all_app effects effects_none
                  effects_compose _ l inline_style_effects w1 _ Hr1)
        as (w2 & fs2 & E2 & Hr2 & He2)
  end.
  rewrite (bind_val _ _ _ _ _ E2).
  destruct (add_source_page_effects includeSourcePage content w2 _ Hr2)
    as (res3 & w3 & fs3 & E3 & Hr3 & He3).
  destruct res3 as [[]|e3].
  2: { rewrite (bind_throw _ _ _ _ _ E3).
       exists (Throw e3), w3, (fs1 ++ fs2 ++ fs3). split; [reflexivity|].
       split; [rewrite !add_all_app; exact Hr3|].
       repeat (eapply effects_compose; [eassumption|]). exact He3. }
  rewrite (bind_val _ _ _ _ _ E3).
  lazymatch goal with
  | |- context [process_assets id ?a] =>
      destruct (fold_each_turns add_all id add_all_nil add_all_app effects effects_none
                  effects_compose _ (batches 10 a) run_batch_effects a w3 _ Hr3)
        as (assets4 & w4 & fs4 & E4 & Hr4 & He4)
  end.
  unfold process_assets at 1. rewrite (bind_val _ _ _ _ _ E4).
  assert (exists w5 fs5,
            (if includePayloads
             then probe_payloads id url doc
             else ret tt) w4 = (Val tt, w5) /\
            extractions w5 !! id
            = Some (add_all (add_all (add_all (add_all (add_all r fs1) fs2) fs3) fs4) fs5) /\
            effects w4 w5 fs5) as (w5 & fs5 & E5 & Hr5 & He5).
  { destruct includePayloads.
    - unfold probe_payloads.
      destruct (fold_each_turns add_all id add_all_nil add_all_app effects effects_none
                  effects_compose _
                  (take 5 (potentialApiUrls url doc)) probe_effects
                  0 w4 _ Hr4) as (n & w5 & fs5 & E5 & Hr5 & HT5).
      exists w5, fs5. split; [rewrite (bind_val _ _ _ _ _ E5); reflexivity|]. auto.
    - exists w4, []. split; [reflexivity|]. split; [exact Hr4|apply effects_none]. }
  exists (Val tt), w5, (fs1 ++ fs2 ++ fs3 ++ fs4 ++ fs5).
  split; [exact E5|].
  split; [rewrite Hr5, !add_all_app; reflexivity|].
  repeat (eapply effects_compose; [eassumption|]). exact He5.
Qed.
End Effects.

(** The whole run of the handler of [routes.ts]: the files of the record
    carry identifiers drawn after the one of the extraction, each by a call
    of its own, and the other records are as they were. *)
Lemma startExtraction_effects `{Runtime} (w0 : World ExtractionResult) (url : string)
    (includePayloads includeSourcePage : bool) :
  exists r ns,
    extractions (final w0 url includePayloads includeSourcePage) !! new_id w0 = Some r /\
    res_id r = new_id w0 /\ res_url r = url /\
    map file_id (res_files r) = map randomUUID ns /\
    NoDup ns /\
    Forall (fun n => uuids w0 < n < uuids (final w0 url includePayloads includeSourcePage)) ns /\
    uuids w0 < uuids (final w0 url includePayloads includeSourcePage) /\
    (forall other, other <> new_id w0 ->
       extractions (final w0 url includePayloads includeSourcePage) !! other
       = extractions w0 !! other).
Proof.
  destruct (axios_get_page url) as [mainResponse|e] eqn:Hpage.
  - destruct (scan_and_fetch_effects (new_id w0) url includePayloads includeSourcePage
                (data mainResponse) (asked w0 url) _ (asked_record w0 url))
      as (res & w3 & fs & E3 & Hr3 & Hu & Ho & ns & Hn & Hd & Hb).
    rewrite (final_resolved w0 url includePayloads includeSourcePage mainResponse
               _ _ _ Hpage E3 Hr3).
    set (id := new_id w0) in *.
    assert (Hid : forall fs', res_id (add_all (processing_record w0 url) fs') = id /\
                              res_url (add_all (processing_record w0 url) fs') = url).
    { intros fs'. unfold add_all.
      enough (forall r', res_id r' = id -> res_url r' = url ->
                res_id (fold_left added fs' r') = id /\
                res_url (fold_left added fs' r') = url) as G by (apply G; reflexivity).
      induction fs' as [|f fs' IH]; intros r' H1 H2; [auto|].
      cbn [fold_left]. apply IH; assumption. }
    assert (Hu0 : uuids (asked w0 url) = S (uuids w0)) by reflexivity.
    assert (Ho0 : forall other, other <> id ->
                    extractions (asked w0 url) !! other = extractions w0 !! other).
    { intros other Hne. subst id. cbn. rewrite !lookup_insert_ne by congruence. reflexivity. }
    destruct res as [[]|e]; eexists _, ns;
      (split; [cbn; apply lookup_insert_eq|]);
      (split; [cbn; apply Hid|]); (split; [cbn; apply Hid|]);
      (split; [cbn; rewrite add_all_files; exact Hn|]);
      (split; [exact Hd|]); (split; [|split]).
    1, 4: eapply Forall_impl; [exact Hb|]; cbn; intros n Hn'; lia.
    1, 3: cbn; lia.
    1, 2: intros other Hne; cbn [put extractions console_error snd];
      rewrite lookup_insert_ne by congruence; rewrite Ho by exact Hne; apply Ho0, Hne.
  - rewrite (startExtraction_rejected w0 url includePayloads includeSourcePage e Hpage).
    cbn zeta. cbn [extractions].
    exists (failed_record w0 url e), [].
    split; [apply lookup_insert_eq|]. split; [reflexivity|]. split; [reflexivity|].
    split; [reflexivity|]. split; [constructor|]. split; [constructor|].
    split; [cbn; lia|].
    intros other Hne. rewrite !lookup_insert_ne by congruence. reflexivity.
Qed.

(** ** The identifiers of the files *)

(** the search that the download of one file makes *)
Lemma find_by_id (l : list ExtractedFile) (f : ExtractedFile) :
  NoDup (map file_id l) -> In f l ->
  find (fun g => String.eqb (file_id g) (file_id f)) l = Some f.
Proof.
  induction l as [|g l IH]; intros Hnd Hf; [destruct Hf|].
  cbn [find]. destruct (String.eqb_spec (file_id g) (file_id f)) as [Eq|Ne].
  - destruct Hf as [->|Hf]; [reflexivity|].
    cbn [map] in Hnd. apply NoDup_cons in Hnd as [Hnot _]. exfalso. apply Hnot.
    rewrite Eq. apply list_elem_of_fmap. exists f. split; [reflexivity|].
    apply list_elem_of_In. exact Hf.
  - destruct Hf as [->|Hf]; [congruence|].
    cbn [map] in Hnd. apply NoDup_cons in Hnd as [_ Hnd]. apply IH; assumption.
Qed.

Lemma run_ids_NoDup `{Runtime} (w0 : World ExtractionResult) (url : string)
    (includePayloads includeSourcePage : bool) :
  (forall m n,
     m < uuids (final w0 url includePayloads includeSourcePage) ->
     n < uuids (final w0 url includePayloads includeSourcePage) ->
     randomUUID m = randomUUID n -> m = n) ->
  exists r,
    extractions (final w0 url includePayloads includeSourcePage) !! new_id w0 = Some r /\
    NoDup (map file_id (res_files r)) /\
    Forall (fun f => file_id f <> res_id r) (res_files r).
Proof.
  intros Hinj.
  destruct (startExtraction_effects w0 url includePayloads includeSourcePage)
    as (r & ns & Hr & Hid & _ & Hn & Hd & Hb & Hu & _).
  exists r. split; [exact Hr|].
  rewrite Forall_forall in Hb. split.
  - rewrite Hn. clear Hn. induction Hd as [|n ns Hnot Hd IH]; [constructor|].
    cbn [map]. apply NoDup_cons. split.
    + intros Hin. apply list_elem_of_fmap in Hin as (m & Em & Hin).
      apply Hinj in Em; [subst m; contradiction| |].
      * apply (Hb n). left.
      * apply (Hb m). right. exact Hin.
    + apply IH. intros m Hm. apply Hb. right. exact Hm.
  - apply Forall_forall. intros f Hf Heq.
    assert (Hin : file_id f ∈ map randomUUID ns).
    { rewrite <- Hn. apply list_elem_of_fmap. exists f. auto. }
    apply list_elem_of_fmap in Hin as (n & En & Hin).
    specialize (Hb n Hin). cbn in Hb.
    rewrite Heq, Hid in En. unfold new_id in En. apply Hinj in En; lia.
Qed.

(** X12: When [randomUUID] gives no identifier twice in the course of a run, the
    files of the extraction have identifiers that differ from one another
    and from the identifier of the extraction, and the search for a file by
    its identifier, as the download of one file makes it, finds that
    file. *)
Theorem file_ids_are_distinct `{Runtime} (w0 : World ExtractionResult) (url : string)
    (includePayloads includeSourcePage : bool) :
  (forall m n,
     m < uuids (final w0 url includePayloads includeSourcePage) ->
     n < uuids (final w0 url includePayloads includeSourcePage) ->
     randomUUID m = randomUUID n -> m = n) ->
  exists r,
    extractions (final w0 url includePayloads includeSourcePage) !! new_id w0 = Some r /\
    NoDup (map file_id (res_files r)) /\
    Forall (fun f => file_id f <> res_id r) (res_files r) /\
    (forall f, In f (res_files r) ->
       find (fun g => String.eqb (file_id g) (file_id f)) (res_files r) = Some f).
Proof.
  intros Hinj.
  destruct (run_ids_NoDup w0 url includePayloads includeSourcePage Hinj)
    as (r & Hr & Hnd & Hne).
  exists r. split; [exact Hr|]. split; [exact Hnd|]. split; [exact Hne|].
  intros f Hf. apply find_by_id; assumption.
Qed.

(** a check by enumeration that [f] gives no value twice below [b] *)
Lemma distinct_below (f : nat -> string) (b : nat) :
  forallb (fun m => forallb (fun n => implb (String.eqb (f m) (f n)) (m =? n)) (seq 0 b))
    (seq 0 b) = true ->
  forall m n, m < b -> n < b -> f m = f n -> m = n.
Proof.
  intros Hc m n Hm Hn E.
  rewrite forallb_forall in Hc. specialize (Hc m).
  rewrite forallb_forall in Hc.
  assert (Hmn : implb (String.eqb (f m) (f n)) (m =? n) = true).
  { apply Hc; apply in_seq; lia. }
  rewrite E, String.eqb_refl in Hmn. apply Nat.eqb_eq, Hmn.
Qed.

(** An instance of [file_ids_are_distinct]: the page of the example web
    with three assets. *)
Lemma file_ids_are_distinct_witness :
  exists r,
    extractions (final (H := Fixture.runtime) Fixture.w0 "https://ex.com/three" true true)
      !! new_id (H := Fixture.runtime) Fixture.w0 = Some r /\
    NoDup (map file_id (res_files r)).
Proof.
  destruct (file_ids_are_distinct (H := Fixture.runtime) Fixture.w0 "https://ex.com/three"
              true true) as (r & Hr & Hd & _).
  - apply distinct_below. vm_compute. reflexivity.
  - exists r. split; assumption.
Defined.

(** ** Other extractions *)

(** X13: A run writes to the record of its own extraction only: the records of
    the other extractions are at its end what they were at its start,
    whether the run completes or fails. *)
Theorem other_extractions_are_untouched `{Runtime} (w0 : World ExtractionResult)
    (url : string) (includePayloads includeSourcePage : bool) (other : string) :
  other <> new_id w0 ->
  extractions (final w0 url includePayloads includeSourcePage) !! other
  = extractions w0 !! other.
Proof.
  intros Hne.
  destruct (startExtraction_effects w0 url includePayloads includeSourcePage)
    as (r & ns & _ & _ & _ & _ & _ & _ & Ho).
  apply Ho, Hne.
Qed.

(** An instance of [other_extractions_are_untouched]: a second extraction
    leaves the record of the first one alone. *)
Lemma other_extractions_are_untouched_witness :
  extractions
    (final (H := Fixture.runtime)
       (created (H := Fixture.runtime) Fixture.w0 "https://ex.com/chain")
       "https://ex.com/three" true true)
    !! new_id (H := Fixture.runtime) Fixture.w0
  = Some (pending_record (H := Fixture.runtime) Fixture.w0 "https://ex.com/chain").
Proof.
  rewrite (other_extractions_are_untouched (H := Fixture.runtime)
             (created (H := Fixture.runtime) Fixture.w0 "https://ex.com/chain")
             "https://ex.com/three" true true
             (new_id (H := Fixture.runtime) Fixture.w0)).
  - vm_compute. reflexivity.
  - intros E. vm_compute in E. discriminate E.
Defined.

(** ** The requests of a run *)

Section Requests.
Context `{Runtime}.

(** what the body of [$('script:not([src])').each] leaves in the set *)
Definition script_assets (url : string) (assets : list string) (el : Element)
    : list string :=
  match el_html el with
  | Some scriptContent =>
      if Js.truthy (Some scriptContent) && Js.trim_truthy scriptContent
      then dynamic_imports url scriptContent assets
      else assets
  | None => assets
  end.

(** The set of assets when the loop over the batches starts: the
    stylesheets, the scripts, the images and the other links of the page,
    the dynamic imports of its inline scripts, its media and the
    [url(...)] references of its [style] attributes, each in the order of
    the document. *)
Definition page_assets (url : string) (doc : list Element) : list string :=
  let assets := [] in
  let assets :=
    collect url (fun el => is_tag "link" el && attr_is_nocase "rel" "stylesheet" el)
      (attr "href") doc assets in
  let assets :=
    collect url (fun el => is_tag "script" el && has_attr "src" el) (attr "src") doc assets in
  let assets :=
    collect url (fun el => is_tag "img" el && has_attr "src" el) (attr "src") doc assets in
  let assets :=
    collect url (fun el => is_tag "link" el && has_attr "href" el) wanted_link doc assets in
  let assets :=
    fold_left (script_assets url)
      (filter (fun el => is_tag "script" el && negb (has_attr "src" el) = true) doc) assets in
  let assets := collect url media_selector src_or_data doc assets in
  style_urls url doc assets.

Lemma inline_script_value id url assets el (w : World ExtractionResult) :
  fst (inline_script id url assets el w) = Val (script_assets url assets el).
Proof.
  unfold inline_script, script_assets.
  destruct (el_html el) as [scriptContent|]; [|reflexivity].
  destruct (Js.truthy (Some scriptContent) && Js.trim_truthy scriptContent); reflexivity.
Qed.

Lemma inline_scripts_value id url l assets (w : World ExtractionResult) assets' w' :
  fold_each l assets (inline_script id url) w = (Val assets', w') ->
  assets' = fold_left (script_assets url) l assets.
Proof.
  revert assets w. induction l as [|el l IH]; intros assets w E.
  - cbn in E. injection E as <- _. reflexivity.
  - cbn [fold_each] in E. unfold bind in E.
    pose proof (inline_script_value id url assets el w) as Hv.
    destruct (inline_script id url assets el w) as [[a|e] w1]; cbn in Hv; [|discriminate].
    injection Hv as ->. cbn [fold_left]. eapply IH, E.
Qed.

(** the name of the [k]-th payload *)
Definition payload_name (k : nat) : string :=
  "api-response-" +:+ show_nat k +:+ ".json".

(** the endpoints whose answer the probe stores: a truthy body with a
    JSON content type *)
Definition answers (apiUrl : string) : bool :=
  match axios_get_json apiUrl with
  | Resolved apiResponse =>
      json_truthy (data apiResponse) &&
      match header "content-type" apiResponse with
      | Some ct => Js.includes "json" ct
      | None => false
      end
  | Rejected _ => false
  end.

(** [f] is the payload file of the answer of [apiUrl] *)
Definition payload_of (apiUrl : string) (f : ExtractedFile) : Prop :=
  exists n i apiResponse,
    axios_get_json apiUrl = Resolved apiResponse /\ f = payloadFile n i apiUrl apiResponse.

Lemma probe_run id payloadCount apiUrl (w : World ExtractionResult) r :
  extractions w !! id = Some r ->
  exists w' fs,
    probe id payloadCount apiUrl w = (Val (payloadCount + length fs), w') /\
    requests w' = requests w ++ [apiUrl] /\
    extractions w' !! id = Some (add_all r fs) /\
    map file_name fs = map payload_name (seq (S payloadCount) (length fs)) /\
    Forall2 payload_of (filter (fun u => answers u = true) [apiUrl]) fs.
Proof.
  intros Hr. unfold probe. rewrite filter_cons, filter_nil. unfold answers.
  rewrite (bind_val _ _ _ _ _ (note_request_run apiUrl w)).
  destruct (axios_get_json apiUrl) as [apiResponse|e] eqn:Ea.
  2: { eexists _, []. cbn [length]. rewrite Nat.add_0_r. split; [reflexivity|]. cbn.
       split; [reflexivity|]. split; [exact Hr|]. split; [reflexivity|].
       destruct (decide (false = true)); [discriminate|constructor]. }
  destruct (json_truthy (data apiResponse) && _).
  2: { eexists _, []. cbn [length]. rewrite Nat.add_0_r. split; [reflexivity|]. cbn.
       split; [reflexivity|]. split; [exact Hr|]. split; [reflexivity|].
       destruct (decide (false = true)); [discriminate|constructor]. }
  unfold try_catch.
  rewrite (bind_val _ _ _ _ _ (fresh_uuid_run _)).
  assert (Hb : extractions (bump (snd (note_request apiUrl w))) !! id = Some r) by exact Hr.
  rewrite (bind_val _ _ _ _ _ (addFileToExtraction_present _ id r _ Hb)).
  eexists _, [_]. cbn [length]. rewrite Nat.add_1_r. split; [reflexivity|]. cbn.
  split; [reflexivity|]. split; [apply lookup_insert_eq|].
  split; [reflexivity|].
  destruct (decide (true = true)); [|congruence].
  constructor; [|constructor]. unfold payload_of. eauto.
Qed.

Lemma probe_loop id urls payloadCount (w : World ExtractionResult) r :
  extractions w !! id = Some r ->
  exists w' fs,
    fold_each urls payloadCount (probe id) w = (Val (payloadCount + length fs), w') /\
    requests w' = requests w ++ urls /\
    extractions w' !! id = Some (add_all r fs) /\
    map file_name fs = map payload_name (seq (S payloadCount) (length fs)) /\
    Forall2 payload_of (filter (fun u => answers u = true) urls) fs.
Proof.
  revert payloadCount w r. induction urls as [|u urls IH]; intros c w r Hr.
  - exists w, []. cbn. rewrite Nat.add_0_r, app_nil_r. repeat split; auto.
  - destruct (probe_run id c u w r Hr) as (w1 & fs1 & E1 & Hq1 & Hr1 & Hn1 & Hp1).
    destruct (IH (c + length fs1) w1 _ Hr1) as (w2 & fs2 & E2 & Hq2 & Hr2 & Hn2 & Hp2).
    exists w2, (fs1 ++ fs2).
    split.
    { cbn [fold_each]. rewrite (bind_val _ _ _ _ _ E1), E2, length_app, Nat.add_assoc.
      reflexivity. }
    split; [rewrite Hq2, Hq1, <- app_assoc; reflexivity|].
    split; [rewrite add_all_app; exact Hr2|].
    split.
    + rewrite length_app, seq_app, !map_app, Hn1. f_equal. exact Hn2.
    + change (u :: urls) with ([u] ++ urls). rewrite filter_app.
      apply Forall2_app; assumption.
Qed.
End Requests.

(** The requests of a batch leave before any of them settles, so that they
    do not depend on the order in which the requests settle. *)
Lemma run_batch_asks `{Runtime} (id : string) assets batch (w : World ExtractionResult) r :
  extractions w !! id = Some r ->
  exists assets' w' fs,
    run_batch id assets batch w = (Val assets', w') /\
    requests w' = requests w ++ filter (fun u => requested u = true) batch /\
    extractions w' !! id = Some (add_all r fs).
Proof.
  intros Hr.
  destruct (prepare_loop batch [] w) as (w1 & ps & E1 & He1 & Hq1 & Hu1 & _).
  assert (Hr1 : extractions w1 !! id = Some r) by (rewrite He1; exact Hr).
  destruct (complete_loop id (schedule ps) assets w1 r Hr1)
    as (a2 & w2 & ids & E2 & Hq2 & _ & Hr2 & _).
  eexists a2, w2, _.
  split; [unfold run_batch; rewrite (bind_val _ _ _ _ _ E1); exact E2|].
  split; [congruence|exact Hr2].
Qed.

Lemma batches_ask `{Runtime} (id : string) bs assets (w : World ExtractionResult) r :
  extractions w !! id = Some r ->
  exists assets' w' fs,
    fold_each bs assets (run_batch id) w = (Val assets', w') /\
    requests w' = requests w ++ filter (fun u => requested u = true) (concat bs) /\
    extractions w' !! id = Some (add_all r fs).
Proof.
  revert assets w r. induction bs as [|b bs IH]; intros assets w r Hr.
  - exists assets, w, []. cbn. rewrite app_nil_r. auto.
  - destruct (run_batch_asks id assets b w r Hr) as (a1 & w1 & fs1 & E1 & Hq1 & Hr1).
    destruct (IH a1 w1 _ Hr1) as (a2 & w2 & fs2 & E2 & Hq2 & Hr2).
    exists a2, w2, (fs1 ++ fs2).
    split; [cbn [fold_each]; rewrite (bind_val _ _ _ _ _ E1); exact E2|].
    split; [cbn [concat]; rewrite filter_app, Hq2, Hq1, app_assoc; reflexivity|].
    rewrite add_all_app. exact Hr2.
Qed.

Lemma process_assets_asks `{Runtime} (id : string) assets (w : World ExtractionResult) r :
  extractions w !! id = Some r ->
  exists assets' w' fs,
    process_assets id assets w = (Val assets', w') /\
    requests w' = requests w ++ filter (fun u => requested u = true) assets /\
    extractions w' !! id = Some (add_all r fs).
Proof.
  intros Hr. unfold process_assets.
  destruct (batches_ask id (batches 10 assets) assets w r Hr) as (a & w' & fs & E & Hq & Hr').
  exists a, w', fs. split; [exact E|]. split; [|exact Hr'].
  rewrite Hq. unfold batches. rewrite concat_slices by lia. reflexivity.
Qed.

(** The data of a root response can be read or not. *)
Lemma readable_or_not `{Runtime} (includeSourcePage : bool) (content : Json) :
  (exists doc, readable includeSourcePage content doc) \/
  (forall doc, ~ readable includeSourcePage content doc).
Proof.
  unfold readable. destruct (load content) as [doc|e]; [|right; intros doc [E _]; discriminate].
  destruct includeSourcePage; [|left; exists doc; split; [reflexivity|discriminate]].
  destruct (is_text content); [left; exists doc; auto|].
  right. intros doc' [_ Ht]. discriminate (Ht eq_refl).
Qed.

(** The stages of a run from the arrival of a root page that can be read:
    the requests are those of the assets of the page that pass the guards,
    in the order of the set, then those of the probe; the files that the
    probe stores are numbered from one. *)
Lemma scan_and_fetch_requests `{Runtime} (id url : string)
    (includePayloads includeSourcePage : bool) (content : Json) (doc : list Element)
    (w : World ExtractionResult) r :
  readable includeSourcePage content doc ->
  extractions w !! id = Some r ->
  exists w' fs payloads,
    scan_and_fetch id url includePayloads includeSourcePage content w = (Val tt, w') /\
    requests w'
    = requests w
      ++ filter (fun u => requested u = true) (page_assets url doc)
      ++ (if includePayloads then take 5 (potentialApiUrls url doc) else []) /\
    extractions w' !! id = Some (add_all r (fs ++ payloads)) /\
    map file_name payloads = map payload_name (seq 1 (length payloads)) /\
    Forall2 payload_of
      (filter (fun u => answers u = true)
         (if includePayloads then take 5 (potentialApiUrls url doc) else [])) payloads.
Proof.
  intros [Hload Hsrc] Hr. unfold scan_and_fetch. cbv zeta.
  unfold bind at 1, lift. rewrite Hload.
  lazymatch goal with
  | |- context [fold_each ?l ?s (inline_script id url)] =>
      destruct (fold_each_turns add_all id add_all_nil add_all_app quiet quiet_none
                  quiet_compose _ l (inline_script_turn id url) s w r Hr)
        as (assets1 & w1 & fs1 & E1 & Hr1 & Hq1 & _)
  end.
  rewrite (bind_val _ _ _ _ _ E1).
  apply inline_scripts_value in E1. subst assets1.
  lazymatch goal with
  | |- context [for_each ?l (inline_style id)] =>
      destruct (for_each_turns add_all id add_all_nil add_all_app quiet quiet_none
                  quiet_compose _ l (inline_style_turn id) w1 _ Hr1)
        as (w2 & fs2 & E2 & Hr2 & Hq2 & _)
  end.
  rewrite (bind_val _ _ _ _ _ E2).
  destruct (add_source_page_quiet id includeSourcePage content w2 _ Hsrc Hr2)
    as (w3 & fs3 & E3 & Hr3 & Hq3 & _).
  rewrite (bind_val _ _ _ _ _ E3).
  fold (page_assets url doc).
  destruct (process_assets_asks id (page_assets url doc) w3 _ Hr3)
    as (assets4 & w4 & fs4 & E4 & Hq4 & Hr4).
  rewrite (bind_val _ _ _ _ _ E4).
  destruct includePayloads.
  - unfold probe_payloads.
    destruct (probe_loop id (take 5 (potentialApiUrls url doc)) 0 w4 _ Hr4)
      as (w5 & fs5 & E5 & Hq5 & Hr5 & Hn5 & Hp5).
    exists w5, (fs1 ++ fs2 ++ fs3 ++ fs4), fs5.
    split; [rewrite (bind_val _ _ _ _ _ E5); reflexivity|].
    split; [rewrite Hq5, Hq4, Hq3, Hq2, Hq1, <- app_assoc; reflexivity|].
    split; [rewrite Hr5, <- !app_assoc, !add_all_app; reflexivity|].
    split; [exact Hn5|exact Hp5].
  - exists w4, (fs1 ++ fs2 ++ fs3 ++ fs4), [].
    split; [reflexivity|].
    split; [rewrite app_nil_r, Hq4, Hq3, Hq2, Hq1; reflexivity|].
    split; [rewrite app_nil_r, Hr4, !add_all_app; reflexivity|].
    split; [reflexivity|constructor].
Qed.

(** The whole run when the root page arrives and can be read. *)
Lemma startExtraction_requests `{Runtime} (w0 : World ExtractionResult) (url : string)
    (includePayloads includeSourcePage : bool) (mainResponse : Response Json)
    (doc : list Element) :
  axios_get_page url = Resolved mainResponse ->
  readable includeSourcePage (data mainResponse) doc ->
  exists r fs payloads,
    extractions (final w0 url includePayloads includeSourcePage) !! new_id w0 = Some r /\
    res_files r = fs ++ payloads /\
    requests (final w0 url includePayloads includeSourcePage)
    = requests w0
      ++ url
         :: filter (fun u => requested u = true) (page_assets url doc)
      ++ (if includePayloads then take 5 (potentialApiUrls url doc) else []) /\
    map file_name payloads = map payload_name (seq 1 (length payloads)) /\
    Forall2 payload_of
      (filter (fun u => answers u = true)
         (if includePayloads then take 5 (potentialApiUrls url doc) else [])) payloads.
Proof.
  intros Hpage Hread.
  destruct (scan_and_fetch_requests (new_id w0) url includePayloads includeSourcePage
              (data mainResponse) doc (asked w0 url) _ Hread (asked_record w0 url))
    as (w3 & fs & payloads & E3 & Hq & Hr3 & Hn & Hp).
  rewrite (final_resolved w0 url includePayloads includeSourcePage mainResponse
             _ _ _ Hpage E3 Hr3).
  eexists _, fs, payloads.
  split; [apply lookup_insert_eq|].
  split; [cbn; rewrite add_all_files; reflexivity|].
  split; [cbn [put requests]; rewrite Hq; cbn; rewrite <- app_assoc; reflexivity|].
  auto.
Qed.

(** *** The set of assets has no duplicates *)

Lemma fold_left_keeps {A B} (P : A -> Prop) (f : A -> B -> A) (l : list B) (a : A) :
  (forall a x, P a -> P (f a x)) -> P a -> P (fold_left f l a).
Proof.
  intros Hf. revert a. induction l as [|x l IH]; intros a Ha; [exact Ha|].
  cbn [fold_left]. apply IH, Hf, Ha.
Qed.

Lemma set_add_NoDup (u : string) (assets : list string) :
  NoDup assets -> NoDup (set_add u assets).
Proof.
  intros Hd. unfold set_add.
  destruct (existsb (String.eqb u) assets) eqn:Ee; [exact Hd|].
  apply NoDup_app. split; [exact Hd|]. split; [|apply NoDup_singleton].
  intros x Hx Hu. apply list_elem_of_singleton in Hu. subst x.
  assert (Ht : existsb (String.eqb u) assets = true).
  { apply existsb_exists. exists u. split; [apply list_elem_of_In, Hx|apply String.eqb_refl]. }
  congruence.
Qed.

Section NoDuplicates.
Context `{Runtime}.

Lemma collect_NoDup url selector pick doc assets :
  NoDup assets -> NoDup (collect url selector pick doc assets).
Proof.
  unfold collect. apply fold_left_keeps. intros a el Ha.
  destruct (pick el) as [v|]; [|exact Ha].
  destruct (Js.truthy (Some v)); [apply set_add_NoDup, Ha|exact Ha].
Qed.

Lemma dynamic_imports_NoDup url scriptContent assets :
  NoDup assets -> NoDup (dynamic_imports url scriptContent assets).
Proof.
  unfold dynamic_imports. apply fold_left_keeps. intros a m Ha.
  destruct (_ && _); [apply set_add_NoDup, Ha|exact Ha].
Qed.

Lemma style_urls_NoDup url doc assets :
  NoDup assets -> NoDup (style_urls url doc assets).
Proof.
  unfold style_urls. apply fold_left_keeps. intros a el Ha.
  destruct (attr "style" el) as [style|]; [|exact Ha].
  destruct (Js.truthy (Some style)); [|exact Ha].
  apply fold_left_keeps; [|exact Ha]. intros a' m Ha'. apply set_add_NoDup, Ha'.
Qed.

Lemma css_references_NoDup assetUrl cssContent assets :
  NoDup assets -> NoDup (css_references assetUrl cssContent assets).
Proof.
  intros Ha. unfold css_references.
  apply fold_left_keeps.
  { intros a m Hd. destruct (_ && _); [apply set_add_NoDup, Hd|exact Hd]. }
  apply fold_left_keeps; [|exact Ha].
  intros a m Hd. destruct (_ && _); [apply set_add_NoDup, Hd|exact Hd].
Qed.

Lemma page_assets_NoDup url doc : NoDup (page_assets url doc).
Proof.
  unfold page_assets. cbv zeta.
  apply style_urls_NoDup, collect_NoDup.
  apply fold_left_keeps.
  { intros a el Ha. unfold script_assets.
    destruct (el_html el) as [sc|]; [|exact Ha].
    destruct (_ && _); [apply dynamic_imports_NoDup, Ha|exact Ha]. }
  do 4 apply collect_NoDup. constructor.
Qed.

Lemma potentialApiUrls_NoDup url doc : NoDup (potentialApiUrls url doc).
Proof.
  unfold potentialApiUrls. cbv zeta.
  apply fold_left_keeps; [intros a e Ha; apply set_add_NoDup, Ha|].
  apply fold_left_keeps; [|constructor].
  intros a el Ha. apply fold_left_keeps; [|exact Ha].
  intros a' m Ha'. apply set_add_NoDup, Ha'.
Qed.
End NoDuplicates.

Lemma take_NoDup {A} (n : nat) (l : list A) : NoDup l -> NoDup (take n l).
Proof.
  intros Hd. rewrite <- (take_drop n l) in Hd. apply NoDup_app in Hd as [Hd _]. exact Hd.
Qed.

(** what the guards of the asset loop let through *)
Definition guarded `{Runtime} (u : string) : Prop :=
  u <> EmptyString /\ Js.startsWith "data:" u = false /\
  Js.utf16_length u <= 1000 /\ is_Some (URL_new u None).

Lemma requested_guarded `{Runtime} (u : string) : requested u = true -> guarded u.
Proof.
  unfold requested, guarded. intros Hr.
  apply andb_true_iff in Hr as [Hr H3]. apply andb_true_iff in Hr as [H1 H2].
  apply negb_true_iff, orb_false_iff in H1 as [H1 _].
  apply negb_true_iff, orb_false_iff in H3 as [H3 H4].
  split.
  { intros ->. discriminate H1. }
  split; [exact H3|]. split; [apply Nat.ltb_ge, H4|].
  destruct (URL_new u None); [eauto|discriminate].
Qed.



(** X15: No asset is requested twice in a run, and no request of an asset
    leaves for an empty URL, a [data:] URL, a URL of more than a thousand
    characters or one that the [URL] class does not parse; the probe asks
    for five endpoints at most, each once. *)
Theorem asset_requests_are_guarded `{Runtime} (w0 : World ExtractionResult) (url : string)
    (includePayloads includeSourcePage : bool) (mainResponse : Response Json) :
  axios_get_page url = Resolved mainResponse ->
  exists assets probes,
    requests (final w0 url includePayloads includeSourcePage)
    = requests w0 ++ url :: assets ++ probes /\
    NoDup assets /\ Forall guarded assets /\
    NoDup probes /\ length probes <= 5 /\
    (includePayloads = false -> probes = []).
Proof.
  intros Hpage.
  destruct (readable_or_not includeSourcePage (data mainResponse)) as [[doc Hread]|Hun].
  - destruct (startExtraction_requests w0 url includePayloads includeSourcePage mainResponse
                doc Hpage Hread) as (r & fs & payloads & _ & _ & Hq & _).
    eexists _, _. split; [exact Hq|].
    split; [apply NoDup_filter, page_assets_NoDup|].
    split.
    { apply Forall_forall. intros u Hu. apply list_elem_of_filter in Hu as [Hu _].
      apply requested_guarded, Hu. }
    destruct includePayloads.
    + split; [apply take_NoDup, potentialApiUrls_NoDup|].
      split; [rewrite length_take; lia|discriminate].
    + split; [constructor|]. split; [cbn; lia|reflexivity].
  - destruct (unreadable_root_fails w0 url includePayloads includeSourcePage
                mainResponse Hpage Hun) as (r & _ & _ & _ & Hq).
    exists [], []. split; [exact Hq|].
    split; [constructor|]. split; [constructor|]. split; [constructor|].
    split; [cbn; lia|reflexivity].
Qed.

(** An instance of [asset_requests_are_guarded]: the page of the example
    web with three assets. *)
Lemma asset_requests_are_guarded_witness :
  exists assets probes,
    requests (final (H := Fixture.runtime) Fixture.w0 "https://ex.com/three" false true)
    = requests (R := ExtractionResult) Fixture.w0 ++ "https://ex.com/three" :: assets ++ probes /\
    NoDup assets /\ probes = [].
Proof.
  destruct (asset_requests_are_guarded (H := Fixture.runtime) Fixture.w0
              "https://ex.com/three" false true
              {| status := 200; headers := [("content-type", "text/html")];
                 data := JStr Fixture.three_page |})
    as (assets & probes & Hq & Hd & _ & _ & _ & Hp).
  - reflexivity.
  - exists assets, probes. split; [exact Hq|]. split; [exact Hd|]. apply Hp. reflexivity.
Defined.

(** ** The payloads of the probe *)


(** a file made from the page is not a payload *)
Lemma synthesized_not_payload `{Runtime} (f : ExtractedFile) :
  synthesized f -> file_type f <> payload.
Proof.
  intros [(n & i & c & ->)|[(n & i & c & ->)|(i & c & ->)]]; discriminate.
Qed.

(** X16: When the payloads are asked for and the root page arrives and can be
    read, the probe stores one file for each of the first five candidate
    endpoints that answers with a truthy body and a JSON content type, and
    none for the others; these files are the last ones of the result, in
    the order of the requests, and they are named [api-response-1.json],
    [api-response-2.json] and so on without a gap, under [payloads].
    Without the option the probe stores nothing.  When the page cannot be
    read the run fails before the probe, and the result has no payload. *)
Theorem payloads_are_numbered `{Runtime} (w0 : World ExtractionResult) (url : string)
    (includePayloads includeSourcePage : bool) (mainResponse : Response Json) :
  axios_get_page url = Resolved mainResponse ->
  (forall doc,
     readable includeSourcePage (data mainResponse) doc ->
     exists r fs payloads,
       extractions (final w0 url includePayloads includeSourcePage) !! new_id w0 = Some r /\
       res_files r = fs ++ payloads /\
       Forall2 payload_of
         (filter (fun u => answers u = true)
            (if includePayloads then take 5 (potentialApiUrls url doc) else [])) payloads /\
       map file_name payloads = map payload_name (seq 1 (length payloads)) /\
       map file_path payloads
       = map (fun k => "payloads/" +:+ payload_name k) (seq 1 (length payloads)) /\
       length payloads <= 5) /\
  ((forall doc, ~ readable includeSourcePage (data mainResponse) doc) ->
   exists r,
     extractions (final w0 url includePayloads includeSourcePage) !! new_id w0 = Some r /\
     res_status r = failed /\
     Forall (fun f => file_type f <> payload) (res_files r)).
Proof.
  intros Hpage. split.
  - intros doc Hread.
    destruct (startExtraction_requests w0 url includePayloads includeSourcePage mainResponse
                doc Hpage Hread) as (r & fs & payloads & Hr & Hf & _ & Hn & Hp).
    exists r, fs, payloads. split; [exact Hr|]. split; [exact Hf|].
    split; [exact Hp|]. split; [exact Hn|]. split.
    + rewrite <- (map_map payload_name (fun n => "payloads/" +:+ n)), <- Hn, map_map.
      apply map_ext_Forall. clear Hn Hf.
      remember (filter _ _) as us eqn:Eus. clear Eus.
      induction Hp as [|u f us fs' (n & i & resp & _ & ->) _ IH]; constructor;
        [reflexivity|exact IH].
    + apply Forall2_length in Hp. rewrite <- Hp.
      etransitivity; [apply length_filter|].
      destruct includePayloads; [rewrite length_take; lia|cbn; lia].
  - intros Hun.
    destruct (unreadable_root_fails w0 url includePayloads includeSourcePage mainResponse
                Hpage Hun) as (r & Hr & Hs & Hf & _).
    exists r. split; [exact Hr|]. split; [exact Hs|].
    eapply Forall_impl; [exact Hf|]. intros f. apply synthesized_not_payload.
Qed.

(** An instance of [payloads_are_numbered]: of the four common endpoints
    of the example web the first and the third answer with JSON. *)
Lemma payloads_are_numbered_witness :
  exists r fs payloads,
    extractions (final (H := ApiFixture.runtime) Fixture.w0 "https://ex.com/three" true false)
      !! new_id (H := ApiFixture.runtime) Fixture.w0 = Some r /\
    res_files r = fs ++ payloads /\
    map file_path payloads
    = ["payloads/api-response-1.json"; "payloads/api-response-2.json"].
Proof.
  destruct (proj1 (payloads_are_numbered (H := ApiFixture.runtime) Fixture.w0
                     "https://ex.com/three" true false
                     {| status := 200; headers := [("content-type", "text/html")];
                        data := JStr Fixture.three_page |} eq_refl)
              (Fixture.fx_cheerio_load Fixture.three_page))
    as (r & fs & payloads & Hr & Hf & Hp & _ & Hpath & _).
  - split; [reflexivity|discriminate].
  - exists r, fs, payloads. split; [exact Hr|]. split; [exact Hf|].
    rewrite Hpath. apply Forall2_length in Hp. rewrite <- Hp. vm_compute. reflexivity.
Defined.

(** ** References in stylesheets and in style attributes *)

(** every character of [s] is in the class [P] *)
Fixpoint every (P : ascii -> bool) (s : string) : bool :=
  match s with
  | EmptyString => true
  | String c r => P c && every P r
  end.

(** [t] does not go on with a character of the class [P] *)
Definition stops (P : ascii -> bool) (t : string) : Prop :=
  match t with
  | EmptyString => True
  | String c _ => P c = false
  end.

(** A greedy run over a class reads all of [s] when what follows lets the
    rest of the expression match. *)
Lemma star_every {R} (P : ascii -> bool) (s t : string) (k : string -> option R) v :
  every P s = true -> stops P t -> k t = Some v ->
  Regex.star P (s +:+ t) k = Some v.
Proof.
  intros Hs Ht Hk. induction s as [|c s IH].
  - change (EmptyString +:+ t) with t. destruct t as [|c r]; [exact Hk|].
    cbn [Regex.star]. cbn in Ht. rewrite Ht. exact Hk.
  - change (String c s +:+ t) with (String c (s +:+ t)).
    cbn [every] in Hs. apply andb_true_iff in Hs as [Hc Hs].
    cbn [Regex.star]. rewrite Hc, (IH Hs). reflexivity.
Qed.

Lemma substring_append (x y : string) : String.substring 0 (String.length x) (x +:+ y) = x.
Proof.
  induction x as [|c x IH].
  - destruct y; reflexivity.
  - change (String c x +:+ y) with (String c (x +:+ y)). cbn [String.length String.substring].
    rewrite IH. reflexivity.
Qed.


Lemma consumed_append (x y : string) : Regex.consumed (x +:+ y) y = x.
Proof.
  unfold Regex.consumed. rewrite length_append_string.
  replace (String.length x + String.length y - String.length y) with (String.length x) by lia.
  apply substring_append.
Qed.

Lemma append_nil_r_string (s : string) : s +:+ EmptyString = s.
Proof.
  induction s as [|c s IH]; [reflexivity|].
  change (String c s +:+ EmptyString) with (String c (s +:+ EmptyString)). rewrite IH. reflexivity.
Qed.

(** One attempt of [/url\(Q?([^Q)]+)Q?\)/] on an unquoted reference. *)
Lemma exec_css_url (p b : string) :
  p <> EmptyString -> every Re.not_quote_paren p = true ->
  Regex.exec Re.css_url ("url(" +:+ (p +:+ (")" +:+ b)))
  = Some ("url(" +:+ (p +:+ ")"), [(1, p)], b).
Proof.
  intros Hne Hp. destruct p as [|c p]; [congruence|]. clear Hne.
  cbn [every] in Hp. apply andb_true_iff in Hp as [Hc Hp].
  unfold Regex.exec, Re.css_url, Re.url_tail, Regex.Plus. cbn [Regex.run].
  rewrite drop_prefix_append.
  change (String c p +:+ (")" +:+ b)) with (String c (p +:+ (")" +:+ b))).
  assert (Hq : Regex.quote c = false).
  { revert Hc. unfold Re.not_quote_paren, Regex.none_of, Regex.quote, Regex.one_of.
    destruct c as [[] [] [] [] [] [] [] []]; vm_compute; congruence. }
  cbv beta iota. rewrite Hq, Hc. cbn [Regex.or_try].
  change (")" +:+ b) with (String ")" b).
  apply star_every; [exact Hp|reflexivity|].
  replace (Regex.quote ")") with false by reflexivity.
  cbn [Regex.or_try Regex.drop_prefix]. rewrite Ascii.eqb_refl.
  assert (G1 : Regex.consumed ("url(" +:+ String c (p +:+ String ")" b)) b
               = "url(" +:+ (String c p +:+ ")")).
  { replace ("url(" +:+ String c (p +:+ String ")" b))
      with (("url(" +:+ (String c p +:+ ")")) +:+ b).
    - apply consumed_append.
    - rewrite !append_assoc_string. reflexivity. }
  assert (G2 : Regex.consumed (String c (p +:+ String ")" b)) (String ")" b) = String c p).
  { change (String c (p +:+ String ")" b)) with (String c p +:+ String ")" b).
    apply consumed_append. }
  rewrite G1, G2. reflexivity.
Qed.

Lemma quote_not_in_class (c : ascii) :
  Regex.quote c = true -> Re.not_quote_paren c = false.
Proof.
  unfold Re.not_quote_paren, Regex.none_of, Regex.quote, Regex.one_of.
  destruct c as [[] [] [] [] [] [] [] []]; vm_compute; congruence.
Qed.

(** One attempt of the same expression on a reference between quotes. *)
Lemma exec_css_url_quoted (c : ascii) (p b : string) :
  Regex.quote c = true -> p <> EmptyString -> every Re.not_quote_paren p = true ->
  Regex.exec Re.css_url ("url(" +:+ String c (p +:+ String c (")" +:+ b)))
  = Some ("url(" +:+ String c (p +:+ String c ")"), [(1, p)], b).
Proof.
  intros Hq Hne Hp. destruct p as [|c0 p]; [congruence|]. clear Hne.
  cbn [every] in Hp. apply andb_true_iff in Hp as [Hc Hp].
  unfold Regex.exec, Re.css_url, Re.url_tail, Regex.Plus. cbn [Regex.run].
  rewrite drop_prefix_append.
  change (String c0 p +:+ String c (")" +:+ b)) with (String c0 (p +:+ String c (")" +:+ b))).
  cbv beta iota. rewrite Hq, Hc.
  change (")" +:+ b) with (String ")" b).
  erewrite (star_every Re.not_quote_paren p (String c (String ")" b)));
    [reflexivity|exact Hp|apply quote_not_in_class, Hq|].
  cbv beta iota. rewrite Hq.
  cbn [Regex.or_try Regex.drop_prefix]. rewrite Ascii.eqb_refl.
  assert (G1 : Regex.consumed ("url(" +:+ String c (String c0 (p +:+ String c (String ")" b)))) b
               = "url(" +:+ String c (String c0 p +:+ String c ")")).
  { replace ("url(" +:+ String c (String c0 (p +:+ String c (String ")" b))))
      with (("url(" +:+ String c (String c0 p +:+ String c ")")) +:+ b).
    - apply consumed_append.
    - change (String c (String c0 p +:+ String c ")"))
        with (String c EmptyString +:+ (String c0 p +:+ (String c EmptyString +:+ ")"))).
      change (String c (String c0 (p +:+ String c (String ")" b))))
        with (String c EmptyString +:+ (String c0 p +:+ (String c EmptyString +:+ (")" +:+ b)))).
      rewrite !append_assoc_string. reflexivity. }
  assert (G2 : Regex.consumed (String c0 (p +:+ String c (String ")" b))) (String c (String ")" b))
               = String c0 p).
  { change (String c0 (p +:+ String c (String ")" b)))
      with (String c0 p +:+ String c (String ")" b)).
    apply consumed_append. }
  rewrite G1, G2. reflexivity.
Qed.


Lemma exec_css_url_none (t : string) :
  Regex.drop_prefix "url(" t = None -> Regex.exec Re.css_url t = None.
Proof.
  intros Hd. unfold Regex.exec, Re.css_url. cbn [Regex.run]. rewrite Hd. reflexivity.
Qed.

(** In a text without an opening parenthesis, followed by nothing or by
    [url(], the literal [url(] starts nowhere. *)
Lemma no_paren_no_url (a t : string) :
  Js.includes "(" a = false -> a <> EmptyString ->
  t = EmptyString \/ (exists r, t = "url(" +:+ r) ->
  Regex.drop_prefix "url(" (a +:+ t) = None.
Proof.
  intros Ha Hne Ht.
  destruct a as [|c0 a]; [congruence|]. clear Hne.
  rewrite includes_char in Ha. apply orb_false_iff in Ha as [_ Ha].
  change (String c0 a +:+ t) with (String c0 (a +:+ t)).
  cbn [Regex.drop_prefix]. destruct (Ascii.eqb "u" c0); [|reflexivity].
  destruct a as [|c1 a].
  { change (EmptyString +:+ t) with t. destruct Ht as [->|[r ->]]; reflexivity. }
  rewrite includes_char in Ha. apply orb_false_iff in Ha as [_ Ha].
  change (String c1 a +:+ t) with (String c1 (a +:+ t)).
  cbn [Regex.drop_prefix]. destruct (Ascii.eqb "r" c1); [|reflexivity].
  destruct a as [|c2 a].
  { change (EmptyString +:+ t) with t. destruct Ht as [->|[r ->]]; reflexivity. }
  rewrite includes_char in Ha. apply orb_false_iff in Ha as [_ Ha].
  change (String c2 a +:+ t) with (String c2 (a +:+ t)).
  cbn [Regex.drop_prefix]. destruct (Ascii.eqb "l" c2); [|reflexivity].
  destruct a as [|c3 a].
  { change (EmptyString +:+ t) with t. destruct Ht as [->|[r ->]]; reflexivity. }
  rewrite includes_char in Ha. apply orb_false_iff in Ha as [Hc3 _].
  change (String c3 a +:+ t) with (String c3 (a +:+ t)).
  cbn [Regex.drop_prefix]. rewrite Ascii.eqb_sym, Hc3. reflexivity.
Qed.

Lemma match_all_css_url_skip (a t : string) :
  Js.includes "(" a = false ->
  t = EmptyString \/ (exists r, t = "url(" +:+ r) ->
  Regex.match_all Re.css_url (a +:+ t) 0 = Regex.match_all Re.css_url t 0.
Proof.
  intros Ha Ht. induction a as [|c a IH]; [reflexivity|].
  pose proof (no_paren_no_url (String c a) t Ha ltac:(discriminate) Ht) as Hd.
  apply exec_css_url_none in Hd.
  change (String c a +:+ t) with (String c (a +:+ t)) in *.
  cbn [Regex.match_all]. rewrite Hd.
  rewrite includes_char in Ha. apply orb_false_iff in Ha as [_ Ha]. apply IH, Ha.
Qed.

Lemma match_all_skip (r : Regex.t) (x y : string) :
  Regex.match_all r (x +:+ y) (String.length x) = Regex.match_all r y 0.
Proof.
  induction x as [|c x IH]; [reflexivity|].
  change (String c x +:+ y) with (String c (x +:+ y)). cbn [String.length Regex.match_all].
  exact IH.
Qed.

(** a reference as a stylesheet writes it: bare, or between two quotes *)
Definition in_quotes (q : option ascii) (p : string) : string :=
  match q with
  | None => p
  | Some c => String c (p +:+ String c EmptyString)
  end.

Definition quote_or_none (q : option ascii) : Prop :=
  match q with
  | None => True
  | Some c => Regex.quote c = true
  end.

(** One attempt of [/url\(Q?([^Q)]+)Q?\)/] on a reference. *)
Lemma exec_css_url_reference (q : option ascii) (p b : string) :
  quote_or_none q -> p <> EmptyString -> every Re.not_quote_paren p = true ->
  Regex.exec Re.css_url ("url(" +:+ ((in_quotes q p +:+ ")") +:+ b))
  = Some ("url(" +:+ (in_quotes q p +:+ ")"), [(1, p)], b).
Proof.
  intros Hq Hne Hp. destruct q as [c|]; cbn [in_quotes quote_or_none] in *.
  - replace ((String c (p +:+ String c EmptyString) +:+ ")") +:+ b)
      with (String c (p +:+ String c (")" +:+ b))).
    + replace (String c (p +:+ String c EmptyString) +:+ ")")
        with (String c (p +:+ String c ")")).
      * apply exec_css_url_quoted; assumption.
      * change (String c (p +:+ String c EmptyString) +:+ ")")
          with (String c ((p +:+ String c EmptyString) +:+ ")")).
        rewrite append_assoc_string. reflexivity.
    + change ((String c (p +:+ String c EmptyString) +:+ ")") +:+ b)
        with (String c (((p +:+ String c EmptyString) +:+ ")") +:+ b)).
      rewrite !append_assoc_string. reflexivity.
  - rewrite append_assoc_string. apply exec_css_url; assumption.
Qed.

(** [content.match(/url\(Q?([^Q)]+)Q?\)/g)] on a text with one
    reference *)
Lemma match_all_css_url (a body b : string) (caps : Regex.Caps) :
  Js.includes "(" a = false -> Js.includes "(" b = false ->
  Regex.exec Re.css_url ("url(" +:+ (body +:+ b)) = Some ("url(" +:+ body, caps, b) ->
  Regex.match_all Re.css_url (a +:+ ("url(" +:+ (body +:+ b))) 0 = ["url(" +:+ body].
Proof.
  intros Ha Hb He.
  rewrite match_all_css_url_skip by eauto.
  change ("url(" +:+ (body +:+ b)) with (String "u" ("rl(" +:+ (body +:+ b))) in *.
  cbn [Regex.match_all]. rewrite He. f_equal.
  change ("url(" +:+ body) with (String "u" ("rl(" +:+ body)).
  cbn [String.length]. rewrite Nat.sub_succ, Nat.sub_0_r.
  replace ("rl(" +:+ (body +:+ b)) with (("rl(" +:+ body) +:+ b)
    by (rewrite !append_assoc_string; reflexivity).
  rewrite match_all_skip.
  rewrite <- (append_nil_r_string b).
  rewrite match_all_css_url_skip by auto. reflexivity.
Qed.

(** [match.replace(/url\(Q?([^Q)]+)Q?\)/, '$1')] on a reference *)
Lemma replace_css_url (q : option ascii) (p : string) :
  quote_or_none q -> p <> EmptyString -> every Re.not_quote_paren p = true ->
  Regex.replace Re.css_url (Regex.cap 1) ("url(" +:+ (in_quotes q p +:+ ")")) = p.
Proof.
  intros Hq Hne Hp.
  pose proof (exec_css_url_reference q p EmptyString Hq Hne Hp) as He.
  rewrite append_nil_r_string in He.
  change ("url(" +:+ (in_quotes q p +:+ ")"))
    with (String "u" ("rl(" +:+ (in_quotes q p +:+ ")"))) in *.
  cbn [Regex.replace]. rewrite He. cbn. apply append_nil_r_string.
Qed.

Lemma drop_prefix_not_prefix (l t : string) :
  String.prefix l t = false -> Regex.drop_prefix l t = None.
Proof.
  revert t. induction l as [|x l IH]; intros t Hp.
  - destruct t; discriminate Hp.
  - destruct t as [|y t]; [reflexivity|].
    cbn [String.prefix Regex.drop_prefix] in *.
    destruct (ascii_dec x y) as [->|Hne].
    + rewrite Ascii.eqb_refl. apply IH, Hp.
    + apply Ascii.eqb_neq in Hne. rewrite Hne. reflexivity.
Qed.

(** an expression that starts with a literal matches nowhere in a text
    that does not include the literal *)
Lemma match_all_none (r : Regex.t) (lit s : string) :
  (forall t, String.prefix lit t = false -> Regex.exec r t = None) ->
  Js.includes lit s = false ->
  Regex.match_all r s 0 = [].
Proof.
  intros Hr. induction s as [|c s IH]; intros Hi.
  - cbn [Js.includes] in Hi. apply orb_false_iff in Hi as [Hp _].
    cbn [Regex.match_all]. rewrite (Hr _ Hp). reflexivity.
  - cbn [Js.includes] in Hi. apply orb_false_iff in Hi as [Hp Hi].
    cbn [Regex.match_all]. rewrite (Hr _ Hp). apply IH, Hi.
Qed.

Lemma exec_css_import_none (t : string) :
  String.prefix "@import" t = false -> Regex.exec Re.css_import t = None.
Proof.
  intros Hp. apply drop_prefix_not_prefix in Hp.
  unfold Regex.exec, Re.css_import. cbn [Regex.run]. rewrite Hp. reflexivity.
Qed.

(** X17: A stylesheet without [@import] whose only parentheses are those of
    one [url(...)] reference, bare or between quotes, that is not a [data:]
    URL: the search for references adds that reference, resolved against
    the URL of the stylesheet, to the set of assets, and nothing else.  The
    same reference in a [style] attribute of the page is added as well,
    resolved against the URL of the page. *)
Theorem stylesheet_reference_is_found `{Runtime} (assetUrl a p b : string) (q : option ascii)
    (assets : list string) (el : Element) (url : string) :
  Js.includes "(" a = false -> Js.includes "(" b = false ->
  quote_or_none q -> p <> EmptyString -> every Re.not_quote_paren p = true ->
  Js.startsWith "data:" p = false ->
  Js.includes "@import" (a +:+ ("url(" +:+ ((in_quotes q p +:+ ")") +:+ b))) = false ->
  attr "style" el = Some (a +:+ ("url(" +:+ ((in_quotes q p +:+ ")") +:+ b))) ->
  css_references assetUrl (a +:+ ("url(" +:+ ((in_quotes q p +:+ ")") +:+ b))) assets
  = set_add (resolveUrl assetUrl p) assets /\
  style_urls url [el] assets = set_add (resolveUrl url p) assets.
Proof.
  intros Ha Hb Hq Hne Hp Hd Hi Hs.
  pose proof (match_all_css_url a _ b _ Ha Hb (exec_css_url_reference q p b Hq Hne Hp)) as Hm.
  split.
  - unfold css_references.
    rewrite (match_all_none Re.css_import "@import" _ exec_css_import_none Hi), Hm.
    cbn [fold_left]. rewrite (replace_css_url q p Hq Hne Hp), Hd.
    apply String.eqb_neq in Hne. cbn [Js.truthy]. rewrite Hne. reflexivity.
  - unfold style_urls. cbn [fold_left]. rewrite Hs.
    assert (Ht : Js.truthy (Some (a +:+ ("url(" +:+ ((in_quotes q p +:+ ")") +:+ b))))
                 = true).
    { cbn [Js.truthy]. apply negb_true_iff, String.eqb_neq.
      destruct a; discriminate. }
    rewrite Ht, Hm. cbn [fold_left]. rewrite (replace_css_url q p Hq Hne Hp). reflexivity.
Qed.

(** An instance of [stylesheet_reference_is_found]: a background image
    between single quotes. *)
Lemma stylesheet_reference_is_found_witness :
  css_references (H := Fixture.runtime) "https://ex.com/css/site.css"
    "body{background:url('/img/bg.png')}" []
  = ["https://ex.com/img/bg.png"].
Proof.
  apply (stylesheet_reference_is_found (H := Fixture.runtime) "https://ex.com/css/site.css"
           "body{background:" "/img/bg.png" "}" (Some "'"%char) []
           (Fixture.el "div" [("style", "body{background:url('/img/bg.png')}")] None)
           "https://ex.com/");
    try reflexivity.
  discriminate.
Defined.

(** ** The status in the course of a run *)

(** The stages of the pipeline keep every property of the world that
    [addFileToExtraction] keeps and that reads the map and its history
    only. *)
Section AnyInvariant.
Context `{Runtime}.
Variables (I : World ExtractionResult -> Prop) (id : string).
Hypothesis I_stable : stable I.
Hypothesis I_add : forall f, ok I (addFileToExtraction id f).

Lemma any_fresh_uuid : ok I fresh_uuid.
Proof. unfold fresh_uuid. repeat hoare_step. Qed.

Ltac stage :=
  repeat first [ hoare_step | apply any_fresh_uuid | apply I_add ].

Lemma any_inline_script url assets el : ok I (inline_script id url assets el).
Proof. unfold inline_script. stage. Qed.

Lemma any_inline_style el : ok I (inline_style id el).
Proof. unfold inline_style. stage. Qed.

Lemma any_prepare assetUrl : ok I (prepare assetUrl).
Proof. unfold prepare. stage. Qed.

Lemma any_complete assets p : ok I (complete id assets p).
Proof. unfold complete. stage. Qed.

Lemma any_run_batch assets batch : ok I (run_batch id assets batch).
Proof. unfold run_batch. stage; [apply any_prepare|apply any_complete]. Qed.

Lemma any_process_assets assets : ok I (process_assets id assets).
Proof. unfold process_assets. stage. apply any_run_batch. Qed.

Lemma any_probe payloadCount apiUrl : ok I (probe id payloadCount apiUrl).
Proof. unfold probe. stage. Qed.

Lemma any_probe_payloads url doc : ok I (probe_payloads id url doc).
Proof. unfold probe_payloads. stage. apply any_probe. Qed.

Lemma any_scan_and_fetch url includePayloads includeSourcePage content :
  keeps I (scan_and_fetch id url includePayloads includeSourcePage content).
Proof.
  unfold scan_and_fetch.
  apply keeps_bind; [apply keeps_lift|intros doc].
  apply keeps_bind;
    [apply ok_keeps, ok_fold_each; intros; apply any_inline_script|intros assets].
  apply keeps_bind; [apply ok_keeps, ok_for_each; intros; apply any_inline_style|intros _].
  apply keeps_bind.
  { unfold add_source_page. destruct includeSourcePage; [|apply ok_keeps, ok_ret].
    apply keeps_bind; [apply ok_keeps, any_fresh_uuid|intros i].
    destruct content; try apply keeps_throw. apply ok_keeps, I_add. }
  intros _. apply ok_keeps. apply ok_bind; [apply any_process_assets|intros _].
  destruct includePayloads; [apply any_probe_payloads|apply ok_ret].
Qed.
End AnyInvariant.

(** the status and the error of the record while the pipeline works *)
Definition working (r : ExtractionResult) : Prop :=
  res_status r = processing /\ res_error r = None.

(** the record of [id] is in the map, and the pipeline is at work on it *)
Definition at_work (id : string) (m : gmap string ExtractionResult) : Prop :=
  exists r, m !! id = Some r /\ working r.

(** every write since the history was [h] has left the record at work *)
Definition busy (id : string) (h : list (gmap string ExtractionResult))
    (w : World ExtractionResult) : Prop :=
  at_work id (extractions w) /\
  exists since, history w = h ++ since /\ since <> [] /\ Forall (at_work id) since.

Lemma busy_stable id h : stable (busy id h).
Proof. intros w w' He Hh Hb. unfold busy in *. rewrite He, Hh. exact Hb. Qed.

Lemma busy_add id h f : ok (busy id h) (addFileToExtraction id f).
Proof.
  intros w [(r & Hr & Hw) (since & Hh & Hne & Hs)].
  rewrite (addFileToExtraction_present _ _ _ _ Hr). cbn [fst snd].
  split; [|exists tt; reflexivity].
  assert (Ha : at_work id (<[id := added r f]> (extractions w))).
  { exists (added r f). split; [apply lookup_insert_eq|exact Hw]. }
  split; [exact Ha|].
  exists (since ++ [<[id := added r f]> (extractions w)]). cbn [put history].
  rewrite Hh, app_assoc. split; [reflexivity|]. split.
  - destruct since; discriminate.
  - apply Forall_app. split; [exact Hs|]. constructor; [exact Ha|constructor].
Qed.

(** X18: In every run the record of the extraction is written first as
    pending, then, one or more times, as processing and without an error,
    and at last as completed or as failed with an error: whoever reads the
    status in between sees [processing] until the last write of the run.
    The last write is the one of [completed] when the root page arrives
    and can be read. *)
Theorem status_is_processing_until_the_end `{Runtime} (w0 : World ExtractionResult)
    (url : string) (includePayloads includeSourcePage : bool) :
  exists since r,
    history (final w0 url includePayloads includeSourcePage)
    = (history w0 ++ [<[new_id w0 := pending_record w0 url]> (extractions w0)])
      ++ since ++ [extractions (final w0 url includePayloads includeSourcePage)] /\
    since <> [] /\
    Forall (at_work (new_id w0)) since /\
    extractions (final w0 url includePayloads includeSourcePage) !! new_id w0 = Some r /\
    (res_status r = completed /\ res_error r = None \/
     res_status r = failed /\ exists msg, res_error r = Some msg) /\
    (forall mainResponse doc,
       axios_get_page url = Resolved mainResponse ->
       readable includeSourcePage (data mainResponse) doc ->
       res_status r = completed /\ res_error r = None).
Proof.
  set (id := new_id w0).
  destruct (axios_get_page url) as [mainResponse|e] eqn:Hpage.
  - assert (Hb2 : busy id (history (created w0 url)) (asked w0 url)).
    { assert (Ha : at_work id (extractions (asked w0 url))).
      { exists (processing_record w0 url). split; [apply lookup_insert_eq|split; reflexivity]. }
      split; [exact Ha|].
      eexists [_]. split; [reflexivity|]. split; [discriminate|].
      constructor; [exact Ha|constructor]. }
    pose proof (any_scan_and_fetch _ id (busy_stable id _) (busy_add id _) url
                  includePayloads includeSourcePage (data mainResponse) _ Hb2) as Hb3.
    destruct (scan_and_fetch id url includePayloads includeSourcePage (data mainResponse)
                (asked w0 url)) as [res w3] eqn:E3.
    cbn [snd] in Hb3.
    destruct Hb3 as [(r3 & Hr3 & Hs3 & He3) (since & Hh & Hne & Hs)].
    rewrite (final_resolved w0 url includePayloads includeSourcePage mainResponse
               _ _ _ Hpage E3 Hr3).
    exists since. destruct res as [[]|e].
    + exists (spread r3 (status_update completed)).
      split; [cbn [put history extractions]; rewrite Hh, <- app_assoc; reflexivity|].
      split; [exact Hne|]. split; [exact Hs|].
      split; [apply lookup_insert_eq|].
      split; [left; split; [reflexivity|exact He3]|].
      intros _ _ _ _. split; [reflexivity|exact He3].
    + exists (spread r3 (failed_update (error_message e))).
      split; [cbn [put history extractions console_error snd];
              rewrite Hh, <- app_assoc; reflexivity|].
      split; [exact Hne|]. split; [exact Hs|].
      split; [apply lookup_insert_eq|].
      split; [right; split; [reflexivity|eexists; reflexivity]|].
      intros mr doc Hmr Hread. injection Hmr as <-. exfalso.
      destruct (scan_and_fetch_requests id url includePayloads includeSourcePage
                  (data mainResponse) doc (asked w0 url) _ Hread (asked_record w0 url))
        as (w' & fs & payloads & E & _).
      rewrite E in E3. discriminate E3.
  - rewrite (startExtraction_rejected w0 url includePayloads includeSourcePage e Hpage).
    cbn zeta. cbn [history extractions].
    eexists [_], (failed_record w0 url e).
    split; [rewrite <- !app_assoc; reflexivity|].
    split; [discriminate|].
    split.
    { constructor; [|constructor].
      exists (processing_record w0 url). split; [apply lookup_insert_eq|split; reflexivity]. }
    split; [apply lookup_insert_eq|].
    split; [right; split; [reflexivity|eexists; reflexivity]|].
    intros mr doc Hmr. discriminate Hmr.
Qed.

(** An instance of [status_is_processing_until_the_end]: the page of the
    example web with three assets. *)
Lemma status_is_processing_until_the_end_witness :
  exists since r,
    history (final (H := Fixture.runtime) Fixture.w0 "https://ex.com/three" true true)
    = (history (R := ExtractionResult) Fixture.w0
       ++ [<[new_id (H := Fixture.runtime) Fixture.w0
             := pending_record (H := Fixture.runtime) Fixture.w0 "https://ex.com/three"]>
             (extractions Fixture.w0)])
      ++ since
      ++ [extractions (final (H := Fixture.runtime) Fixture.w0 "https://ex.com/three" true true)] /\
    Forall (at_work (new_id (H := Fixture.runtime) Fixture.w0)) since /\
    extractions (final (H := Fixture.runtime) Fixture.w0 "https://ex.com/three" true true)
      !! new_id (H := Fixture.runtime) Fixture.w0 = Some r /\
    res_status r = completed.
Proof.
  destruct (status_is_processing_until_the_end (H := Fixture.runtime) Fixture.w0
              "https://ex.com/three" true true)
    as (since & r & Hh & _ & Hs & Hr & _ & Hc).
  exists since, r. split; [exact Hh|]. split; [exact Hs|]. split; [exact Hr|].
  apply (Hc {| status := 200; headers := [("content-type", "text/html")];
               data := JStr Fixture.three_page |}
            (Fixture.fx_cheerio_load Fixture.three_page)).
  - reflexivity.
  - split; [reflexivity|reflexivity].
Defined.

(** ** The answer of the route that starts an extraction *)

(** X19: For a request that the schema accepts, the route that starts an
    extraction answers with the record as it was created, pending and
    without files, whatever happens in the run: a failure of the run is
    written to the store and to the console, never to this answer. *)
Theorem start_answers_with_the_pending_record `{Runtime} (w0 : World ExtractionResult)
    (url : string) (includePayloads includeSourcePage : bool) :
  fst (startExtraction url includePayloads includeSourcePage w0)
  = Val (pending_record w0 url) /\
  res_id (pending_record w0 url) = new_id w0 /\
  res_status (pending_record w0 url) = pending /\
  res_files (pending_record w0 url) = [] /\
  res_error (pending_record w0 url) = None.
Proof.
  split; [|repeat split].
  unfold startExtraction.
  rewrite (bind_val _ _ _ _ _ (createExtractionResult_run w0 url)).
  unfold bind at 1, try_catch.
  destruct (extractWebsiteFiles _ _ _ _ _) as [[[]|e] w']; reflexivity.
Qed.

(** ** The routes that read the store *)

Section HandlerFacts.
Context {express : Express}.

Lemma getExtractionResult_run (id : string) (w : World ExtractionResult) :
  getExtractionResult id w = (Val (extractions w !! id), w).
Proof. reflexivity. Qed.

Lemma setHeader_run name value headers (w : World ExtractionResult) :
  setHeader name value headers w
  = (if header_value_ok value then Val (headers ++ [(name, value)])
     else Throw (JsError ("Invalid character in header content [" +:+ double_quote +:+ name
                          +:+ double_quote +:+ "]")), w).
Proof. unfold setHeader. destruct (header_value_ok value); reflexivity. Qed.

(** X20: The three routes that read the store answer every request, with one
    of the status codes 200, 400, 404 and 500, and they leave the store, the
    requests and the console as they are.  The route of the status answers
    404 for the ids that the store does not have, and for those only, and
    200 with the record otherwise. *)
Theorem read_routes_answer (w : World ExtractionResult) (id fileId : string) :
  getExtraction id w
  = (Val (match extractions w !! id with
          | Some extraction => reply 200 (BRecord extraction)
          | None => reply 404 (BMessage "Extraction not found")
          end), w) /\
  (exists rp, downloadZip id w = (Val rp, w) /\ In (rp_status rp) [200; 400; 404; 500] /\
              (extractions w !! id = None -> rp_status rp = 404)) /\
  (exists rp, downloadFile id fileId w = (Val rp, w) /\ In (rp_status rp) [200; 404; 500] /\
              (extractions w !! id = None -> rp_status rp = 404)).
Proof.
  split; [|split].
  - unfold getExtraction, caught, try_catch.
    rewrite (bind_val _ _ _ _ _ (getExtractionResult_run id w)).
    destruct (extractions w !! id); reflexivity.
  - unfold downloadZip, caught, try_catch.
    rewrite (bind_val _ _ _ _ _ (getExtractionResult_run id w)).
    destruct (extractions w !! id) as [extraction|];
      [|eexists; split; [reflexivity|]; cbn; auto 10].
    destruct (res_status extraction);
      try (eexists; split; [reflexivity|]; cbn; split; [auto 10|discriminate]).
    unfold bind, lift. destruct (hostname (res_url extraction));
      [|eexists; split; [reflexivity|]; cbn; split; [auto 10|discriminate]].
    destruct (generateAsync _);
      [|eexists; split; [reflexivity|]; cbn; split; [auto 10|discriminate]].
    rewrite !setHeader_run.
    destruct (header_value_ok "application/zip");
      [|eexists; split; [reflexivity|]; cbn; split; [auto 10|discriminate]].
    rewrite !setHeader_run.
    destruct (header_value_ok _);
      eexists; (split; [reflexivity|]); cbn; (split; [auto 10|discriminate]).
  - unfold downloadFile, caught, try_catch.
    rewrite (bind_val _ _ _ _ _ (getExtractionResult_run id w)).
    destruct (extractions w !! id) as [extraction|];
      [|eexists; split; [reflexivity|]; cbn; auto 10].
    destruct (find _ _) as [file|];
      [|eexists; split; [reflexivity|]; cbn; split; [auto 10|discriminate]].
    unfold bind. rewrite !setHeader_run.
    destruct (header_value_ok (file_mimeType file));
      [|eexists; split; [reflexivity|]; cbn; split; [auto 10|discriminate]].
    rewrite !setHeader_run.
    destruct (header_value_ok _);
      eexists; (split; [reflexivity|]); cbn; (split; [auto 10|discriminate]).
Qed.
End HandlerFacts.

Section Downloads.
Context `{Runtime} {express : Express}.

Lemma downloadZip_refused (w : World ExtractionResult) (id : string) r :
  extractions w !! id = Some r -> res_status r <> completed ->
  downloadZip id w = (Val (reply 400 (BMessage "Extraction not completed")), w).
Proof.
  intros Hr Hs. unfold downloadZip, caught, try_catch.
  rewrite (bind_val _ _ _ _ _ (getExtractionResult_run id w)), Hr.
  destruct (res_status r); try reflexivity. congruence.
Qed.

(** X21: The archive of an extraction is made only once the extraction is
    completed.  While it is pending or processing, and after it has failed,
    the route answers 400 and builds no archive.  For a completed
    extraction whose URL has a host name the archive has one entry for each
    file of the record, in their order, under the path of the file and with
    its stored content, and it is named after the host. *)
Theorem archive_needs_completion (w : World ExtractionResult) (id : string)
    (r : ExtractionResult) :
  extractions w !! id = Some r ->
  (res_status r <> completed ->
   downloadZip id w = (Val (reply 400 (BMessage "Extraction not completed")), w)) /\
  (res_status r = completed ->
   forall domain zipBuffer,
     hostname (res_url r) = Some domain ->
     generateAsync (map (fun file => (file_path file, file_content file)) (res_files r))
     = Val zipBuffer ->
     header_value_ok "application/zip" = true ->
     header_value_ok (attachment (domain +:+ "-sources.zip")) = true ->
     downloadZip id w
     = (Val {| rp_status := 200;
               rp_headers := [("Content-Type", "application/zip");
                              ("Content-Disposition", attachment (domain +:+ "-sources.zip"))];
               rp_body := BBuffer zipBuffer |}, w)).
Proof.
  intros Hr. split; [apply downloadZip_refused, Hr|].
  intros Hs domain zipBuffer Hd Hz H1 H2. unfold downloadZip, caught, try_catch.
  rewrite (bind_val _ _ _ _ _ (getExtractionResult_run id w)), Hr, Hs, Hd.
  unfold bind, lift. rewrite Hz, !setHeader_run, H1, setHeader_run, H2. reflexivity.
Qed.


(** X22: After a run whose root page does not arrive, the route of the status
    shows the failed extraction with the message of the failure, and the
    route of the archive answers 400. *)
Theorem failed_run_is_reported (w0 : World ExtractionResult) (url : string)
    (includePayloads includeSourcePage : bool) (e : JsValue) :
  axios_get_page url = Rejected e ->
  exists r,
    fst (getExtraction (new_id w0) (final w0 url includePayloads includeSourcePage))
    = Val (reply 200 (BRecord r)) /\
    res_status r = failed /\ res_error r = Some (error_message e) /\ res_files r = [] /\
    fst (downloadZip (new_id w0) (final w0 url includePayloads includeSourcePage))
    = Val (reply 400 (BMessage "Extraction not completed")).
Proof.
  intros Hpage.
  assert (Hr : extractions (final w0 url includePayloads includeSourcePage) !! new_id w0
               = Some (failed_record w0 url e)).
  { rewrite (startExtraction_rejected w0 url includePayloads includeSourcePage e Hpage).
    apply lookup_insert_eq. }
  exists (failed_record w0 url e). split.
  { unfold getExtraction, caught, try_catch.
    rewrite (bind_val _ _ _ _ _ (getExtractionResult_run _ _)), Hr. reflexivity. }
  split; [reflexivity|]. split; [reflexivity|]. split; [reflexivity|].
  rewrite (downloadZip_refused _ _ _ Hr); [reflexivity|discriminate].
Qed.


(** X23: When [randomUUID] gives no identifier twice in the course of a run,
    every file of the extraction can be downloaded by its identifier after
    the run: the route of one file answers with the stored content of that
    file, under its MIME type and its name, as long as [setHeader] accepts
    these two; binary assets are sent as the data URI that is stored.  For
    an identifier that no file of the extraction has it answers 404. *)
Theorem files_can_be_downloaded (w0 : World ExtractionResult) (url : string)
    (includePayloads includeSourcePage : bool) :
  (forall m n,
     m < uuids (final w0 url includePayloads includeSourcePage) ->
     n < uuids (final w0 url includePayloads includeSourcePage) ->
     randomUUID m = randomUUID n -> m = n) ->
  exists r,
    extractions (final w0 url includePayloads includeSourcePage) !! new_id w0 = Some r /\
    (forall f, In f (res_files r) ->
       header_value_ok (file_mimeType f) = true ->
       header_value_ok (attachment (file_name f)) = true ->
       fst (downloadFile (new_id w0) (file_id f)
              (final w0 url includePayloads includeSourcePage))
       = Val {| rp_status := 200;
                rp_headers := [("Content-Type", file_mimeType f);
                               ("Content-Disposition", attachment (file_name f))];
                rp_body := BText (file_content f) |}) /\
    (forall fileId, ~ In fileId (map file_id (res_files r)) ->
       fst (downloadFile (new_id w0) fileId
              (final w0 url includePayloads includeSourcePage))
       = Val (reply 404 (BMessage "File not found"))).
Proof.
  intros Hinj.
  destruct (run_ids_NoDup w0 url includePayloads includeSourcePage Hinj)
    as (r & Hr & Hnd & _).
  exists r. split; [exact Hr|]. split.
  - intros f Hf H1 H2. unfold downloadFile, caught, try_catch.
    rewrite (bind_val _ _ _ _ _ (getExtractionResult_run _ _)), Hr.
    rewrite (find_by_id _ f Hnd Hf).
    unfold bind. rewrite !setHeader_run, H1, setHeader_run, H2. reflexivity.
  - intros fileId Hn. unfold downloadFile, caught, try_catch.
    rewrite (bind_val _ _ _ _ _ (getExtractionResult_run _ _)), Hr.
    destruct (find _ _) as [g|] eqn:Ef; [|reflexivity].
    apply find_some in Ef as [Hg Eg]. apply String.eqb_eq in Eg. subst fileId.
    exfalso. apply Hn. apply in_map, Hg.
Qed.

End Downloads.

(** An instance of [archive_needs_completion]: an extraction that has
    just been created. *)
Lemma archive_needs_completion_witness :
  downloadZip (express := ExpressFixture.express) (new_id (H := Fixture.runtime) Fixture.w0)
    (created (H := Fixture.runtime) Fixture.w0 "https://ex.com/three")
  = (Val (reply 400 (BMessage "Extraction not completed")),
     created (H := Fixture.runtime) Fixture.w0 "https://ex.com/three").
Proof.
  apply (archive_needs_completion (express := ExpressFixture.express)
           (created (H := Fixture.runtime) Fixture.w0 "https://ex.com/three")
           (new_id (H := Fixture.runtime) Fixture.w0)
           (pending_record (H := Fixture.runtime) Fixture.w0 "https://ex.com/three")).
  - vm_compute. reflexivity.
  - discriminate.
Defined.

(** An instance of [failed_run_is_reported]: the root page of the example
    web that times out. *)
Lemma failed_run_is_reported_witness :
  exists r,
    fst (getExtraction (new_id (H := Fixture.runtime) Fixture.w0)
           (final (H := Fixture.runtime) Fixture.w0 "https://ex.com/down" true true))
    = Val (reply 200 (BRecord r)) /\
    res_status r = failed /\ res_error r = Some "timeout of 15000ms exceeded".
Proof.
  destruct (failed_run_is_reported (H := Fixture.runtime) (express := ExpressFixture.express)
              Fixture.w0 "https://ex.com/down" true true
              (JsError "timeout of 15000ms exceeded"))
    as (r & Hg & Hs & He & _).
  - reflexivity.
  - exists r. split; [exact Hg|]. split; [exact Hs|exact He].
Defined.

(** An instance of [files_can_be_downloaded]: the page of the example web
    with three assets. *)
Lemma files_can_be_downloaded_witness :
  exists r,
    extractions (final (H := Fixture.runtime) Fixture.w0 "https://ex.com/three" false false)
      !! new_id (H := Fixture.runtime) Fixture.w0 = Some r /\
    forall f, In f (res_files r) ->
      fst (downloadFile (express := ExpressFixture.express) (new_id (H := Fixture.runtime) Fixture.w0)
             (file_id f)
             (final (H := Fixture.runtime) Fixture.w0 "https://ex.com/three" false false))
      = Val {| rp_status := 200;
               rp_headers := [("Content-Type", file_mimeType f);
                              ("Content-Disposition", attachment (file_name f))];
               rp_body := BText (file_content f) |}.
Proof.
  destruct (files_can_be_downloaded (H := Fixture.runtime) (express := ExpressFixture.express)
              Fixture.w0 "https://ex.com/three" false false) as (r & Hr & Hf & _).
  - apply distinct_below. vm_compute. reflexivity.
  - exists r. split; [exact Hr|]. intros f Hin. apply Hf; [exact Hin|reflexivity|reflexivity].
Defined.

(** ** The standalone server: sizes and requests *)

(** the number of bytes of a stored content *)
Definition content_length (c : Server.Content) : nat :=
  match c with
  | Server.Text s => Js.byteLength s
  | Server.Buf b => length b
  end.

Definition sized (f : Server.File) : Prop :=
  Server.file_size f = content_length (Server.file_content f).

(** X24: In the standalone server the [size] of every file is the number of
    bytes of its stored content, for the assets as well, which are stored
    as the bytes of the response; and the total size of a completed
    extraction is the number of bytes of all its contents. *)
Theorem server_sizes_are_content_lengths `{Runtime} (s0 : World Server.Extraction)
    (url : string) (includePayloads includeSourcePage : bool) :
  exists e,
    extractions (server_final s0 url includePayloads includeSourcePage) !! server_new_id s0
    = Some e /\
    Forall sized (Server.ext_files e) /\
    (Server.ext_status e = completed ->
     Server.ext_totalSize e
     = list_sum (map (fun f => content_length (Server.file_content f)) (Server.ext_files e))).
Proof.
  pose (K := fun e => Forall sized (Server.ext_files e)).
  destruct (server_run s0 url includePayloads includeSourcePage K sized)
    as [_ [e4 [HK [He|[msg He]]]]].
  - intros e f He Hf. unfold K. cbn. apply Forall_app. split; [exact He|].
    constructor; [exact Hf|constructor].
  - intros e e' Hfiles He. unfold K in *. rewrite Hfiles. exact He.
  - constructor.
  - intros n i c. reflexivity.
  - intros n i c. reflexivity.
  - intros u n i t b. unfold sized. cbn. unfold Server.size_of.
    destruct (length b =? 0); reflexivity.
  - intros _ i c. reflexivity.
  - eexists. split; [exact He|]. cbn. split; [exact HK|]. intros _.
    rewrite server_sum_list_sum. f_equal. apply map_ext_Forall. exact HK.
  - eexists. split; [exact He|]. cbn. split; [exact HK|]. discriminate.
Qed.

(** *** The requests of the standalone server *)

Lemma same_eq (a b : option string) : Server.same a b = true -> a = b.
Proof.
  destruct a as [x|], b as [y|]; cbn; try discriminate; [|reflexivity].
  intros E. apply String.eqb_eq in E. congruence.
Qed.

Lemma same_refl (a : option string) : Server.same a a = true.
Proof. destruct a; [apply String.eqb_refl|reflexivity]. Qed.

Lemma add_asset_NoDup (u : option string) (assets : list (option string)) :
  NoDup assets -> NoDup (Server.add_asset u assets).
Proof.
  intros Hd. unfold Server.add_asset.
  destruct (existsb (Server.same u) assets) eqn:Ee; [exact Hd|].
  apply NoDup_app. split; [exact Hd|]. split; [|apply NoDup_singleton].
  intros x Hx Hu. apply list_elem_of_singleton in Hu. subst x.
  assert (Ht : existsb (Server.same u) assets = true).
  { apply existsb_exists. exists u. split; [apply list_elem_of_In, Hx|apply same_refl]. }
  congruence.
Qed.

Lemma server_collect_NoDup `{Runtime} url selector pick doc assets :
  NoDup assets -> NoDup (Server.collect url selector pick doc assets).
Proof.
  unfold Server.collect. apply fold_left_keeps. intros a el Ha.
  destruct (pick el) as [v|]; [|exact Ha].
  destruct (Js.truthy (Some v)); [apply add_asset_NoDup, Ha|exact Ha].
Qed.

Lemma validAssets_elem (assets : list (option string)) (a : string) :
  a ∈ Server.validAssets assets ->
  Some a ∈ assets /\ a <> EmptyString /\ Js.startsWith "data:" a = false.
Proof.
  unfold Server.validAssets. intros Hin.
  apply list_elem_of_omap in Hin as (x & Hx & Hf).
  destruct x as [b|]; [|discriminate].
  destruct (Js.truthy (Some b) && negb (Js.startsWith "data:" b)) eqn:Hg; [|discriminate].
  injection Hf as ->. apply andb_true_iff in Hg as [Ht Hd].
  split; [exact Hx|]. split.
  - intros ->. discriminate Ht.
  - apply negb_true_iff, Hd.
Qed.

Lemma validAssets_NoDup (assets : list (option string)) :
  NoDup assets -> NoDup (Server.validAssets assets).
Proof.
  intros Hd. induction Hd as [|x l Hx Hd IH]; [constructor|].
  unfold Server.validAssets in *. cbn [omap list_omap].
  destruct x as [b|]; [|exact IH].
  destruct (Js.truthy (Some b) && negb (Js.startsWith "data:" b)); [|exact IH].
  apply NoDup_cons. split; [|exact IH].
  intros Hin. apply Hx. apply (validAssets_elem l b) in Hin as [Hin _]. exact Hin.
Qed.

Section ServerRequests.
Context `{Runtime}.
Variable id : string.

(** One turn of the loop over the assets sends one request, whether the URL
    parses or not and whatever the answer is. *)
Lemma fetch_asset_requests assetUrl (w : World Server.Extraction) :
  is_Some (extractions w !! id) ->
  exists w',
    Server.fetch_asset id assetUrl w = (Val tt, w') /\
    is_Some (extractions w' !! id) /\ requests w' = requests w ++ [assetUrl].
Proof.
  intros [e He].
  destruct (parses assetUrl) eqn:Hp.
  - destruct (fetch_asset_spec id assetUrl w e Hp He) as (w' & fs & E & He' & Hq & _).
    exists w'. split; [exact E|]. split; [eexists; exact He'|exact Hq].
  - unfold Server.fetch_asset, try_catch, parses in *.
    rewrite (bind_val _ _ _ _ _ (server_note_request_run assetUrl w)).
    destruct (axios_get_arraybuffer assetUrl) as [response|err].
    + cbn [Server.isValidContent]. destruct (URL_new assetUrl None); [discriminate|].
      eexists. split; [reflexivity|]. cbn. split; [eexists; exact He|reflexivity].
    + eexists. split; [reflexivity|]. cbn. split; [eexists; exact He|reflexivity].
Qed.

Lemma fetch_assets_requests urls (w : World Server.Extraction) :
  is_Some (extractions w !! id) ->
  exists w',
    for_each urls (Server.fetch_asset id) w = (Val tt, w') /\
    is_Some (extractions w' !! id) /\ requests w' = requests w ++ urls.
Proof.
  revert w. induction urls as [|u urls IH]; intros w He.
  - exists w. split; [reflexivity|]. split; [exact He|symmetry; apply app_nil_r].
  - destruct (fetch_asset_requests u w He) as (w1 & E1 & He1 & Hq1).
    destruct (IH w1 He1) as (w2 & E2 & He2 & Hq2).
    exists w2. split; [cbn [for_each]; rewrite (bind_val _ _ _ _ _ E1); exact E2|].
    split; [exact He2|]. rewrite Hq2, Hq1, <- app_assoc. reflexivity.
Qed.

Lemma server_scan_and_fetch_requests url includePayloads includeSourcePage content doc
    (w : World Server.Extraction) :
  readable includeSourcePage content doc ->
  is_Some (extractions w !! id) ->
  exists w',
    Server.scan_and_fetch id url includePayloads includeSourcePage content w = (Val tt, w') /\
    is_Some (extractions w' !! id) /\
    requests w' = requests w ++ server_urls url includePayloads doc.
Proof.
  intros [Hload Hsrc] [e He]. unfold Server.scan_and_fetch.
  unfold bind at 1, lift. rewrite Hload. cbv zeta.
  lazymatch goal with
  | |- context [for_each ?l (Server.inline_script id)] =>
      destruct (for_each_turns push_all id push_all_nil push_all_app server_quiet
                  server_quiet_none server_quiet_compose _ l (server_inline_script_turn id)
                  w e He) as (w1 & fs1 & E1 & He1 & Hq1 & _)
  end.
  rewrite (bind_val _ _ _ _ _ E1).
  lazymatch goal with
  | |- context [for_each ?l (Server.inline_style id)] =>
      destruct (for_each_turns push_all id push_all_nil push_all_app server_quiet
                  server_quiet_none server_quiet_compose _ l (server_inline_style_turn id)
                  w1 _ He1) as (w2 & fs2 & E2 & He2 & Hq2 & _)
  end.
  rewrite (bind_val _ _ _ _ _ E2).
  destruct (server_add_source_page_quiet id includeSourcePage content w2 _ Hsrc He2)
    as (w3 & fs3 & E3 & He3 & Hq3 & _).
  rewrite (bind_val _ _ _ _ _ E3).
  unfold server_urls. destruct includePayloads.
  - destruct (fetch_assets_requests (Server.validAssets (Server.scan url doc)) w3)
      as (w4 & E4 & He4 & Hq4); [eexists; exact He3|].
    exists w4. split; [exact E4|]. split; [exact He4|]. congruence.
  - exists w3. split; [reflexivity|]. split; [eexists; exact He3|].
    rewrite app_nil_r. congruence.
Qed.
End ServerRequests.

Lemma server_startExtraction_requests `{Runtime} (s0 : World Server.Extraction)
    (url : string) (includePayloads includeSourcePage : bool)
    (mainResponse : Response Json) (doc : list Element) :
  axios_get_page url = Resolved mainResponse ->
  readable includeSourcePage (data mainResponse) doc ->
  requests (server_final s0 url includePayloads includeSourcePage)
  = requests s0 ++ url :: server_urls url includePayloads doc.
Proof.
  intros Hpage Hread.
  destruct (server_scan_and_fetch_requests (server_new_id s0) url includePayloads
              includeSourcePage (data mainResponse) doc (server_asked s0 url) Hread)
    as (w3 & E3 & [e3 He3] & Hq); [eexists; apply server_asked_record|].
  rewrite (server_final_resolved s0 url includePayloads includeSourcePage mainResponse
             _ _ _ Hpage E3 He3).
  cbn [wrote put requests]. rewrite Hq. cbn. rewrite <- app_assoc. reflexivity.
Qed.

(** X25: The requests of a run of the standalone server whose root page
    arrives.  When the page can be read ([cheerio.load] makes a document
    of the data, and the data is a string when the source page is stored):
    the page, then, when the payloads are asked for, each asset of the
    document once, in the order in which the document names them, none of
    them for an empty URL or a [data:] URL, whether its URL parses and
    whatever the answer is; and the page alone when the payloads are not
    asked for.  When the page cannot be read: the page alone. *)
Theorem server_requests_of_a_run `{Runtime} (s0 : World Server.Extraction) (url : string)
    (includePayloads includeSourcePage : bool) (mainResponse : Response Json) :
  axios_get_page url = Resolved mainResponse ->
  (forall doc,
     readable includeSourcePage (data mainResponse) doc ->
     requests (server_final s0 url includePayloads includeSourcePage)
     = requests s0 ++ url ::
         (if includePayloads then Server.validAssets (Server.scan url doc) else []) /\
     NoDup (Server.validAssets (Server.scan url doc)) /\
     Forall (fun a => a <> EmptyString /\ Js.startsWith "data:" a = false)
       (Server.validAssets (Server.scan url doc))) /\
  ((forall doc, ~ readable includeSourcePage (data mainResponse) doc) ->
   requests (server_final s0 url includePayloads includeSourcePage) = requests s0 ++ [url]).
Proof.
  intros Hpage. split.
  - intros doc Hread.
    split; [apply (server_startExtraction_requests s0 url _ _ mainResponse doc Hpage Hread)|].
    split.
    + apply validAssets_NoDup. unfold Server.scan. cbv zeta.
      do 4 apply server_collect_NoDup. constructor.
    + apply Forall_forall. intros a Ha. apply validAssets_elem in Ha. tauto.
  - intros Hun.
    destruct (server_unreadable_root_fails s0 url includePayloads includeSourcePage
                mainResponse Hpage Hun) as (e & _ & _ & _ & Hq).
    exact Hq.
Qed.

(** An instance of [server_requests_of_a_run]: the page of the example web
    with three assets, with and without the option; the page whose link
    has the value [Stylesheet]; and the root that answers with a JSON
    object. *)
Lemma server_requests_of_a_run_witness :
  requests (server_final (H := Fixture.runtime) Fixture.w0 "https://ex.com/three" true true)
  = ["https://ex.com/three"; "https://ex.com/y.css"; "https://ex.com/x.js";
     "https://ex.com/z.png"] /\
  requests (server_final (H := Fixture.runtime) Fixture.w0 "https://ex.com/three" false true)
  = ["https://ex.com/three"] /\
  requests (server_final (H := Fixture.runtime) Fixture.w0 "https://ex.com/cased" true true)
  = ["https://ex.com/cased"; "https://ex.com/a.css"] /\
  requests (server_final (H := Fixture.runtime) Fixture.w0 "https://ex.com/data.json" true true)
  = ["https://ex.com/data.json"].
Proof.
  split; [|split; [|split]].
  - apply (proj1 (server_requests_of_a_run (H := Fixture.runtime) Fixture.w0
                    "https://ex.com/three" true true
                    {| status := 200; headers := [("content-type", "text/html")];
                       data := JStr Fixture.three_page |} eq_refl)
             (Fixture.fx_cheerio_load Fixture.three_page)).
    split; reflexivity.
  - apply (proj1 (server_requests_of_a_run (H := Fixture.runtime) Fixture.w0
                    "https://ex.com/three" false true
                    {| status := 200; headers := [("content-type", "text/html")];
                       data := JStr Fixture.three_page |} eq_refl)
             (Fixture.fx_cheerio_load Fixture.three_page)).
    split; reflexivity.
  - apply (proj1 (server_requests_of_a_run (H := Fixture.runtime) Fixture.w0
                    "https://ex.com/cased" true true
                    {| status := 200; headers := [("content-type", "text/html")];
                       data := JStr Fixture.cased_page |} eq_refl)
             (Fixture.fx_cheerio_load Fixture.cased_page)).
    split; reflexivity.
  - apply (proj2 (server_requests_of_a_run (H := Fixture.runtime) Fixture.w0
                    "https://ex.com/data.json" true true
                    {| status := 200; headers := [("content-type", "application/json")];
                       data := JObj [("ok", JBool true)] |} eq_refl)).
    intros doc [_ Ht]. discriminate (Ht eq_refl).
Defined.
